(** * Orange.data.table: a shallow embedding of [Table] and its invariants

    The development follows [Orange/data/table.py].  A [Table] keeps four
    numpy arrays ([_X], [_Y], [_metas], [_W]) next to a [Domain]; the code is
    translated method by method, with Python exceptions as an error result
    and attribute assignment as explicit state passing.  The definitions
    come first, the properties after them. *)

From Stdlib Require Import String Ascii.
From Stdlib Require Import List ZArith QArith Qround Bool Lia Permutation Arith.
From Stdlib Require Import DecimalString.
Import ListNotations.

Local Open Scope Z_scope.
Local Open Scope list_scope.

(** ** Python values and exceptions *)

Module Py.

(** The exception classes the module raises or lets through. *)
Inductive exn : Type :=
| IndexError
| ValueError
| TypeError
| AttributeError
| OverflowError.

Inductive result (A : Type) : Type :=
| Ok (a : A)
| Raise (e : exn).
Arguments Ok {A} a.
Arguments Raise {A} e.

Definition bind {A B : Type} (r : result A) (k : A -> result B) : result B :=
  match r with
  | Ok a => k a
  | Raise e => Raise e
  end.

(** A double as the value it denotes: every finite double is a rational,
    and the operations the module applies to array cells (comparison,
    [min], [max], [int()], [isnan]) depend on that value only. *)
Inductive pyfloat : Type :=
| Fin (q : Q)
| Inf (negative : bool)
| NaN.

(** [a < b], [a <= b], [a == b] on doubles; every comparison with NaN is
    false. *)
Definition flt (a b : pyfloat) : bool :=
  match a, b with
  | NaN, _ | _, NaN => false
  | Fin x, Fin y => negb (Qle_bool y x)
  | Fin _, Inf neg => negb neg
  | Inf neg, Fin _ => neg
  | Inf n1, Inf n2 => n1 && negb n2
  end.

Definition feq (a b : pyfloat) : bool :=
  match a, b with
  | Fin x, Fin y => Qeq_bool x y
  | Inf n1, Inf n2 => Bool.eqb n1 n2
  | _, _ => false
  end.

Definition fle (a b : pyfloat) : bool := flt a b || feq a b.

Definition isnan (a : pyfloat) : bool :=
  match a with NaN => true | _ => false end.

Definition of_Z (z : Z) : pyfloat := Fin (inject_Z z).

(** [int(x)]: truncation toward zero. *)
Definition Qtrunc (q : Q) : Z :=
  if Qle_bool 0 q then Qfloor q else Qceiling q.

Definition int_of_float (a : pyfloat) : result Z :=
  match a with
  | Fin q => Ok (Qtrunc q)
  | Inf _ => Raise OverflowError
  | NaN => Raise ValueError
  end.

(** A Python number that is either an [int] or a [float]. *)
Inductive pynum : Type :=
| PInt (z : Z)
| PFloat (f : pyfloat).

(** What an array cell (or a value handed to the table) can hold. *)
Inductive cell : Type :=
| CNum (x : pyfloat)
| CStr (s : string)
| CNone.

(** [Unknown] of Orange.data.instance is [float("nan")]. *)
Definition Unknown : cell := CNum NaN.

(** [isinstance(v, Real)] *)
Definition is_Real (v : cell) : bool :=
  match v with CNum _ => true | _ => false end.

End Py.
Export Py.

Declare Scope py_scope.
Delimit Scope py_scope with py.
Notation "x <- e ;; k" := (Py.bind e (fun x => k))
  (at level 61, e at next level, right associativity) : py_scope.
Local Open Scope py_scope.

(** Monadic traversal of a list, left to right, stopping at the first
    exception (a list comprehension whose body may raise). *)
Fixpoint mapM {A B : Type} (f : A -> result B) (l : list A) : result (list B) :=
  match l with
  | [] => Ok []
  | a :: l' => b <- f a ;; bs <- mapM f l' ;; Ok (b :: bs)
  end.

(** ** numpy arrays *)

Module Np.

Inductive ndim_t : Type := Dim1 | Dim2.

(** An array of shape [(n,)] or [(n, width)], kept as its [n] rows; a
    one-dimensional array is [n] rows of one cell.  [owndata] is
    [a.base is None].  The element type (dtype) is not tracked: cells are
    Python values. *)
Record ndarray : Type := mk_ndarray {
  owndata : bool;
  ndim : ndim_t;
  width : nat;
  rows : list (list cell)
}.

(** [a.shape[0]], [a.shape[1]] and [a.shape[-1]]. *)
Definition shape0 (a : ndarray) : nat := length (rows a).

Definition shape1 (a : ndarray) : result nat :=
  match ndim a with
  | Dim2 => Ok (width a)
  | Dim1 => Raise IndexError
  end.

Definition shape_last (a : ndarray) : nat :=
  match ndim a with
  | Dim2 => width a
  | Dim1 => length (rows a)
  end.

(** [not a.shape[-1]] and [a.base is None] *)
Definition zero_width (a : ndarray) : bool := Nat.eqb (shape_last a) 0.
Definition base_is_None (a : ndarray) : bool := owndata a.

(** Every row has the declared width. *)
Definition wf_array (a : ndarray) : Prop :=
  Forall (fun r => length r = width a) (rows a) /\
  (ndim a = Dim1 -> width a = 1%nat).

Definition zero : cell := CNum (Fin 0).

(** [np.zeros((n, k))], [np.empty((n, k))], [np.ones(n)]: fresh arrays
    that own their data. *)
Definition zeros (n k : nat) : ndarray :=
  mk_ndarray true Dim2 k (repeat (repeat zero k) n).

Definition empty_object (n k : nat) : ndarray :=
  mk_ndarray true Dim2 k (repeat (repeat CNone k) n).

Definition ones1 (n : nat) : ndarray :=
  mk_ndarray true Dim1 1 (repeat [CNum (of_Z 1)] n).

(** The row-major buffer of an array, and its inverse for a given shape. *)
Definition flat (a : ndarray) : list cell := concat (rows a).

Fixpoint chunks (n k : nat) (buf : list cell) : list (list cell) :=
  match n with
  | O => []
  | S n' => firstn k buf :: chunks n' k (skipn k buf)
  end.

(** [a.resize(...)] in place: refused unless the array owns its buffer; the
    buffer is truncated or zero-padded to [n * k] cells and read back with
    the new shape.  [resize2 a n k] is [a.resize(n, k)] and [resize1 a n] is
    [a.resize(n)].  (numpy also refuses while another array refers to the
    buffer; the arrays of the model are not referred to from elsewhere.) *)
Definition resize_buffer (d : ndim_t) (a : ndarray) (n k : nat) : result ndarray :=
  if owndata a then
    let buf := flat a in
    let buf' := firstn (n * k) buf ++ repeat zero (n * k - length buf) in
    Ok (mk_ndarray true d k (chunks n k buf'))
  else Raise ValueError.

Definition resize2 (a : ndarray) (n k : nat) : result ndarray :=
  resize_buffer Dim2 a n k.

Definition resize1 (a : ndarray) (n : nat) : result ndarray :=
  resize_buffer Dim1 a n 1.

(** *** Indexing *)

(** A Python index into a sequence of length [n]: negative indices count
    from the end, anything outside [-n, n) raises IndexError. *)
Definition norm_index (n : nat) (i : Z) : result nat :=
  if (i <? - Z.of_nat n) || (Z.of_nat n <=? i) then Raise IndexError
  else Ok (Z.to_nat (if i <? 0 then i + Z.of_nat n else i)).

Definition item {A : Type} (l : list A) (i : Z) : result A :=
  k <- norm_index (length l) i ;;
  match nth_error l k with
  | Some a => Ok a
  | None => Raise IndexError
  end.

(** [slice(start, stop, step)] *)
Record slice : Type := mk_slice {
  start : option Z;
  stop : option Z;
  step : option Z
}.

(** [s.indices(n)] *)
Definition slice_indices (s : slice) (n : nat) : result (Z * Z * Z) :=
  let len := Z.of_nat n in
  let st := match step s with Some k => k | None => 1 end in
  if st =? 0 then Raise ValueError
  else
    let lower := if st <? 0 then -1 else 0 in
    let upper := if st <? 0 then len - 1 else len in
    let clamp (i : Z) :=
      if i <? 0 then Z.max (i + len) lower else Z.min i upper in
    let b := match start s with
             | Some i => clamp i
             | None => if st <? 0 then upper else lower
             end in
    let e := match stop s with
             | Some i => clamp i
             | None => if st <? 0 then lower else upper
             end in
    Ok (b, e, st).

(** [list(range(b, e, st))] for a non-zero [st]. *)
Definition range (b e st : Z) : list Z :=
  let count :=
    if 0 <? st then (if b <? e then (e - b - 1) / st + 1 else 0)
    else (if e <? b then (b - e - 1) / (- st) + 1 else 0) in
  map (fun i => b + Z.of_nat i * st) (seq 0 (Z.to_nat count)).

(** The positions a slice selects in a sequence of length [n]. *)
Definition slice_positions (s : slice) (n : nat) : result (list Z) :=
  bes <- slice_indices s n ;;
  let '(b, e, st) := bes in
  Ok (range b e st).

(** Boolean-mask selection: the entries whose mask bit is set. *)
Fixpoint select {A : Type} (m : list bool) (l : list A) : list A :=
  match m, l with
  | b :: m', a :: l' => if b then a :: select m' l' else select m' l'
  | _, _ => []
  end.

(** [np.nonzero(m)] *)
Definition nonzero (m : list bool) : list Z :=
  select m (map Z.of_nat (seq 0 (length m))).

(** The row selectors the table passes to its arrays. *)
Inductive row_sel : Type :=
| RSlice (s : slice)
| REllipsis
| RList (l : list Z)
| RMask (m : list bool).

(** The rows a selector picks from [l]; a mask must have one bit per row. *)
Definition pick {A : Type} (sel : row_sel) (l : list A) : result (list A) :=
  match sel with
  | RSlice s => ps <- slice_positions s (length l) ;; mapM (item l) ps
  | REllipsis => Ok l
  | RList idx => mapM (item l) idx
  | RMask m =>
      if Nat.eqb (length m) (length l) then Ok (select m l)
      else Raise IndexError
  end.

(** Basic indexing (slice, Ellipsis) gives a view, advanced indexing
    (index list, mask) gives a copy. *)
Definition is_basic (sel : row_sel) : bool :=
  match sel with
  | RSlice _ | REllipsis => true
  | RList _ | RMask _ => false
  end.

(** [a[sel]] *)
Definition getitem (a : ndarray) (sel : row_sel) : result ndarray :=
  rs <- pick sel (rows a) ;;
  Ok (mk_ndarray (negb (is_basic sel)) (ndim a) (width a) rs).

(** A one-dimensional array holding [v]. *)
Definition vector (own : bool) (v : list cell) : ndarray :=
  mk_ndarray own Dim1 1 (map (fun x => [x]) v).

(** [a[sel, c]] with an integer column [c]: the column restricted to the
    selected rows. *)
Definition getitem_col (a : ndarray) (sel : row_sel) (c : Z) : result ndarray :=
  match ndim a with
  | Dim1 => Raise IndexError
  | Dim2 =>
      rs <- pick sel (rows a) ;;
      v <- mapM (fun r => item r c) rs ;;
      Ok (vector (negb (is_basic sel)) v)
  end.

(** Two index arrays broadcast against each other: equal lengths pair up,
    a length-one array is repeated, anything else is a shape mismatch. *)
Definition broadcast_pairs (ri ci : list Z) : result (list (Z * Z)) :=
  if Nat.eqb (length ri) (length ci) then Ok (combine ri ci)
  else match ri, ci with
       | [r], _ => Ok (map (fun c => (r, c)) ci)
       | _, [c] => Ok (map (fun r => (r, c)) ri)
       | _, _ => Raise IndexError
       end.

(** [a[sel, cols]] with a list of columns.  With a slice or Ellipsis for
    the rows the result has one row per selected row and one column per
    entry of [cols]; with an index list or a mask for the rows numpy
    broadcasts the two index arrays and returns a one-dimensional array. *)
Definition getitem_cols (a : ndarray) (sel : row_sel) (cols : list Z)
  : result ndarray :=
  match ndim a with
  | Dim1 => Raise IndexError
  | Dim2 =>
      let outer :=
        rs <- pick sel (rows a) ;;
        rs' <- mapM (fun r => mapM (item r) cols) rs ;;
        Ok (mk_ndarray true Dim2 (length cols) rs') in
      let paired (ri : list Z) :=
        ps <- broadcast_pairs ri cols ;;
        v <- mapM (fun p => r <- item (rows a) (fst p) ;; item r (snd p)) ps ;;
        Ok (vector true v) in
      match sel with
      | RSlice _ | REllipsis => outer
      | RList idx => paired idx
      | RMask m =>
          if Nat.eqb (length m) (length (rows a)) then paired (nonzero m)
          else Raise IndexError
      end
  end.

(** [a[:, i] = v] for a one-dimensional [v]: [v] must have one entry per
    row of [a], or a single entry that is repeated. *)
Definition set_column (a : ndarray) (i : nat) (v : ndarray) : result ndarray :=
  let vals := concat (rows v) in
  let put (r : list cell) (x : cell) := firstn i r ++ x :: skipn (S i) r in
  if Nat.ltb i (width a) then
    if Nat.eqb (length vals) (length (rows a)) then
      Ok (mk_ndarray (owndata a) (ndim a) (width a)
            (map (fun rx => put (fst rx) (snd rx)) (combine (rows a) vals)))
    else match vals with
         | [x] => Ok (mk_ndarray (owndata a) (ndim a) (width a)
                        (map (fun r => put r x) (rows a)))
         | _ => Raise ValueError
         end
  else Raise IndexError.

(** *** Assignment *)

(** A sequence assigned to a row of [k] cells: it must have [k] entries, or
    one entry that is repeated. *)
Definition broadcast_row (k : nat) (vals : list cell) : result (list cell) :=
  if Nat.eqb (length vals) k then Ok vals
  else match vals with
       | [x] => Ok (repeat x k)
       | _ => Raise ValueError
       end.

Definition update {A : Type} (l : list A) (i : nat) (a : A) : list A :=
  firstn i l ++ a :: skipn (S i) l.

Definition with_rows (a : ndarray) (rs : list (list cell)) : ndarray :=
  mk_ndarray (owndata a) (ndim a) (width a) rs.

(** [a[key] = vals] for an integer [key] and a sequence [vals]. *)
Definition set_row (a : ndarray) (key : Z) (vals : list cell) : result ndarray :=
  i <- norm_index (length (rows a)) key ;;
  r <- broadcast_row (width a) vals ;;
  Ok (with_rows a (update (rows a) i r)).

(** [a[key] = x] for an integer [key] and a scalar [x]. *)
Definition fill_row (a : ndarray) (key : Z) (x : cell) : result ndarray :=
  i <- norm_index (length (rows a)) key ;;
  Ok (with_rows a (update (rows a) i (repeat x (width a)))).

(** [a[key, :] = x]: as [fill_row], and an error on a one-dimensional
    array, which has no second axis. *)
Definition fill_row_all (a : ndarray) (key : Z) (x : cell) : result ndarray :=
  match ndim a with
  | Dim1 => Raise IndexError
  | Dim2 => fill_row a key x
  end.

(** The rows of [src] as they are assigned to [m] rows of [dst]: trailing
    axes are aligned, an axis of length one is repeated, and a leading axis
    of [src] that [dst] lacks must have length one. *)
Definition broadcast_rows (dst : ndarray) (m : nat) (src : ndarray)
  : result (list (list cell)) :=
  let stretch (rs : list (list cell)) : result (list (list cell)) :=
    if Nat.eqb (length rs) m then Ok rs
    else match rs with
         | [r] => Ok (repeat r m)
         | _ => Raise ValueError
         end in
  match ndim dst, ndim src with
  | Dim2, Dim2 | Dim1, Dim1 =>
      if Nat.eqb (width src) (width dst) || Nat.eqb (width src) 1 then
        rs <- mapM (broadcast_row (width dst)) (rows src) ;;
        stretch rs
      else Raise ValueError
  | Dim2, Dim1 =>
      r <- broadcast_row (width dst) (concat (rows src)) ;;
      Ok (repeat r m)
  | Dim1, Dim2 =>
      match rows src with
      | [r] =>
          v <- broadcast_row m r ;;
          Ok (map (fun x => [x]) v)
      | _ => Raise ValueError
      end
  end.

(** The half-open range of rows [a[b:e]] addresses in [n] rows. *)
Definition slice_bounds (b e : option Z) (n : nat) : nat * nat :=
  match slice_indices (mk_slice b e None) n with
  | Ok (lo, hi, _) => (Z.to_nat lo, Z.to_nat (Z.max lo hi))
  | Raise _ => (O, O)
  end.

(** [a[b:e] = src] for an array [src]; the values are read before any is
    written, so [src] may be a slice of [a] itself. *)
Definition set_slice (a : ndarray) (b e : option Z) (src : ndarray)
  : result ndarray :=
  let '(lo, hi) := slice_bounds b e (length (rows a)) in
  rs <- broadcast_rows a (hi - lo) src ;;
  Ok (with_rows a (firstn lo (rows a) ++ rs ++ skipn hi (rows a))).

(** [a[b:e] = x] for a scalar [x]. *)
Definition fill_slice (a : ndarray) (b e : option Z) (x : cell) : ndarray :=
  let '(lo, hi) := slice_bounds b e (length (rows a)) in
  with_rows a (firstn lo (rows a) ++ repeat (repeat x (width a)) (hi - lo)
               ++ skipn hi (rows a)).

(** [a[b:e]], a view. *)
Definition get_slice (a : ndarray) (b e : option Z) : result ndarray :=
  getitem a (RSlice (mk_slice b e None)).

(** [a[:, b:e]], a view of the columns from [b] up to [e]. *)
Definition getitem_colslice (a : ndarray) (b e : option Z) : result ndarray :=
  match ndim a with
  | Dim1 => Raise IndexError
  | Dim2 =>
      let '(lo, hi) := slice_bounds b e (width a) in
      Ok (mk_ndarray false Dim2 (hi - lo)
            (map (fun r => firstn (hi - lo) (skipn lo r)) (rows a)))
  end.

(** [np.delete(a, key, axis=0)] for an integer, a slice or a list of
    integers: a new array without the addressed rows. *)
Inductive del_key : Type :=
| DInt (i : Z)
| DSlice (s : slice)
| DList (l : list Z).

Definition del_positions (key : del_key) (n : nat) : result (list nat) :=
  match key with
  | DInt i => k <- norm_index n i ;; Ok [k]
  | DSlice s => ps <- slice_positions s n ;; Ok (map Z.to_nat ps)
  | DList l => mapM (norm_index n) l
  end.

Definition np_delete (a : ndarray) (key : del_key) : result ndarray :=
  ps <- del_positions key (length (rows a)) ;;
  let keep :=
    map (fun i => negb (existsb (Nat.eqb i) ps)) (seq 0 (length (rows a))) in
  Ok (mk_ndarray true (ndim a) (width a) (select keep (rows a))).

(** [np.array(a)]: a copy. *)
Definition np_array (a : ndarray) : ndarray :=
  mk_ndarray true (ndim a) (width a) (rows a).

End Np.
Export Np.

(** ** The schema: variables, domains, instances *)

(** Modelled from the spec: the variable classes of Orange.data.variable
    that the table constructs, with what it passes to their constructors. *)
Inductive variable : Type :=
| ContinuousVariable (name : string)
| DiscreteVariable (name : string) (values : list string)
| StringVariable (name : string).

Module Dom.

(** Modelled from the spec: Orange.data.domain.Domain, the ordered
    variables in their three groups and the [anonymous] mark. *)
Record Domain : Type := mk_Domain {
  attributes : list variable;
  class_vars : list variable;
  metas : list variable;
  anonymous : bool
}.

End Dom.
Export Dom (Domain, mk_Domain).

(** What the table is handed as a column identifier: a position, a name or
    a variable. *)
Inductive colkey : Type :=
| KInt (i : Z)
| KName (s : string)
| KVar (v : variable).

Module Inst.

(** Modelled from the spec: Orange.data.instance.Instance, with the
    attributes the table reads; [is_RowInstance] is
    [isinstance(example, RowInstance)]. *)
Record Instance : Type := mk_Instance {
  domain : Domain;
  is_RowInstance : bool;
  _x : list cell;
  _y : list cell;
  _values : list cell;
  _metas : list cell
}.

End Inst.

Module Conv.

(** Modelled from the spec: one entry of a domain conversion, which is a
    column index in the source, [None], or a callable that computes the
    value from a source instance. *)
Inductive entry : Type :=
| Index (i : Z)
| Nothing
| Compute (f : Inst.Instance -> result cell).

(** Modelled from the spec: the result of
    [domain.get_conversion(source_domain)], one list of entries for each
    group of variables. *)
Record Conversion : Type := mk_Conversion {
  attributes : list entry;
  class_vars : list entry;
  metas : list entry
}.

End Conv.

(** The services of the schema the table calls and does not define. *)
Class DomainOps : Type := {
  (** [d1 == d2] *)
  domain_eq : Domain -> Domain -> bool;
  (** [domain.index(key)] *)
  domain_index : Domain -> colkey -> result Z;
  (** [domain[key]] *)
  domain_getitem : Domain -> colkey -> result variable;
  (** [var.to_val(value)] *)
  to_val : variable -> cell -> result cell;
  (** [domain.get_conversion(source_domain)] *)
  get_conversion : Domain -> Domain -> Conv.Conversion
}.

(** Behaviour of the Python and numpy runtime that the table relies on and
    that depends on rounding, on the numpy release or on the random
    generator. *)
Class Runtime : Type := {
  (** a float given where numpy needs an integer (a shape, a slice bound) *)
  float_as_index : pyfloat -> result Z;
  (** [x * n] for a float [x] and an int [n] *)
  fmul_int : pyfloat -> Z -> pyfloat;
  (** [a / b] for ints, [b] non-zero *)
  truediv : Z -> Z -> pyfloat;
  (** [str(v)] for a cell that is not a string *)
  py_str : cell -> string;
  (** whether an in-place operation may cast a float result back into a
      boolean array (it raises TypeError otherwise) *)
  unsafe_inplace_cast : bool;
  (** the order in which [np.random.shuffle] leaves [n] items *)
  shuffle_order : nat -> list nat;
  shuffle_order_perm : forall n, Permutation (shuffle_order n) (seq 0 n)
}.

(** ** The table *)

(** The four arrays and the domain.  The attribute [n_rows], which two
    constructors set and nothing reads, is left out. *)
Record Table : Type := mk_Table {
  domain : Domain;
  _X : ndarray;
  _Y : ndarray;
  _metas : ndarray;
  _W : ndarray
}.

Definition set_X (a : ndarray) (t : Table) : Table :=
  mk_Table (domain t) a (_Y t) (_metas t) (_W t).
Definition set_Y (a : ndarray) (t : Table) : Table :=
  mk_Table (domain t) (_X t) a (_metas t) (_W t).
Definition set_metas (a : ndarray) (t : Table) : Table :=
  mk_Table (domain t) (_X t) (_Y t) a (_W t).
Definition set_W (a : ndarray) (t : Table) : Table :=
  mk_Table (domain t) (_X t) (_Y t) (_metas t) a.

(** [len(self)] *)
Definition len (self : Table) : nat := shape0 (_X self).

(** The four containers agree on the number of rows. *)
Definition same_rows (t : Table) : Prop :=
  shape0 (_X t) = shape0 (_Y t) /\
  shape0 (_Y t) = shape0 (_metas t) /\
  shape0 (_metas t) = shape0 (_W t).

(** The shape the class documents: [X], [Y] and [metas] two-dimensional,
    [W] a vector or an [(N, 0)] array, rows of the declared width. *)
Definition wf_table (t : Table) : Prop :=
  (ndim (_X t) = Dim2 /\ wf_array (_X t)) /\
  (ndim (_Y t) = Dim2 /\ wf_array (_Y t)) /\
  (ndim (_metas t) = Dim2 /\ wf_array (_metas t)) /\
  (wf_array (_W t) /\ (ndim (_W t) = Dim2 -> width (_W t) = 0%nat)) /\
  same_rows t.

(** *** Methods that mutate the table

    A method body is a function from the table before to an outcome and the
    table after; an exception leaves the table as it was when it was
    raised. *)
Definition M (A : Type) : Type := Table -> result A * Table.

Definition ret {A : Type} (a : A) : M A := fun s => (Ok a, s).
Definition raise {A : Type} (e : exn) : M A := fun s => (Raise e, s).
Definition lift {A : Type} (r : result A) : M A := fun s => (r, s).
Definition bindM {A B : Type} (m : M A) (k : A -> M B) : M B :=
  fun s => match m s with
           | (Ok a, s') => k a s'
           | (Raise e, s') => (Raise e, s')
           end.
Definition get : M Table := fun s => (Ok s, s).
Definition modify (f : Table -> Table) : M unit := fun s => (Ok tt, f s).

(** [try: body  except Exception: handler] where the handler sees the
    exception it caught. *)
Definition try_except {A : Type} (body : M A) (handler : exn -> M A) : M A :=
  fun s => match body s with
           | (Ok a, s') => (Ok a, s')
           | (Raise e, s') => handler e s'
           end.

Declare Scope table_scope.
Delimit Scope table_scope with table.
Notation "x <~ e ;; k" := (bindM e (fun x => k))
  (at level 61, e at next level, right associativity) : table_scope.
Notation "e ;;; k" := (bindM e (fun _ => k))
  (at level 61, right associativity) : table_scope.
Local Open Scope table_scope.

(** [if c: body] *)
Definition when (c : bool) (body : M unit) : M unit :=
  if c then body else ret tt.

(** A statement that updates one of the four arrays: the array after the
    statement is [f] of the array before, unless [f] raises. *)
Definition on_X (f : ndarray -> result ndarray) : M unit :=
  self <~ get ;; a <~ lift (f (_X self)) ;; modify (set_X a).
Definition on_Y (f : ndarray -> result ndarray) : M unit :=
  self <~ get ;; a <~ lift (f (_Y self)) ;; modify (set_Y a).
Definition on_metas (f : ndarray -> result ndarray) : M unit :=
  self <~ get ;; a <~ lift (f (_metas self)) ;; modify (set_metas a).
Definition on_W (f : ndarray -> result ndarray) : M unit :=
  self <~ get ;; a <~ lift (f (_W self)) ;; modify (set_W a).

(** [a.resize(n, a.shape[1])] *)
Definition resize_rows (n : nat) (a : ndarray) : result ndarray :=
  k <- shape1 a ;; resize2 a n k.

(** [if w.ndim == 2: w.resize((n, 0))  else: w.resize(n)] *)
Definition resize_weights (n : nat) (w : ndarray) : result ndarray :=
  match ndim w with
  | Dim2 => resize2 w n 0
  | Dim1 => resize1 w n
  end.

Definition resize_X (n : nat) : M unit := on_X (resize_rows n).
Definition resize_Y (n : nat) : M unit := on_Y (resize_rows n).
Definition resize_metas (n : nat) : M unit := on_metas (resize_rows n).
Definition resize_W (n : nat) : M unit := on_W (resize_weights n).

Definition resize_all (new_length : nat) : M unit :=
  self <~ get ;;
  let old_length := shape0 (_X self) in
  if Nat.eqb old_length new_length then ret tt
  else
    try_except
      (resize_X new_length ;;;
       resize_Y new_length ;;;
       resize_metas new_length ;;;
       resize_W new_length)
      (fun e =>
         self <~ get ;;
         when (Nat.eqb (shape0 (_X self)) new_length) (resize_X old_length) ;;;
         self <~ get ;;
         when (Nat.eqb (shape0 (_Y self)) new_length) (resize_Y old_length) ;;;
         self <~ get ;;
         when (Nat.eqb (shape0 (_metas self)) new_length)
           (resize_metas old_length) ;;;
         self <~ get ;;
         when (Nat.eqb (shape0 (_W self)) new_length) (resize_W old_length) ;;;
         raise e).

(** *** Rows as instances *)

(** [RowInstance(table, row_index)]: the row's feature, target and meta
    cells; [_values] is [np.hstack((_x, _y))]. *)
Definition RowInstance (table : Table) (row_index : Z) : result Inst.Instance :=
  x <- item (rows (_X table)) row_index ;;
  y <- item (rows (_Y table)) row_index ;;
  m <- item (rows (_metas table)) row_index ;;
  Ok (Inst.mk_Instance (domain table) true x y (x ++ y) m).

(** Iterating a table yields [table[0]], [table[1]], ... until the first
    IndexError (the sequence protocol of [MutableSequence]). *)
Fixpoint iter_rows (table : Table) (idx : list nat) : list Inst.Instance :=
  match idx with
  | [] => []
  | i :: idx' =>
      match RowInstance table (Z.of_nat i) with
      | Ok r => r :: iter_rows table idx'
      | Raise _ => []
      end
  end.

Definition iter_table (table : Table) : list Inst.Instance :=
  iter_rows table (seq 0 (len table)).

(** What the table is given as one example: an instance, a sequence of raw
    values, or a single value (a number, a string, [None]). *)
Inductive pyobject : Type :=
| OInstance (i : Inst.Instance)
| OSeq (vals : list cell)
| OScalar (v : cell).

(** The argument of [extend]: another table, or a sequence of examples. *)
Inductive examples_t : Type :=
| ExTable (t : Table)
| ExList (l : list pyobject).

Section Methods.

Context {dom : DomainOps} {rt : Runtime}.

(** [seq[b:]] and [seq[:e]] on a Python sequence, for [b], [e] >= 0. *)
Definition from_ {A : Type} (b : nat) (l : list A) : list A := skipn b l.
Definition upto {A : Type} (e : nat) (l : list A) : list A := firstn e l.

(** One value of a converted row:
    [example._values[i] if isinstance(i, int) else
     (Unknown if not i else i(example))] *)
Definition converted (example : Inst.Instance) (i : Conv.entry) : result cell :=
  match i with
  | Conv.Index k => item (Inst._values example) k
  | Conv.Nothing => Ok Unknown
  | Conv.Compute f => f example
  end.

(** [[var.to_val(val) for var, val in zip(vars, vals)]] *)
Definition to_vals (vars : list variable) (vals : list cell) : result (list cell) :=
  mapM (fun vv => to_val (fst vv) (snd vv)) (combine vars vals).

(** [self._X[key] = vals], and the same for [_Y] and [_metas]. *)
Definition assign_X (key : Z) (vals : list cell) : M unit :=
  on_X (fun a => set_row a key vals).
Definition assign_Y (key : Z) (vals : list cell) : M unit :=
  on_Y (fun a => set_row a key vals).
Definition assign_metas (key : Z) (vals : list cell) : M unit :=
  on_metas (fun a => set_row a key vals).

(** The values [zip] and slicing see in an example that is not an
    instance: the items of a sequence, the characters of a string; a number
    or [None] is not iterable. *)
Definition as_sequence (example : pyobject) : option (list cell) :=
  match example with
  | OSeq vals => Some vals
  | OScalar (CStr s) =>
      Some (map (fun c => CStr (String c EmptyString)) (list_ascii_of_string s))
  | _ => None
  end.

Definition convert_to_row (example : pyobject) (key : Z) : M unit :=
  self <~ get ;;
  let domain := domain self in
  match example with
  | OInstance example =>
      if domain_eq (Inst.domain example) domain then
        (if Inst.is_RowInstance example then
           assign_X key (Inst._x example) ;;;
           assign_Y key (Inst._y example)
         else
           assign_X key (upto (length (Dom.attributes domain)) (Inst._values example)) ;;;
           assign_Y key (from_ (length (Dom.attributes domain)) (Inst._values example))) ;;;
        assign_metas key (Inst._metas example)
      else
        let c := get_conversion domain (Inst.domain example) in
        vx <~ lift (mapM (converted example) (Conv.attributes c)) ;;
        assign_X key vx ;;;
        vy <~ lift (mapM (converted example) (Conv.class_vars c)) ;;
        assign_Y key vy ;;;
        vm <~ lift (mapM (converted example) (Conv.metas c)) ;;
        assign_metas key vm
  | _ =>
      match as_sequence example with
      | Some example =>
          vx <~ lift (to_vals (Dom.attributes domain) example) ;;
          assign_X key vx ;;;
          vy <~ lift (to_vals (Dom.class_vars domain)
                        (from_ (length (Dom.attributes domain)) example)) ;;
          assign_Y key vy ;;;
          on_metas (fun a => fill_row a key Unknown)
      | None =>
          (* zip(domain.attributes, example): the object is not iterable *)
          raise TypeError
      end
  end.

(** [self[key] = value] for a key that is an integer (the branch of
    [__setitem__] for keys that are not tuples). *)
Definition setitem_row (key : Z) (value : pyobject) : M unit :=
  match value with
  | OScalar (CNum x) => on_X (fun a => fill_row_all a key (CNum x))
  | _ => convert_to_row value key
  end.

(** [for i, example in enumerate(examples): self[old_length + i] = example] *)
Fixpoint extend_rows (old_length : nat) (i : nat) (examples : list pyobject)
  : M unit :=
  match examples with
  | [] => ret tt
  | example :: rest =>
      setitem_row (Z.of_nat (old_length + i)) example ;;;
      extend_rows old_length (S i) rest
  end.

Definition from_row (n : nat) : option Z := Some (Z.of_nat n).

(** The body of the [try] in [extend]. *)
Definition extend_body (old_length : nat) (examples : examples_t) : M unit :=
  self <~ get ;;
  match examples with
  | ExTable examples =>
      if domain_eq (domain examples) (domain self) then
        on_X (fun a => set_slice a (from_row old_length) None (_X examples)) ;;;
        on_Y (fun a => set_slice a (from_row old_length) None (_Y examples)) ;;;
        on_metas (fun a => set_slice a (from_row old_length) None
                             (_metas examples)) ;;;
        self <~ get ;;
        when (negb (zero_width (_W self)))
          (if negb (zero_width (_W examples)) then
             on_W (fun a => set_slice a (from_row old_length) None
                              (_W examples))
           else
             on_W (fun a => Ok (fill_slice a (from_row old_length) None
                                  (CNum (of_Z 1)))))
      else
        extend_rows old_length 0 (map OInstance (iter_table examples))
  | ExList examples => extend_rows old_length 0 examples
  end.

(** [len(examples)] *)
Definition len_examples (examples : examples_t) : nat :=
  match examples with
  | ExTable t => len t
  | ExList l => length l
  end.

Definition extend (examples : examples_t) : M unit :=
  self <~ get ;;
  let old_length := len self in
  resize_all (old_length + len_examples examples) ;;;
  try_except
    (extend_body old_length examples)
    (fun e => resize_all old_length ;;; raise e).

(** [a[key + 1:] = a[key:-1]] and [a[key:-1] = a[key + 1:]] *)
Definition move_down (key : Z) (a : ndarray) : result ndarray :=
  v <- get_slice a (Some key) (Some (-1)) ;;
  set_slice a (Some (key + 1)) None v.

Definition move_up (key : Z) (a : ndarray) : result ndarray :=
  v <- get_slice a (Some (key + 1)) None ;;
  set_slice a (Some key) (Some (-1)) v.

(** The four shifts that open the gap at [key], and the four that close
    it. *)
Definition shift_down (key : Z) : M unit :=
  on_X (move_down key) ;;;
  on_Y (move_down key) ;;;
  on_metas (move_down key) ;;;
  on_W (move_down key).

Definition shift_up (key : Z) : M unit :=
  on_X (move_up key) ;;;
  on_Y (move_up key) ;;;
  on_metas (move_up key) ;;;
  on_W (move_up key).

(** The body of the [try] in [insert]. *)
Definition insert_body (key : Z) (value : pyobject) : M unit :=
  convert_to_row value key ;;;
  self <~ get ;;
  when (negb (zero_width (_W self)))
    (on_W (fun a => fill_row a key (CNum (of_Z 1)))).

(** [key] after [if key < 0: key += len(self)]. *)
Definition insert_key (self : Table) (key : Z) : Z :=
  if key <? 0 then key + Z.of_nat (len self) else key.

Definition insert (key : Z) (value : pyobject) : M unit :=
  self <~ get ;;
  let key := insert_key self key in
  if (key <? 0) || (Z.of_nat (len self) <? key) then raise IndexError
  else
    resize_all (len self + 1) ;;;
    self <~ get ;;
    when (key <? Z.of_nat (len self)) (shift_down key) ;;;
    try_except
      (insert_body key value)
      (fun e =>
         shift_up key ;;;
         self <~ get ;;
         resize_all (len self - 1) ;;;
         raise e).

(** [self.insert(len(self), value)] *)
Definition append (value : pyobject) : M unit :=
  self <~ get ;;
  insert (Z.of_nat (len self)) value.

End Methods.

(** *** Deleting and shuffling rows *)

(** The key of [del self[key]]: what [np.delete] takes, or Ellipsis. *)
Inductive delitem_key : Type :=
| DelEllipsis
| DelKey (k : del_key).

Definition delitem (key : delitem_key) : M unit :=
  self <~ get ;;
  let key := match key with
             | DelEllipsis => DList (map Z.of_nat (seq 0 (len self)))
             | DelKey k => k
             end in
  on_X (fun a => np_delete a key) ;;;
  on_Y (fun a => np_delete a key) ;;;
  on_metas (fun a => np_delete a key) ;;;
  on_W (fun a => np_delete a key).

Definition clear : M unit := delitem DelEllipsis.

Section Shuffle.

Context {rt : Runtime}.

(** [ind = np.arange(n); np.random.shuffle(ind)] *)
Definition shuffled_arange (n : nat) : list Z :=
  map Z.of_nat (shuffle_order n).

(** [np.random.shuffle(v)] for a sequence [v]: the items in the order the
    generator chose. *)
Definition np_shuffle {A : Type} (v : list A) : list A :=
  flat_map (fun i => match nth_error v i with Some a => [a] | None => [] end)
    (shuffle_order (length v)).

Definition shuffle : M unit :=
  self <~ get ;;
  let ind := RList (shuffled_arange (shape0 (_X self))) in
  on_X (fun a => getitem a ind) ;;;
  on_Y (fun a => getitem a ind) ;;;
  on_metas (fun a => getitem a ind) ;;;
  on_W (fun a => getitem a ind).

End Shuffle.

(** *** Constructors *)

Definition new_from_domain (domain : Domain) (n_rows : nat) (weights : bool)
  : Table :=
  mk_Table domain
    (zeros n_rows (length (Dom.attributes domain)))
    (zeros n_rows (length (Dom.class_vars domain)))
    (empty_object n_rows (length (Dom.metas domain)))
    (if weights then ones1 n_rows else zeros n_rows 0).

Definition new_from_table_rows (source : Table) (row_indices : row_sel)
  : result Table :=
  x <- getitem (_X source) row_indices ;;
  y <- getitem (_Y source) row_indices ;;
  m <- getitem (_metas source) row_indices ;;
  w <- getitem (_W source) row_indices ;;
  Ok (mk_Table (domain source) x y m w).

(** Dense arrays only ([sparse.issparse(X)] is false). *)
Definition new_from_numpy (domain : Domain) (X : ndarray)
  (Y metas W : option ndarray) : result Table :=
  XY <- match Y with
        | Some Y => Ok (X, Y)
        | None =>
            let n := Z.of_nat (length (Dom.attributes domain)) in
            Y <- getitem_colslice X (Some n) None ;;
            X <- getitem_colslice X None (Some n) ;;
            Ok (X, Y)
        end ;;
  let '(X, Y) := XY in
  let metas := match metas with
               | Some m => m
               | None => empty_object (shape0 X) 0
               end in
  let W := match W with
           | Some w => w
           | None => zeros (shape0 X) 0
           end in
  kx <- shape1 X ;;
  if negb (Nat.eqb kx (length (Dom.attributes domain))) then Raise ValueError
  else
    ky <- shape1 Y ;;
    if negb (Nat.eqb ky (length (Dom.class_vars domain))) then Raise ValueError
    else
      km <- shape1 metas ;;
      if negb (Nat.eqb km (length (Dom.metas domain))) then Raise ValueError
      else
        if negb (Nat.eqb (shape0 X) (shape0 Y) &&
                 Nat.eqb (shape0 Y) (shape0 metas) &&
                 Nat.eqb (shape0 metas) (shape0 W))
        then Raise ValueError
        else Ok (mk_Table domain X Y metas W).

Section Conversion.

Context {dom : DomainOps} {rt : Runtime}.

(** A number used as an array dimension. *)
Definition as_dimension (n : pynum) : result nat :=
  z <- match n with
       | PInt z => Ok z
       | PFloat f => float_as_index f
       end ;;
  if z <? 0 then Raise ValueError else Ok (Z.to_nat z).

(** [all(p(x) for x in src_cols)]: stops at the first entry that fails the
    test; comparing an entry that is not an integer raises TypeError. *)
Fixpoint all_cols (p : Z -> bool) (src_cols : list Conv.entry) : result bool :=
  match src_cols with
  | [] => Ok true
  | Conv.Index x :: rest => if p x then all_cols p rest else Ok false
  | _ :: _ => Raise TypeError
  end.

Definition int_col (c : Conv.entry) : result Z :=
  match c with
  | Conv.Index x => Ok x
  | _ => Raise TypeError
  end.

(** The loop of [_get_columns] that fills [a] one destination column at a
    time, from column [i] on. *)
Fixpoint gather_columns (self : Table) (row_indices : row_sel)
  (n_src_attrs : Z) (i : nat) (src_cols : list Conv.entry) (a : ndarray)
  : result ndarray :=
  match src_cols with
  | [] => Ok a
  | c :: rest =>
      col <- int_col c ;;
      v <- (if col <? 0 then getitem_col (_metas self) row_indices (-1 - col)
            else if col <? n_src_attrs then getitem_col (_X self) row_indices col
            else getitem_col (_Y self) row_indices (col - n_src_attrs)) ;;
      a' <- set_column a i v ;;
      gather_columns self row_indices n_src_attrs (S i) rest a'
  end.

(** The element-by-element path of [_get_columns] on its own; the cells of
    [np.empty], all overwritten by the loop, start as zeros. *)
Definition get_columns_loop (self : Table) (row_indices : row_sel)
  (src_cols : list Conv.entry) (n_rows : pynum) : result ndarray :=
  let n_src_attrs := Z.of_nat (length (Dom.attributes (domain self))) in
  n <- as_dimension n_rows ;;
  gather_columns self row_indices n_src_attrs 0 src_cols
    (zeros n (length src_cols)).

Definition _get_columns (self : Table) (row_indices : row_sel)
  (src_cols : list Conv.entry) (n_rows : pynum) : result ndarray :=
  if Nat.eqb (length src_cols) 0 then
    n <- as_dimension n_rows ;; Ok (zeros n 0)
  else
    let n_src_attrs := Z.of_nat (length (Dom.attributes (domain self))) in
    in_X <- all_cols (fun x => (0 <=? x) && (x <? n_src_attrs)) src_cols ;;
    if in_X then
      cols <- mapM int_col src_cols ;;
      getitem_cols (_X self) row_indices cols
    else
      in_metas <- all_cols (fun x => x <? 0) src_cols ;;
      if in_metas then
        cols <- mapM int_col src_cols ;;
        getitem_cols (_metas self) row_indices (map (fun x => -1 - x) cols)
      else
        in_Y <- all_cols (fun x => n_src_attrs <=? x) src_cols ;;
        if in_Y then
          cols <- mapM int_col src_cols ;;
          getitem_cols (_Y self) row_indices
            (map (fun x => x - n_src_attrs) cols)
        else get_columns_loop self row_indices src_cols n_rows.

Definition new_from_table (new_domain : Domain) (source : Table)
  (row_indices : row_sel) : result Table :=
  if domain_eq new_domain (domain source) then
    new_from_table_rows source row_indices
  else
    n_rows <- match row_indices with
              | RSlice s =>
                  ind <- slice_indices s (shape0 (_X source)) ;;
                  let '(start, stop, stride) := ind in
                  let n_rows := truediv (stop - start) stride in
                  Ok (if flt n_rows (of_Z 0) then PInt 0 else PFloat n_rows)
              | REllipsis => Ok (PInt (Z.of_nat (shape0 (_X source))))
              | RList l => Ok (PInt (Z.of_nat (length l)))
              | RMask m => Ok (PInt (Z.of_nat (length m)))
              end ;;
    let conversion := get_conversion new_domain (domain source) in
    x <- _get_columns source row_indices (Conv.attributes conversion) n_rows ;;
    y <- _get_columns source row_indices (Conv.class_vars conversion) n_rows ;;
    m <- _get_columns source row_indices (Conv.metas conversion) n_rows ;;
    w <- getitem (_W source) row_indices ;;
    Ok (mk_Table new_domain x y m (np_array w)).

End Conversion.

(** *** Ownership *)

(** Attribute lookup on a table: the four arrays are the only array
    attributes the class ever sets. *)
Definition getattr (self : Table) (name : string) : result ndarray :=
  if String.eqb name "_X" then Ok (_X self)
  else if String.eqb name "_Y" then Ok (_Y self)
  else if String.eqb name "_metas" then Ok (_metas self)
  else if String.eqb name "_W" then Ok (_W self)
  else Raise AttributeError.

(** [a and b], with [b] evaluated only when [a] is true. *)
Definition py_and (a : bool) (b : result bool) : result bool :=
  if a then b else Ok false.


Definition is_view (self : Table) : result bool :=
  py_and (zero_width (_X self) || negb (base_is_None (_X self)))
    (py_and (zero_width (_Y self) || negb (base_is_None (_Y self)))
       (py_and (zero_width (_metas self) || negb (base_is_None (_metas self)))
          (weights <- getattr self "_weights" ;;
           Ok (zero_width weights || negb (base_is_None (_W self)))))).

Definition is_copy (self : Table) : result bool :=
  py_and (zero_width (_X self) || base_is_None (_X self))
    (py_and (base_is_None (_Y self))
       (py_and (base_is_None (_metas self))
          (Ok (base_is_None (_W self))))).

(** ** Filters *)

Module Filter.

(** [f.Operator] of a value filter. *)
Inductive Operator : Type :=
| Equal | NotEqual | Less | LessEqual | Greater | GreaterEqual
| Between | Outside | Contains | BeginsWith | EndsWith
| OtherOperator.

(** Modelled from the spec: the condition classes of Orange.data.filter,
    which [filter_values] tells apart with [isinstance] and of which it
    reads [position], [values], [oper], [min], [max] and [case_sensitive].
    [OtherCondition] is an object of another class that has a position,
    [NoPosition] an object without one. *)
Inductive condition : Type :=
| FilterDiscrete (position : colkey) (values : list cell)
| FilterStringList (position : colkey) (values : list string)
    (case_sensitive : bool)
| FilterContinuous (position : colkey) (oper : Operator) (min max : cell)
| FilterString (position : colkey) (oper : Operator) (min max : cell)
    (case_sensitive : bool)
| OtherCondition (position : colkey)
| NoPosition.

(** The argument of [filter_values]: a [filter.Values] with its conditions
    and its mode, or a single condition. *)
Inductive filter_t : Type :=
| Values (conditions : list condition) (conjunction : bool)
| Single (f : condition).

End Filter.
Import Filter.

(** *** Strings *)

(** [s.lower()] on the ASCII letters. *)
Definition lower_char (c : ascii) : ascii :=
  let n := nat_of_ascii c in
  if Nat.leb 65 n && Nat.leb n 90 then ascii_of_nat (n + 32) else c.

Fixpoint lower (s : string) : string :=
  match s with
  | EmptyString => EmptyString
  | String c s' => String (lower_char c) (lower s')
  end.

(** [p in s] *)
Fixpoint contains (p s : string) : bool :=
  String.prefix p s ||
  match s with
  | EmptyString => false
  | String _ s' => contains p s'
  end.

(** [s.startswith(p)] and [s.endswith(p)] *)
Definition startswith (s p : string) : bool := String.prefix p s.

Definition endswith (s p : string) : bool :=
  Nat.leb (String.length p) (String.length s) &&
  String.eqb (String.substring (String.length s - String.length p)
                (String.length p) s) p.

(** *** Comparing cells *)

(** [a == b] *)
Definition cell_eq (a b : cell) : bool :=
  match a, b with
  | CNum x, CNum y => feq x y
  | CStr s, CStr t => String.eqb s t
  | CNone, CNone => true
  | _, _ => false
  end.

(** [a < b] and [a <= b]; a number and a string do not compare. *)
Definition cell_lt (a b : cell) : result bool :=
  match a, b with
  | CNum x, CNum y => Ok (flt x y)
  | CStr s, CStr t => Ok (String.ltb s t)
  | _, _ => Raise TypeError
  end.

Definition cell_le (a b : cell) : result bool :=
  match a, b with
  | CNum x, CNum y => Ok (fle x y)
  | CStr s, CStr t => Ok (String.leb s t)
  | _, _ => Raise TypeError
  end.

Definition is_nan_cell (c : cell) : bool :=
  match c with CNum NaN => true | _ => false end.

(** *** Boolean arrays *)

(** [a op b] on two one-dimensional arrays: equal lengths go element by
    element, a length-one array is repeated. *)
Definition binop2 {A B C : Type} (f : A -> B -> C) (a : list A) (b : list B)
  : result (list C) :=
  if Nat.eqb (length a) (length b) then
    Ok (map (fun p => f (fst p) (snd p)) (combine a b))
  else match a, b with
       | [x], _ => Ok (map (f x) b)
       | _, [y] => Ok (map (fun x => f x y) a)
       | _, _ => Raise ValueError
       end.

(** [a op= b]: as [binop2], but [a] keeps its length. *)
Definition inplace2 {A B : Type} (f : A -> B -> A) (a : list A) (b : list B)
  : result (list A) :=
  if Nat.eqb (length a) (length b) then
    Ok (map (fun p => f (fst p) (snd p)) (combine a b))
  else match b with
       | [y] => Ok (map (fun x => f x y) a)
       | _ => Raise ValueError
       end.

(** [bn.anynan(a, axis=1)] *)
Definition anynan_rows (a : ndarray) : result (list bool) :=
  match ndim a with
  | Dim1 => Raise ValueError
  | Dim2 => Ok (map (existsb is_nan_cell) (rows a))
  end.

Section Filters.

Context {dom : DomainOps} {rt : Runtime}.

Definition all_rows : row_sel := RSlice (mk_slice None None None).

(** The cells of the one-dimensional view [a[:, c]]. *)
Definition column (a : ndarray) (c : Z) : result (list cell) :=
  v <- getitem_col a all_rows c ;;
  Ok (concat (rows v)).

Definition get_column_view (self : Table) (index : colkey) : result (list cell) :=
  index <- match index with
           | KInt i => Ok i
           | _ => domain_index (domain self) index
           end ;;
  if 0 <=? index then
    k <- shape1 (_X self) ;;
    if index <? Z.of_nat k then column (_X self) index
    else
      k <- shape1 (_X self) ;;
      column (_Y self) (index - Z.of_nat k)
  else column (_metas self) (-1 - index).

Definition filter_is_defined (self : Table) (negate : bool) : result Table :=
  nx <- anynan_rows (_X self) ;;
  ny <- anynan_rows (_Y self) ;;
  retain <- binop2 orb nx ny ;;
  let retain := if negb negate then map negb retain else retain in
  new_from_table_rows self (RMask retain).

Definition filter_has_class (self : Table) (negate : bool) : result Table :=
  retain <- anynan_rows (_Y self) ;;
  let retain := if negb negate then map negb retain else retain in
  new_from_table_rows self (RMask retain).

(** [m[b:e] = True] *)
Definition set_true (m : list bool) (b e : option Z) : list bool :=
  let '(lo, hi) := slice_bounds b e (length m) in
  firstn lo m ++ repeat true (hi - lo) ++ skipn hi m.

(** The slice bound [filter_random] derives from its argument:
    [if prob < 1: prob *= len(self)], then the value as an index. *)
Definition random_bound (n : nat) (prob : pynum) : result Z :=
  match prob with
  | PInt z => Ok (if z <? 1 then z * Z.of_nat n else z)
  | PFloat f =>
      float_as_index (if flt f (of_Z 1) then fmul_int f (Z.of_nat n) else f)
  end.

(** [retain] before it is shuffled. *)
Definition retain_block (n : nat) (prob : pynum) (negate : bool)
  : result (list bool) :=
  let retain := repeat false n in
  k <- random_bound n prob ;;
  Ok (if negate then set_true retain (Some k) None
      else set_true retain None (Some k)).

(** [retain] after [np.random.shuffle(retain)]. *)
Definition retain_mask (n : nat) (prob : pynum) (negate : bool)
  : result (list bool) :=
  retain <- retain_block n prob negate ;;
  Ok (np_shuffle retain).

Definition filter_random (self : Table) (prob : pynum) (negate : bool)
  : result Table :=
  retain <- retain_mask (len self) prob negate ;;
  new_from_table_rows self (RMask retain).

(** [val if isinstance(val, Real) else self.domain[position].to_val(val)] *)
Definition coerce (self : Table) (position : colkey) (val : cell) : result cell :=
  if is_Real val then Ok val
  else var <- domain_getitem (domain self) position ;; to_val var val.

(** [np.char.lower(np.array(col, dtype=str))] *)
Definition lower_column (col : list cell) : list cell :=
  map (fun c => match c with
                | CStr s => CStr (lower s)
                | _ => CStr (lower (py_str c))
                end) col.

(** [v.lower()] for an operand [v]; only strings have the method. *)
Definition lower_operand (v : cell) : result cell :=
  match v with
  | CStr s => Ok (CStr (lower s))
  | _ => Raise AttributeError
  end.

(** [for val in f.values: ... s2 += (col == val)], the number of listed
    values each row equals. *)
Fixpoint count_equal (self : Table) (position : colkey) (col : list cell)
  (values : list cell) (s2 : list nat) : result (list nat) :=
  match values with
  | [] => Ok s2
  | val :: rest =>
      val <- coerce self position val ;;
      s2 <- inplace2 (fun k (b : bool) => if b then S k else k) s2
              (map (fun c => cell_eq c val) col) ;;
      count_equal self position col rest s2
  end.

(** [for val in f.values: ... sel += (col == val)] *)
Fixpoint add_equal (self : Table) (position : colkey) (col : list cell)
  (values : list cell) (sel : list bool) : result (list bool) :=
  match values with
  | [] => Ok sel
  | val :: rest =>
      val <- coerce self position val ;;
      sel <- inplace2 orb sel (map (fun c => cell_eq c val) col) ;;
      add_equal self position col rest sel
  end.

(** [reduce(operator.add, (col == val for val in vals), acc)] *)
Fixpoint reduce_equal (col : list cell) (vals : list string) (acc : list bool)
  : result (list bool) :=
  match vals with
  | [] => Ok acc
  | val :: rest =>
      acc <- binop2 orb acc (map (fun c => cell_eq c (CStr val)) col) ;;
      reduce_equal col rest acc
  end.

(** The text tests on one cell: [fmin in e], [e.startswith(fmin)],
    [e.endswith(fmin)]. *)
Definition text_test (test : string -> string -> bool) (fmin e : cell)
  : result bool :=
  match e, fmin with
  | CStr e, CStr p => Ok (test e p)
  | CStr _, _ => Raise TypeError
  | _, _ => Raise AttributeError
  end.

Definition contains_test (fmin e : cell) : result bool :=
  match e, fmin with
  | CStr e, CStr p => Ok (contains p e)
  | _, _ => Raise TypeError
  end.

(** The comparison of a column with the operands of a [FilterContinuous]
    or a [FilterString]. *)
Definition compare_column (is_string : bool) (oper : Operator)
  (col : list cell) (fmin fmax : cell) : result (list bool) :=
  match oper with
  | Equal => Ok (map (fun c => cell_eq c fmin) col)
  | NotEqual => Ok (map (fun c => negb (cell_eq c fmin)) col)
  | Less => mapM (fun c => cell_lt c fmin) col
  | LessEqual => mapM (fun c => cell_le c fmin) col
  | Greater => mapM (fun c => cell_lt fmin c) col
  | GreaterEqual => mapM (fun c => cell_le fmin c) col
  | Between =>
      lo <- mapM (fun c => cell_le fmin c) col ;;
      hi <- mapM (fun c => cell_le c fmax) col ;;
      binop2 andb lo hi
  | Outside =>
      lo <- mapM (fun c => cell_lt c fmin) col ;;
      hi <- mapM (fun c => cell_lt fmax c) col ;;
      binop2 orb lo hi
  | Contains =>
      if is_string then mapM (contains_test fmin) col else Raise TypeError
  | BeginsWith =>
      if is_string then mapM (text_test startswith fmin) col
      else Raise TypeError
  | EndsWith =>
      if is_string then mapM (text_test endswith fmin) col
      else Raise TypeError
  | OtherOperator => Raise TypeError
  end.

(** One turn of the loop over the conditions: the selection after [f]. *)
Definition apply_condition (self : Table) (conjunction : bool)
  (f : condition) (sel : list bool) : result (list bool) :=
  match f with
  | NoPosition => Raise AttributeError
  | OtherCondition position =>
      _ <- get_column_view self position ;;
      Raise TypeError
  | FilterDiscrete position values =>
      col <- get_column_view self position ;;
      if conjunction then
        s2 <- count_equal self position col values (repeat O (len self)) ;;
        if unsafe_inplace_cast then
          inplace2 (fun (b : bool) k => b && negb (Nat.eqb k 0)) sel s2
        else Raise TypeError
      else add_equal self position col values sel
  | FilterStringList position values case_sensitive =>
      col <- get_column_view self position ;;
      let col := if negb case_sensitive then lower_column col else col in
      let vals := if negb case_sensitive then map lower values else values in
      if conjunction then
        match vals with
        | [] => Raise TypeError
        | val :: rest =>
            s <- reduce_equal col rest (map (fun c => cell_eq c (CStr val)) col) ;;
            inplace2 andb sel s
        end
      else reduce_equal col vals sel
  | FilterContinuous position oper fmin fmax =>
      col <- get_column_view self position ;;
      col <- compare_column false oper col fmin fmax ;;
      if conjunction then inplace2 andb sel col else inplace2 orb sel col
  | FilterString position oper fmin fmax case_sensitive =>
      col <- get_column_view self position ;;
      ops <- (if negb case_sensitive then
                lo <- lower_operand fmin ;;
                hi <- match oper with
                      | Between | Outside => lower_operand fmax
                      | _ => Ok fmax
                      end ;;
                Ok (lower_column col, lo, hi)
              else Ok (col, fmin, fmax)) ;;
      let '(col, fmin, fmax) := ops in
      col <- compare_column true oper col fmin fmax ;;
      if conjunction then inplace2 andb sel col else inplace2 orb sel col
  end.

Fixpoint apply_conditions (self : Table) (conjunction : bool)
  (conditions : list condition) (sel : list bool) : result (list bool) :=
  match conditions with
  | [] => Ok sel
  | f :: rest =>
      sel <- apply_condition self conjunction f sel ;;
      apply_conditions self conjunction rest sel
  end.

(** The selection vector [filter_values] computes. *)
Definition filter_mask (self : Table) (filt : filter_t) : result (list bool) :=
  let '(conditions, conjunction) :=
    match filt with
    | Values conditions conjunction => (conditions, conjunction)
    | Single f => ([f], true)
    end in
  apply_conditions self conjunction conditions (repeat conjunction (len self)).

Definition filter_values (self : Table) (filt : filter_t) : result Table :=
  sel <- filter_mask self filt ;;
  new_from_table_rows self (RMask sel).

End Filters.

(** ** Inferring a domain for bare arrays *)

(** ["%i" % n] for a natural number. *)
Definition fmt_i (n : nat) : string :=
  NilZero.string_of_uint (Nat.to_uint n).

(** ["%*i" % (places, n)]: the number right-aligned in [places] columns. *)
Definition fmt_padded (places n : nat) : string :=
  let s := fmt_i n in
  (String.concat "" (repeat " " (places - String.length s)) ++ s)%string.

(** The columns [enumerate(Y.T)] runs over: the columns of a
    two-dimensional array, the single elements of a one-dimensional one. *)
Definition transposed (a : ndarray) : list (list cell) :=
  match ndim a with
  | Dim2 => map (fun j => map (fun r => nth j r zero) (rows a)) (seq 0 (width a))
  | Dim1 => rows a
  end.

(** The number in a cell of a numeric array. *)
Definition as_float (c : cell) : result pyfloat :=
  match c with
  | CNum x => Ok x
  | _ => Raise TypeError
  end.

(** [np.min] and [np.max] of a one-dimensional array: NaN if any entry is
    NaN, ValueError on an empty array. *)
Definition fmin2 (a b : pyfloat) : pyfloat :=
  if isnan a || isnan b then NaN else if flt b a then b else a.

Definition fmax2 (a b : pyfloat) : pyfloat :=
  if isnan a || isnan b then NaN else if flt a b then b else a.

Definition np_min (v : list pyfloat) : result pyfloat :=
  match v with
  | [] => Raise ValueError
  | x :: rest => Ok (fold_left fmin2 rest x)
  end.

Definition np_max (v : list pyfloat) : result pyfloat :=
  match v with
  | [] => Raise ValueError
  | x :: rest => Ok (fold_left fmax2 rest x)
  end.

(** [np.unique]: the distinct values in increasing order. *)
Fixpoint insert_unique (x : pyfloat) (l : list pyfloat) : list pyfloat :=
  match l with
  | [] => [x]
  | y :: l' =>
      if feq x y then l
      else if flt x y then x :: l
      else y :: insert_unique x l'
  end.

Definition np_unique (v : list pyfloat) : list pyfloat :=
  fold_right insert_unique [] v.

(** [all(int(x) == x and 0 <= x <= 19 for x in values)] *)
Fixpoint all_small_whole (values : list pyfloat) : result bool :=
  match values with
  | [] => Ok true
  | x :: rest =>
      i <- int_of_float x ;;
      if feq (of_Z i) x && (fle (of_Z 0) x && fle x (of_Z 19))
      then all_small_whole rest
      else Ok false
  end.

(** The variable inferred for the [i]-th column of [Y]. *)
Definition class_var_for (i : nat) (class_ : list cell) : result variable :=
  col <- mapM as_float class_ ;;
  mn <- np_min col ;;
  mx <- np_max col ;;
  let continuous := Ok (ContinuousVariable ("Target " ++ fmt_i (i + 1))%string) in
  if fle (of_Z 0) mn && fle mx (of_Z 20) then
    let values := np_unique col in
    small <- all_small_whole values ;;
    if small then
      mx <- int_of_float mx ;;
      let places := if 10 <=? mx then 2%nat else 1%nat in
      let values := map (fun i => ("v" ++ fmt_padded places (i + 1))%string)
                      (seq 0 (Z.to_nat (mx + 1))) in
      let name := ("Class " ++ fmt_i (i + 1))%string in
      Ok (DiscreteVariable name values)
    else continuous
  else continuous.

(** [for i, class_ in enumerate(columns): ...] from index [i] on. *)
Fixpoint class_vars_for (i : nat) (columns : list (list cell))
  : result (list variable) :=
  match columns with
  | [] => Ok []
  | class_ :: rest =>
      v <- class_var_for i class_ ;;
      vs <- class_vars_for (S i) rest ;;
      Ok (v :: vs)
  end.

Definition create_anonymous_domain (X : ndarray) (Y metas : option ndarray)
  : result Domain :=
  kx <- shape1 X ;;
  let attr_vars :=
    map (fun a => ContinuousVariable ("Feature " ++ fmt_i (a + 1))%string) (seq 0 kx) in
  class_vars <- match Y with
                | Some Y => class_vars_for 0 (transposed Y)
                | None => Ok []
                end ;;
  meta_vars <- match metas with
               | Some metas =>
                   km <- shape1 metas ;;
                   Ok (map (fun m => StringVariable ("Meta " ++ fmt_i m)%string)
                         (seq 0 km))
               | None => Ok []
               end ;;
  Ok (mk_Domain attr_vars class_vars meta_vars true).

(** [Table(X, Y, ...)] with arrays only: the domain is inferred from the
    first three arrays. *)
Definition Table_from_arrays (X : ndarray) (Y metas W : option ndarray)
  : result Table :=
  domain <- create_anonymous_domain X Y metas ;;
  new_from_numpy domain X Y metas W.

(** ** A reference schema and runtime

    A plain implementation of the services of [DomainOps] and [Runtime], to
    run the table on concrete inputs. *)

Module Reference.

Definition variable_eqb (a b : variable) : bool :=
  match a, b with
  | ContinuousVariable n, ContinuousVariable m => String.eqb n m
  | DiscreteVariable n vs, DiscreteVariable m ws =>
      String.eqb n m &&
      Nat.eqb (length vs) (length ws) &&
      forallb (fun p => String.eqb (fst p) (snd p)) (combine vs ws)
  | StringVariable n, StringVariable m => String.eqb n m
  | _, _ => false
  end.

Definition variables_eqb (l r : list variable) : bool :=
  Nat.eqb (length l) (length r) &&
  forallb (fun p => variable_eqb (fst p) (snd p)) (combine l r).

Definition domain_eqb (a b : Domain) : bool :=
  variables_eqb (Dom.attributes a) (Dom.attributes b) &&
  variables_eqb (Dom.class_vars a) (Dom.class_vars b) &&
  variables_eqb (Dom.metas a) (Dom.metas b).

Definition var_name (v : variable) : string :=
  match v with
  | ContinuousVariable n | DiscreteVariable n _ | StringVariable n => n
  end.

(** The position of the first item that passes [p]. *)
Fixpoint find_index {A : Type} (p : A -> bool) (l : list A) : option nat :=
  match l with
  | [] => None
  | a :: l' =>
      if p a then Some O
      else match find_index p l' with
           | Some i => Some (S i)
           | None => None
           end
  end.

(** The address of the variable that passes [p]: its position among the
    attributes and class variables, or [-1 - i] for the [i]-th meta. *)
Definition address (d : Domain) (p : variable -> bool) : option Z :=
  match find_index p (Dom.attributes d ++ Dom.class_vars d) with
  | Some i => Some (Z.of_nat i)
  | None =>
      match find_index p (Dom.metas d) with
      | Some i => Some (-1 - Z.of_nat i)
      | None => None
      end
  end.

Definition index (d : Domain) (key : colkey) : result Z :=
  match key with
  | KInt i => Ok i
  | KName s =>
      match address d (fun v => String.eqb (var_name v) s) with
      | Some a => Ok a
      | None => Raise ValueError
      end
  | KVar v =>
      match address d (variable_eqb v) with
      | Some a => Ok a
      | None => Raise ValueError
      end
  end.

Definition getitem (d : Domain) (key : colkey) : result variable :=
  a <- index d key ;;
  if 0 <=? a then item (Dom.attributes d ++ Dom.class_vars d) a
  else item (Dom.metas d) (-1 - a).

(** Numbers are kept; a discrete variable turns one of its value names
    into its position; other text cannot be converted. *)
Definition convert (v : variable) (x : cell) : result cell :=
  match v, x with
  | StringVariable _, _ => Ok x
  | _, CNum _ => Ok x
  | DiscreteVariable _ vs, CStr s =>
      match find_index (String.eqb s) vs with
      | Some i => Ok (CNum (of_Z (Z.of_nat i)))
      | None => Raise ValueError
      end
  | _, _ => Raise ValueError
  end.

(** Every variable of [d] that [src] has is copied from its column there;
    the others have no source. *)
Definition conversion (d src : Domain) : Conv.Conversion :=
  let entry (v : variable) :=
    match address src (variable_eqb v) with
    | Some a => Conv.Index a
    | None => Conv.Nothing
    end in
  Conv.mk_Conversion (map entry (Dom.attributes d))
    (map entry (Dom.class_vars d)) (map entry (Dom.metas d)).

#[global] Instance ops : DomainOps := {|
  domain_eq := domain_eqb;
  domain_index := index;
  domain_getitem := getitem;
  to_val := convert;
  get_conversion := conversion
|}.

(** A runtime that refuses floats as indices, computes on the exact values
    and shuffles by reversing. *)
#[global] Instance runtime : Runtime := {|
  float_as_index := fun _ => Raise TypeError;
  fmul_int := fun x n =>
    match x with
    | Fin q => Fin (q * inject_Z n)
    | _ => x
    end;
  truediv := fun a b => Fin (inject_Z a / inject_Z b);
  py_str := fun _ => EmptyString;
  unsafe_inplace_cast := true;
  shuffle_order := fun n => rev (seq 0 n);
  shuffle_order_perm := fun n => Permutation_sym (Permutation_rev (seq 0 n))
|}.

(** Cells and arrays in short. *)
Definition num (z : Z) : cell := CNum (of_Z z).
Definition matrix (k : nat) (rs : list (list cell)) : ndarray :=
  mk_ndarray true Dim2 k rs.

End Reference.

(** ** Notions used to state the properties *)

(** The rows an array has after [resize] to [n] rows of the same width. *)
Definition resized_rows (k n : nat) (rs : list (list cell)) : list (list cell) :=
  firstn n rs ++ repeat (repeat zero k) (n - length rs).

(** An array after a successful [resize] to [n] rows, and a table after
    all four of its arrays were resized. *)
Definition resized (n : nat) (a : ndarray) : ndarray :=
  mk_ndarray true (ndim a) (width a) (resized_rows (width a) n (rows a)).

Definition resize_table (n : nat) (t : Table) : Table :=
  mk_Table (domain t) (resized n (_X t)) (resized n (_Y t))
    (resized n (_metas t)) (resized n (_W t)).

(** Every array of the table owns its buffer. *)
Definition all_own (t : Table) : bool :=
  owndata (_X t) && owndata (_Y t) && owndata (_metas t) && owndata (_W t).

(** Two arrays of the same ownership and shape whose rows look the same
    through [view]; [view] picks the rows a statement must not change. *)
Definition agree {V : Type} (view : list (list cell) -> V) (a a' : ndarray)
  : Prop :=
  owndata a' = owndata a /\ ndim a' = ndim a /\ width a' = width a /\
  length (rows a') = length (rows a) /\
  view (rows a') = view (rows a) /\
  (wf_array a -> wf_array a').

Definition agree_tables {V : Type} (view : list (list cell) -> V)
  (t t' : Table) : Prop :=
  domain t' = domain t /\
  agree view (_X t) (_X t') /\ agree view (_Y t) (_Y t') /\
  agree view (_metas t) (_metas t') /\ agree view (_W t) (_W t').

(** Whatever its outcome, the statement [m] changes no row that [view]
    shows. *)
Definition preserves {V A : Type} (view : list (list cell) -> V) (m : M A)
  : Prop :=
  forall t r t', m t = (r, t') -> agree_tables view t t'.

(** Writing the row at [key] is not seen through [view]. *)
Definition untouched {V : Type} (view : list (list cell) -> V) (key : Z)
  : Prop :=
  forall (rs : list (list cell)) (i : nat) (r : list cell),
    norm_index (length rs) key = Ok i -> view (update rs i r) = view rs.

(** The rows before [n], and the rows other than [k]. *)
Definition head_view (n : nat) (rs : list (list cell)) : list (list cell) :=
  firstn n rs.

Definition but_view (k : nat) (rs : list (list cell))
  : list (list cell) * list (list cell) :=
  (firstn k rs, skipn (S k) rs).

(** An array after [a[k + 1:] = a[k:-1]] and after [a[k:-1] = a[k + 1:]]. *)
Definition moved_down (k : nat) (a : ndarray) : ndarray :=
  with_rows a (firstn (S k) (rows a) ++
               firstn (length (rows a) - 1 - k) (skipn k (rows a))).

Definition moved_up (k : nat) (a : ndarray) : ndarray :=
  with_rows a (firstn k (rows a) ++ skipn (S k) (rows a) ++
               skipn (length (rows a) - 1) (rows a)).

(** The same change made to each of the four arrays. *)
Definition map_arrays (f : ndarray -> ndarray) (t : Table) : Table :=
  mk_Table (domain t) (f (_X t)) (f (_Y t)) (f (_metas t)) (f (_W t)).

(** Every array of the table is well formed and has more than [k] rows. *)
Definition rows_beyond (k : nat) (t : Table) : Prop :=
  (wf_array (_X t) /\ (k < length (rows (_X t)))%nat) /\
  (wf_array (_Y t) /\ (k < length (rows (_Y t)))%nat) /\
  (wf_array (_metas t) /\ (k < length (rows (_metas t)))%nat) /\
  (wf_array (_W t) /\ (k < length (rows (_W t)))%nat).

(** ** Sample data *)

Module Sample.

Import Reference.
Local Open Scope string_scope.

(** Two features (one numeric, one discrete), a discrete class and a text
    meta attribute. *)
Definition schema : Domain :=
  mk_Domain
    [ContinuousVariable "f1"; DiscreteVariable "f2" ["a"; "b"]]
    [DiscreteVariable "c" ["no"; "yes"]]
    [StringVariable "name"]
    false.

(** Two rows under [schema], without weights. *)
Definition two_rows : Table :=
  mk_Table schema
    (matrix 2 [[num 1; num 0]; [num 2; num 1]])
    (matrix 1 [[num 0]; [num 1]])
    (matrix 1 [[CStr "x"]; [CStr "y"]])
    (matrix 0 [[]; []]).

(** A row that converts, and a row whose second value is not a value of
    the discrete feature. *)
Definition good_row : pyobject := OSeq [num 3; CStr "a"; CStr "yes"].

(** Three numeric features and a numeric target, and the same variables
    with the features in reverse order. *)
Definition abc : Domain :=
  mk_Domain
    [ContinuousVariable "a"; ContinuousVariable "b"; ContinuousVariable "c"]
    [ContinuousVariable "y"] [] false.

Definition cba : Domain :=
  mk_Domain
    [ContinuousVariable "c"; ContinuousVariable "b"; ContinuousVariable "a"]
    [ContinuousVariable "y"] [] false.

Definition abc_rows : Table :=
  mk_Table abc
    (matrix 3 [[num 1; num 2; num 3]; [num 4; num 5; num 6]])
    (matrix 1 [[num 7]; [num 8]])
    (matrix 0 [[]; []])
    (matrix 0 [[]; []]).

(** A table whose feature array has no columns and is a view, as
    [new_from_numpy] builds it from [np.empty((2, 0))[:]] and arrays of its
    own for the rest. *)
Definition no_features : Domain :=
  mk_Domain [] [ContinuousVariable "y"] [] false.

Definition empty_view : ndarray := mk_ndarray false Dim2 0 [[]; []].

Definition featureless : Table :=
  mk_Table no_features empty_view
    (matrix 1 [[num 7]; [num 8]])
    (empty_object 2 0)
    (zeros 2 0).

(** The table of the scenario: one numeric feature with a missing value in
    the last row, one discrete target. *)
Definition scenario_schema : Domain :=
  mk_Domain [ContinuousVariable "f"] [DiscreteVariable "c" ["0"; "1"]] []
    false.

Definition scenario : Table :=
  mk_Table scenario_schema
    (matrix 1 [[num 1]; [num 2]; [num 3]; [CNum NaN]])
    (matrix 1 [[num 0]; [num 1]; [num 0]; [num 1]])
    (matrix 0 [[]; []; []; []])
    (matrix 0 [[]; []; []; []]).

(** [f > 1.5] *)
Definition f_above_1_5 : Filter.filter_t :=
  Filter.Single
    (Filter.FilterContinuous (KName "f") Filter.Greater (CNum (Fin (3 # 2)))
       CNone).

End Sample.

(** ** The predicates of the specification *)

(** A container that is empty or aliases storage of another array. *)
Definition aliases_unless_empty (a : ndarray) : bool :=
  zero_width a || negb (owndata a).

(** "Every non-empty container aliases foreign storage." *)
Definition all_nonempty_alias (t : Table) : bool :=
  aliases_unless_empty (_X t) && aliases_unless_empty (_Y t) &&
  aliases_unless_empty (_metas t) && aliases_unless_empty (_W t).

(** The array and the table a boolean mask selects. *)
Definition selected_array (m : list bool) (a : ndarray) : ndarray :=
  mk_ndarray true (ndim a) (width a) (select m (rows a)).

Definition selected (m : list bool) (t : Table) : Table :=
  map_arrays (selected_array m) t.

(** The mask has one bit for each row of each array. *)
Definition fits (m : list bool) (t : Table) : Prop :=
  length (rows (_X t)) = length m /\ length (rows (_Y t)) = length m /\
  length (rows (_metas t)) = length m /\ length (rows (_W t)) = length m.



(** A number, and a cell, that is a whole number between 0 and 19. *)
Definition small_whole_float (x : pyfloat) : Prop :=
  exists (q : Q) (z : Z), x = Fin q /\ (q == inject_Z z)%Q /\ 0 <= z <= 19.

Definition small_whole (c : cell) : Prop :=
  exists x, c = CNum x /\ small_whole_float x.

Definition is_discrete (v : variable) : Prop :=
  match v with
  | DiscreteVariable _ _ => True
  | _ => False
  end.

Module Bare.

(** Sample arrays for [create_anonymous_domain]: two feature columns, and
    targets whose first column holds class codes and whose second column
    holds a half. *)
Definition X : ndarray :=
  Reference.matrix 2 [[Reference.num 5; Reference.num 6];
                      [Reference.num 7; Reference.num 8]].

Definition Y : ndarray :=
  Reference.matrix 2 [[Reference.num 0; Reference.num 1];
                      [Reference.num 12; CNum (Fin (1 # 2))]].

End Bare.

(** A column [create_anonymous_domain] can process: at least one value, all
    of them numbers. *)
Definition numeric_column (class_ : list cell) : Prop :=
  class_ <> [] /\ Forall (fun c => is_Real c = true) class_.

(** Arrays [create_anonymous_domain] accepts: two-dimensional [X] and
    [metas], and numeric, non-empty target columns. *)
Definition inferable (X : ndarray) (Y metas : option ndarray) : Prop :=
  ndim X = Dim2 /\
  (forall targets, Y = Some targets ->
     Forall numeric_column (transposed targets)) /\
  (forall m, metas = Some m -> ndim m = Dim2).

(** The values that drag a minimum below every number, or a maximum above:
    NaN and the infinity of that side. *)
Definition low_bad (x : pyfloat) : bool :=
  match x with NaN | Inf true => true | _ => false end.

Definition high_bad (x : pyfloat) : bool :=
  match x with NaN | Inf false => true | _ => false end.

Definition finite (x : pyfloat) : bool :=
  match x with Fin _ => true | _ => false end.

(** ** Further methods of the table *)

(** *** Copies and weights *)

(** [a.copy()] *)
Definition np_copy (a : ndarray) : ndarray :=
  mk_ndarray true (ndim a) (width a) (rows a).

Definition ensure_copy : M unit :=
  self <~ get ;;
  when (negb (base_is_None (_X self))) (modify (set_X (np_copy (_X self)))) ;;;
  self <~ get ;;
  when (negb (base_is_None (_Y self))) (modify (set_Y (np_copy (_Y self)))) ;;;
  self <~ get ;;
  when (negb (base_is_None (_metas self)))
    (modify (set_metas (np_copy (_metas self)))) ;;;
  self <~ get ;;
  when (negb (base_is_None (_W self))) (modify (set_W (np_copy (_W self)))).

(** [self._W.shape[-1] != 0] *)
Definition has_weights (self : Table) : bool := negb (zero_width (_W self)).

(** [set_weights(weight)] for a number [weight]: the weights are
    overwritten in place where there are any, and a new vector is made
    otherwise. *)
Definition set_weights (weight : pyfloat) : M unit :=
  self <~ get ;;
  if negb (zero_width (_W self)) then
    on_W (fun a => Ok (fill_slice a None None (CNum weight)))
  else
    modify (set_W (vector true (repeat (CNum weight) (len self)))).

(** *** Missing values *)

(** [bn.anynan(a)] *)
Definition anynan (a : ndarray) : bool :=
  existsb (existsb is_nan_cell) (rows a).

Definition has_missing (self : Table) : bool :=
  anynan (_X self) || anynan (_Y self).

Definition has_missing_class (self : Table) : bool := anynan (_Y self).

(** *** Single cells *)

(** Modelled from the spec: [Value(var, x)] of Orange.data.instance, a
    value together with its variable. *)
Record Value : Type := mk_Value {
  value_variable : variable;
  value_cell : cell
}.

(** [a[r, c]] for integers [r] and [c]. *)
Definition item2 (a : ndarray) (r c : Z) : result cell :=
  match ndim a with
  | Dim1 => Raise IndexError
  | Dim2 => row <- item (rows a) r ;; item row c
  end.

(** [l[i] = x] for a sequence [l], and [a[r][c] = x] for the row view
    [a[r]] of an array. *)
Definition set_item {A : Type} (l : list A) (i : Z) (x : A) : result (list A) :=
  k <- norm_index (length l) i ;;
  Ok (update l k x).

Definition set_cell (a : ndarray) (r c : Z) (x : cell) : result ndarray :=
  i <- norm_index (length (rows a)) r ;;
  row <- item (rows a) r ;;
  row' <- set_item row c x ;;
  Ok (with_rows a (update (rows a) i row')).

(** [bool(x)] for a cell and [bool(a)] for an array: an array with one
    element has the truth value of the element, an empty array is false,
    and a larger array has no truth value.  (Releases of numpy that reject
    the empty array raise ValueError for it.) *)
Definition cell_truth (x : cell) : bool :=
  match x with
  | CNum f => negb (feq f (of_Z 0))
  | CStr s => negb (String.eqb s EmptyString)
  | CNone => false
  end.

Definition array_truth (a : ndarray) : result bool :=
  match flat a with
  | [] => Ok false
  | [x] => Ok (cell_truth x)
  | _ => Raise ValueError
  end.

Module Row.

(** A [RowInstance] as an object: [_x], [_y] and [_metas] are views of the
    row [row_index] of the arrays of its table, so they are read and
    written there; [_values] is the instance's own copy of the features and
    targets. *)
Record handle : Type := mk_handle {
  row_index : Z;
  _values : list cell
}.

End Row.

Section Cells.

Context {dom : DomainOps} {rt : Runtime}.

(** The [try] block of [__getitem__] for a key [(row_idx, col_idx)] with
    an integer row: the value of one cell.  A TypeError sends
    [__getitem__] on to build a table instead. *)
Definition getitem_cell (self : Table) (row_idx : Z) (col_idx : colkey)
  : result Value :=
  col_idx <- domain_index (domain self) col_idx ;;
  var <- domain_getitem (domain self) (KInt col_idx) ;;
  let n_attrs := Z.of_nat (length (Dom.attributes (domain self))) in
  if (0 <=? col_idx) && (col_idx <? n_attrs) then
    x <- item2 (_X self) row_idx col_idx ;;
    Ok (mk_Value var x)
  else if n_attrs <=? col_idx then
    x <- item2 (_Y self) row_idx (col_idx - n_attrs) ;;
    Ok (mk_Value var x)
  else
    x <- item2 (_metas self) row_idx (-1 - col_idx) ;;
    Ok (mk_Value var x).

(** [self[key]] for an integer [key], as the object that refers to the
    table. *)
Definition getitem_row (self : Table) (key : Z) : result Row.handle :=
  inst <- RowInstance self key ;;
  Ok (Row.mk_handle key (Inst._values inst)).

(** [RowInstance.__setitem__]; the table in the state is the table the
    instance was made from. *)
Definition RowInstance_setitem (self : Row.handle) (key : colkey)
  (value : cell) : M Row.handle :=
  table <~ get ;;
  key <~ lift (match key with
               | KInt i => Ok i
               | _ => domain_index (domain table) key
               end) ;;
  value <~ lift (match value with
                 | CStr _ =>
                     var <- domain_getitem (domain table) (KInt key) ;;
                     to_val var value
                 | _ => Ok value
                 end) ;;
  if 0 <=? key then
    if negb (is_Real value) then raise TypeError
    else
      _x <~ lift (item (rows (_X table)) (Row.row_index self)) ;;
      let len_x := Z.of_nat (length _x) in
      values <~ lift (set_item (Row._values self) key value) ;;
      (if key <? len_x then
         on_X (fun a => set_cell a (Row.row_index self) key value)
       else
         on_Y (fun a => set_cell a (Row.row_index self) (key - len_x) value)) ;;;
      ret (Row.mk_handle (Row.row_index self) values)
  else
    on_metas (fun a => set_cell a (Row.row_index self) (-1 - key) value) ;;;
    ret self.


(** [RowInstance.get_weight]: the row of [_W], one cell when [_W] is a
    vector. *)
Definition RowInstance_get_weight (self : Row.handle) (table : Table)
  : result (list cell) :=
  weighted <- array_truth (_W table) ;;
  if negb weighted then Raise ValueError
  else item (rows (_W table)) (Row.row_index self).

(** *** More filters *)

Definition filter_same_value (self : Table) (position : colkey)
  (value : cell) (negate : bool) : result Table :=
  value <- coerce self position value ;;
  col <- get_column_view self position ;;
  let sel := map (fun c => cell_eq c value) col in
  let sel := if negate then map negb sel else sel in
  new_from_table_rows self (RMask sel).

End Cells.

(** *** A random row *)

(** [random.randint(a, b)], which returns an integer between [a] and [b],
    both included. *)
Class Random : Type := {
  randint : Z -> Z -> Z;
  randint_range : forall a b, a <= b -> a <= randint a b <= b
}.

Definition random_example {rnd : Random} (self : Table)
  : result Inst.Instance :=
  let n_examples := len self in
  if Nat.eqb n_examples 0 then Raise IndexError
  else RowInstance self (randint 0 (Z.of_nat n_examples - 1)).

(** *** [Table(...)] with positional arguments *)

Inductive new_arg : Type :=
| AStr (s : string)
| ADomain (d : Domain)
| AArray (a : ndarray).

Definition is_array (a : new_arg) : bool :=
  match a with AArray _ => true | _ => false end.

(** The arrays of a list of arguments that are all arrays. *)
Fixpoint arrays_of (args : list new_arg) : list ndarray :=
  match args with
  | AArray a :: rest => a :: arrays_of rest
  | _ :: rest => arrays_of rest
  | [] => []
  end.

(** [new_from_numpy] called with [domain] and the arrays: one to four arrays fill [X], [Y],
    [metas] and [W] in this order; a call with none or with more is
    refused. *)
Definition new_from_numpy_args (domain : Domain) (arrays : list ndarray)
  : result Table :=
  match arrays with
  | [X] => new_from_numpy domain X None None None
  | [X; Y] => new_from_numpy domain X (Some Y) None None
  | [X; Y; metas] => new_from_numpy domain X (Some Y) (Some metas) None
  | [X; Y; metas; W] => new_from_numpy domain X (Some Y) (Some metas) (Some W)
  | _ => Raise TypeError
  end.

(** [create_anonymous_domain] called with the first three arrays. *)
Definition create_anonymous_domain_args (arrays : list ndarray)
  : result Domain :=
  match firstn 3 arrays with
  | [X] => create_anonymous_domain X None None
  | [X; Y] => create_anonymous_domain X (Some Y) None
  | [X; Y; metas] => create_anonymous_domain X (Some Y) (Some metas)
  | _ => Raise TypeError
  end.

Section New.

(** [read_data] reads a file and is taken as given. *)
Variable read_data : string -> result Table.

(** [Table.__new__] for a call with at least one positional argument and
    no keyword arguments. *)
Definition Table_new (first : new_arg) (rest : list new_arg) : result Table :=
  let args := first :: rest in
  let body : result (option Table) :=
    match first with
    | AStr s => t <- read_data s ;; Ok (Some t)
    | _ =>
        match first, rest with
        | ADomain d, [] => Ok (Some (new_from_domain d 0 false))
        | _, _ =>
            if forallb is_array args then
              domain <- create_anonymous_domain_args (arrays_of args) ;;
              t <- new_from_numpy_args domain (arrays_of args) ;;
              Ok (Some t)
            else
              match first with
              | ADomain d =>
                  if forallb is_array rest then
                    t <- new_from_numpy_args d (arrays_of rest) ;;
                    Ok (Some t)
                  else Ok None
              | _ => Ok None
              end
        end
    end in
  match body with
  | Ok (Some t) => Ok t
  | Ok None => Raise ValueError
  | Raise IndexError => Raise ValueError
  | Raise e => Raise e
  end.

End New.

(** ** Notions used to state the further properties *)

(** The rows of a table, each with its features, targets, meta values and
    weight. *)
Definition records (t : Table)
  : list (list cell * (list cell * (list cell * list cell))) :=
  combine (rows (_X t))
    (combine (rows (_Y t)) (combine (rows (_metas t)) (rows (_W t)))).

(** The number of columns of each array is the number of variables of its
    group in the domain. *)
Definition domain_fits (t : Table) : Prop :=
  width (_X t) = length (Dom.attributes (domain t)) /\
  width (_Y t) = length (Dom.class_vars (domain t)) /\
  width (_metas t) = length (Dom.metas (domain t)).

(** The table without the row at position [k]. *)
Definition without_row (k : nat) (a : ndarray) : ndarray :=
  mk_ndarray true (ndim a) (width a) (firstn k (rows a) ++ skipn (S k) (rows a)).

(** The cell of the source table that the column address [col] of a
    conversion names in row [r]: a feature, a target past the features, or
    a meta attribute for a negative address. *)
Definition source_row (self : Table) (cols : list Z) (r : nat) : list cell :=
  let n := Z.of_nat (length (Dom.attributes (domain self))) in
  map (fun col =>
         if col <? 0 then
           nth (Z.to_nat (-1 - col)) (nth r (rows (_metas self)) []) zero
         else if col <? n then
           nth (Z.to_nat col) (nth r (rows (_X self)) []) zero
         else
           nth (Z.to_nat (col - n)) (nth r (rows (_Y self)) []) zero)
      cols.


(** * Properties *)


(** ** Lists and buffers *)

Section Buffers.

Local Open Scope nat_scope.

Lemma Forall_firstn' {A : Type} (P : A -> Prop) (n : nat) (l : list A) :
  Forall P l -> Forall P (firstn n l).
Proof.
  intros H. revert n. induction H; intros [|n]; simpl; auto.
Qed.

Lemma Forall_skipn' {A : Type} (P : A -> Prop) (n : nat) (l : list A) :
  Forall P l -> Forall P (skipn n l).
Proof.
  intros H. revert n. induction H; intros [|n]; simpl; auto.
Qed.

Lemma length_concat_uniform (k : nat) (rs : list (list cell)) :
  Forall (fun r => length r = k) rs -> length (concat rs) = length rs * k.
Proof.
  induction 1 as [|r rs Hr _ IH]; simpl; [reflexivity|].
  rewrite length_app, IH, Hr. reflexivity.
Qed.

Lemma chunks_app (k n : nat) (rs : list (list cell)) (buf : list cell) :
  Forall (fun r => length r = k) rs ->
  chunks (length rs + n) k (concat rs ++ buf) = rs ++ chunks n k buf.
Proof.
  induction 1 as [|r rs Hr _ IH]; simpl; [reflexivity|].
  rewrite <- app_assoc.
  rewrite firstn_app, skipn_app, Hr, Nat.sub_diag.
  rewrite firstn_all2 by lia.
  rewrite skipn_all2 by lia.
  simpl. rewrite app_nil_r, IH. reflexivity.
Qed.

Lemma chunks_zero (n k : nat) :
  chunks n k (repeat zero (n * k)) = repeat (repeat zero k) n.
Proof.
  induction n as [|n IH]; simpl; [reflexivity|].
  rewrite repeat_app, firstn_app, skipn_app, repeat_length, Nat.sub_diag.
  rewrite firstn_all2 by (rewrite repeat_length; lia).
  rewrite skipn_all2 by (rewrite repeat_length; lia).
  simpl. rewrite app_nil_r, IH. reflexivity.
Qed.

Lemma firstn_concat_uniform (k n : nat) (rs : list (list cell)) :
  Forall (fun r => length r = k) rs ->
  firstn (n * k) (concat rs) = concat (firstn n rs).
Proof.
  intros H. revert n.
  induction H as [|r rs Hr _ IH]; intros [|n]; simpl; try reflexivity.
  - now rewrite firstn_nil.
  - rewrite firstn_app, Hr.
    rewrite firstn_all2 by lia.
    replace (k + n * k - k) with (n * k) by lia.
    now rewrite IH.
Qed.

Lemma resize_buffer_rows (d : ndim_t) (a : ndarray) (n : nat) :
  owndata a = true ->
  Forall (fun r => length r = width a) (rows a) ->
  resize_buffer d a n (width a) =
  Ok (mk_ndarray true d (width a) (resized_rows (width a) n (rows a))).
Proof.
  intros Hown Hwf. unfold resize_buffer, flat, resized_rows. rewrite Hown.
  f_equal. f_equal.
  rewrite (length_concat_uniform (width a)) by assumption.
  destruct (Nat.le_gt_cases n (length (rows a))) as [Hle|Hgt].
  - rewrite (firstn_concat_uniform (width a)) by assumption.
    replace (n * width a - length (rows a) * width a) with 0 by nia.
    replace (n - length (rows a)) with 0 by lia.
    simpl. rewrite !app_nil_r.
    assert (Hn : n = length (firstn n (rows a)) + 0)
      by (rewrite length_firstn; lia).
    rewrite Hn at 1.
    rewrite <- (app_nil_r (concat _)), chunks_app.
    + simpl. now rewrite app_nil_r.
    + now apply Forall_firstn'.
  - rewrite !firstn_all2
      by (try rewrite (length_concat_uniform (width a)) by assumption; nia).
    replace (n * width a - length (rows a) * width a)
      with ((n - length (rows a)) * width a) by nia.
    replace n with (length (rows a) + (n - length (rows a))) at 1 by lia.
    rewrite chunks_app by assumption.
    now rewrite chunks_zero.
Qed.

Lemma resize_buffer_view (d : ndim_t) (a : ndarray) (n k : nat) :
  owndata a = false -> resize_buffer d a n k = Raise ValueError.
Proof. intros H. unfold resize_buffer. now rewrite H. Qed.

Lemma resized_rows_length (k n : nat) (rs : list (list cell)) :
  length (resized_rows k n rs) = n.
Proof.
  unfold resized_rows. rewrite length_app, length_firstn, repeat_length. lia.
Qed.

Lemma resized_rows_wf (k n : nat) (rs : list (list cell)) :
  Forall (fun r => length r = k) rs ->
  Forall (fun r => length r = k) (resized_rows k n rs).
Proof.
  intros H. unfold resized_rows. apply Forall_app. split.
  - now apply Forall_firstn'.
  - apply Forall_forall. intros r Hr. apply repeat_spec in Hr. subst.
    apply repeat_length.
Qed.

(** Rows that are kept up to [n] come back when the array is cut to [n]. *)
Lemma resized_rows_prefix (k n : nat) (rs rs' : list (list cell)) :
  length rs = n -> firstn n rs' = rs -> resized_rows k n rs' = rs.
Proof.
  intros Hlen Hpre. unfold resized_rows. rewrite Hpre.
  assert (Hle : n <= length rs').
  { pose proof (f_equal (@length _) Hpre) as E.
    rewrite length_firstn in E. lia. }
  replace (n - length rs') with 0 by lia. simpl. apply app_nil_r.
Qed.

Lemma firstn_resized_rows (k n m : nat) (rs : list (list cell)) :
  length rs = n -> n <= m -> firstn n (resized_rows k m rs) = rs.
Proof.
  intros Hlen Hle. unfold resized_rows.
  rewrite (@firstn_all2 _ m rs) by lia.
  rewrite firstn_app, (@firstn_all2 _ n rs) by lia.
  replace (n - length rs) with 0 by lia. simpl. apply app_nil_r.
Qed.

End Buffers.

(** ** The state-passing combinators *)

Section Combinators.

Lemma on_X_run (f : ndarray -> result ndarray) (t : Table) :
  on_X f t = match f (_X t) with
             | Ok a => (Ok tt, set_X a t)
             | Raise e => (Raise e, t)
             end.
Proof. unfold on_X, bindM, get, lift, modify. now destruct (f (_X t)). Qed.

Lemma on_Y_run (f : ndarray -> result ndarray) (t : Table) :
  on_Y f t = match f (_Y t) with
             | Ok a => (Ok tt, set_Y a t)
             | Raise e => (Raise e, t)
             end.
Proof. unfold on_Y, bindM, get, lift, modify. now destruct (f (_Y t)). Qed.

Lemma on_metas_run (f : ndarray -> result ndarray) (t : Table) :
  on_metas f t = match f (_metas t) with
                 | Ok a => (Ok tt, set_metas a t)
                 | Raise e => (Raise e, t)
                 end.
Proof.
  unfold on_metas, bindM, get, lift, modify. now destruct (f (_metas t)).
Qed.

Lemma on_W_run (f : ndarray -> result ndarray) (t : Table) :
  on_W f t = match f (_W t) with
             | Ok a => (Ok tt, set_W a t)
             | Raise e => (Raise e, t)
             end.
Proof. unfold on_W, bindM, get, lift, modify. now destruct (f (_W t)). Qed.

Lemma bindM_ok {A B : Type} (m : M A) (k : A -> M B) (s s' : Table) (a : A) :
  m s = (Ok a, s') -> bindM m k s = k a s'.
Proof. intros H. unfold bindM. now rewrite H. Qed.

Lemma bindM_raise {A B : Type} (m : M A) (k : A -> M B) (s s' : Table) (e : exn) :
  m s = (Raise e, s') -> bindM m k s = (Raise e, s').
Proof. intros H. unfold bindM. now rewrite H. Qed.

Lemma bindM_get {B : Type} (k : Table -> M B) (s : Table) :
  bindM get k s = k s s.
Proof. reflexivity. Qed.

Lemma try_ok {A : Type} (m : M A) (h : exn -> M A) (s s' : Table) (a : A) :
  m s = (Ok a, s') -> try_except m h s = (Ok a, s').
Proof. intros H. unfold try_except. now rewrite H. Qed.

Lemma try_raise {A : Type} (m : M A) (h : exn -> M A) (s s' : Table) (e : exn) :
  m s = (Raise e, s') -> try_except m h s = h e s'.
Proof. intros H. unfold try_except. now rewrite H. Qed.

End Combinators.

(** ** Resizing *)

Section ResizeFacts.

Local Open Scope nat_scope.

Lemma resized_wf (n : nat) (a : ndarray) :
  wf_array a -> wf_array (resized n a).
Proof.
  intros [Hrows Hdim]. split; simpl; [|assumption].
  now apply resized_rows_wf.
Qed.

Lemma resized_shape0 (n : nat) (a : ndarray) : shape0 (resized n a) = n.
Proof. unfold shape0. simpl. apply resized_rows_length. Qed.

Lemma resize_rows_own (n : nat) (a : ndarray) :
  wf_array a -> ndim a = Dim2 -> owndata a = true ->
  resize_rows n a = Ok (resized n a).
Proof.
  intros [Hrows _] Hdim Hown. unfold resize_rows, shape1, resize2.
  rewrite Hdim. simpl.
  rewrite resize_buffer_rows by assumption.
  unfold resized. now rewrite Hdim.
Qed.

Lemma resize_rows_view (n : nat) (a : ndarray) :
  ndim a = Dim2 -> owndata a = false -> resize_rows n a = Raise ValueError.
Proof.
  intros Hdim Hown. unfold resize_rows, shape1, resize2. rewrite Hdim. simpl.
  now apply resize_buffer_view.
Qed.

Lemma resize_weights_own (n : nat) (w : ndarray) :
  wf_array w -> (ndim w = Dim2 -> width w = 0) -> owndata w = true ->
  resize_weights n w = Ok (resized n w).
Proof.
  intros [Hrows H1] H2 Hown. unfold resize_weights, resize1, resize2, resized.
  destruct (ndim w) eqn:Hdim.
  - rewrite <- (H1 eq_refl). now rewrite resize_buffer_rows.
  - rewrite <- (H2 eq_refl). now rewrite resize_buffer_rows.
Qed.

Lemma resize_weights_view (n : nat) (w : ndarray) :
  owndata w = false -> resize_weights n w = Raise ValueError.
Proof.
  intros Hown. unfold resize_weights, resize1, resize2.
  destruct (ndim w); now apply resize_buffer_view.
Qed.

(** Growing an array and cutting it back gives the array again. *)
Lemma resized_back (n m : nat) (a : ndarray) :
  owndata a = true -> shape0 a = n -> n <= m ->
  resized n (resized m a) = a.
Proof.
  intros Hown Hlen Hle. destruct a as [own d k rs].
  unfold resized, shape0 in *. simpl in *. subst own. f_equal.
  apply resized_rows_prefix; [assumption|].
  now apply firstn_resized_rows.
Qed.

Lemma table_eta (t : Table) :
  mk_Table (domain t) (_X t) (_Y t) (_metas t) (_W t) = t.
Proof. now destruct t. Qed.

End ResizeFacts.

Ltac tsimpl :=
  cbn beta iota delta [_X _Y _metas _W domain set_X set_Y set_metas set_W].

Section ResizeAll.

Local Open Scope nat_scope.

Lemma resize_all_same (n : nat) (t : Table) :
  len t = n -> resize_all n t = (Ok tt, t).
Proof.
  intros H. unfold resize_all. rewrite bindM_get.
  unfold len in H. rewrite H, Nat.eqb_refl. reflexivity.
Qed.

Lemma wf_table_own_cases (t : Table) :
  all_own t = true ->
  owndata (_X t) = true /\ owndata (_Y t) = true /\
  owndata (_metas t) = true /\ owndata (_W t) = true.
Proof.
  unfold all_own. rewrite !andb_true_iff. tauto.
Qed.

Lemma resize_all_own (n : nat) (t : Table) :
  wf_table t -> all_own t = true -> len t <> n ->
  resize_all n t = (Ok tt, resize_table n t).
Proof.
  intros (HX & HY & HM & HW & Hrows) Hown Hne.
  apply wf_table_own_cases in Hown. destruct Hown as (OX & OY & OM & OW).
  destruct HX as [DX WX], HY as [DY WY], HM as [DM WM], HW as [WW DW].
  unfold resize_all. rewrite bindM_get.
  unfold len in Hne. apply Nat.eqb_neq in Hne. rewrite Hne.
  apply try_ok.
  unfold resize_X, resize_Y, resize_metas, resize_W, bindM.
  rewrite on_X_run, resize_rows_own by assumption.
  rewrite on_Y_run. simpl. rewrite resize_rows_own by assumption.
  rewrite on_metas_run. simpl. rewrite resize_rows_own by assumption.
  rewrite on_W_run. simpl. rewrite resize_weights_own by assumption.
  reflexivity.
Qed.

(** A failed growth leaves the table as it was: the arrays that were
    already resized are cut back to their old length. *)
Lemma resize_all_grow_fail (n : nat) (t : Table) :
  wf_table t -> all_own t = false -> len t < n ->
  resize_all n t = (Raise ValueError, t).
Proof.
  intros (HX & HY & HM & HW & Hrows) Hown Hlt.
  destruct HX as [DX WX], HY as [DY WY], HM as [DM WM], HW as [WW DW].
  destruct Hrows as (R1 & R2 & R3).
  unfold resize_all. rewrite bindM_get.
  unfold len in Hlt.
  assert (Hne : Nat.eqb (shape0 (_X t)) n = false) by (apply Nat.eqb_neq; lia).
  rewrite Hne.
  assert (NY : Nat.eqb (shape0 (_Y t)) n = false) by (apply Nat.eqb_neq; lia).
  assert (NM : Nat.eqb (shape0 (_metas t)) n = false)
    by (apply Nat.eqb_neq; lia).
  assert (NW : Nat.eqb (shape0 (_W t)) n = false) by (apply Nat.eqb_neq; lia).
  assert (Back : forall a, wf_array a -> ndim a = Dim2 -> owndata a = true ->
            shape0 a = shape0 (_X t) ->
            resize_rows (shape0 (_X t)) (resized n a) = Ok a).
  { intros a Wa Da Oa La.
    rewrite resize_rows_own; auto using resized_wf.
    f_equal. apply resized_back; auto; lia. }
  unfold all_own in Hown.
  unfold try_except, resize_X, resize_Y, resize_metas, resize_W, bindM, when.
  rewrite on_X_run.
  destruct (owndata (_X t)) eqn:OX.
  2:{ rewrite resize_rows_view by assumption.
      unfold get. rewrite Hne. unfold ret. rewrite NY. cbv beta.
      rewrite NM. cbv beta. rewrite NW. reflexivity. }
  rewrite resize_rows_own by assumption.
  rewrite on_Y_run. simpl.
  destruct (owndata (_Y t)) eqn:OY.
  2:{ rewrite resize_rows_view by assumption.
      unfold get. simpl. rewrite resized_shape0, Nat.eqb_refl.
      rewrite on_X_run. simpl. rewrite Back by auto.
      simpl. unfold ret. rewrite NY. tsimpl. rewrite NM. tsimpl.
      rewrite NW. simpl.
      unfold raise, set_X. simpl. now rewrite table_eta. }
  rewrite resize_rows_own by assumption.
  rewrite on_metas_run. simpl.
  destruct (owndata (_metas t)) eqn:OM.
  2:{ rewrite resize_rows_view by assumption.
      unfold get. simpl. rewrite resized_shape0, Nat.eqb_refl.
      rewrite on_X_run. simpl. rewrite Back by auto.
      simpl. rewrite resized_shape0, Nat.eqb_refl.
      rewrite on_Y_run. simpl. rewrite Back by (auto; lia).
      simpl. unfold ret. rewrite NM. tsimpl. rewrite NW. simpl.
      unfold raise, set_X, set_Y. simpl. now rewrite table_eta. }
  rewrite resize_rows_own by assumption.
  rewrite on_W_run. simpl.
  destruct (owndata (_W t)) eqn:OW; [discriminate|].
  rewrite resize_weights_view by assumption.
  unfold get. simpl. rewrite resized_shape0, Nat.eqb_refl.
  rewrite on_X_run. simpl. rewrite Back by auto.
  simpl. rewrite resized_shape0, Nat.eqb_refl.
  rewrite on_Y_run. simpl. rewrite Back by (auto; lia).
  simpl. rewrite resized_shape0, Nat.eqb_refl.
  rewrite on_metas_run. simpl. rewrite Back by (auto; lia).
  simpl. unfold ret. rewrite NW. simpl.
  unfold raise, set_X, set_Y, set_metas. simpl. now rewrite table_eta.
Qed.

End ResizeAll.

(** ** Indexing and slices *)

Section Slices.

Lemma norm_index_nat (n k : nat) :
  (k < n)%nat -> norm_index n (Z.of_nat k) = Ok k.
Proof.
  intros H. unfold norm_index.
  destruct (Z.ltb_spec (Z.of_nat k) (- Z.of_nat n)); [lia|].
  destruct (Z.leb_spec (Z.of_nat n) (Z.of_nat k)); [lia|]. simpl.
  destruct (Z.ltb_spec (Z.of_nat k) 0); [lia|].
  now rewrite Nat2Z.id.
Qed.

Lemma norm_index_bound (n : nat) (i : Z) (k : nat) :
  norm_index n i = Ok k -> (k < n)%nat.
Proof.
  unfold norm_index.
  destruct (Z.ltb_spec i (- Z.of_nat n)); simpl; [discriminate|].
  destruct (Z.leb_spec (Z.of_nat n) i); simpl; [discriminate|].
  intros E. injection E as <-.
  destruct (Z.ltb_spec i 0); lia.
Qed.

Lemma skipn_cons_nth {A : Type} (l : list A) (k : nat) :
  (k < length l)%nat ->
  exists x, nth_error l k = Some x /\ skipn k l = x :: skipn (S k) l.
Proof.
  revert k. induction l as [|a l IH]; intros [|k] H; simpl in *; try lia.
  - now exists a.
  - apply IH. lia.
Qed.

Lemma item_nat {A : Type} (l : list A) (k : nat) (x : A) :
  nth_error l k = Some x -> item l (Z.of_nat k) = Ok x.
Proof.
  intros H. unfold item.
  rewrite norm_index_nat by (apply nth_error_Some; congruence).
  simpl. now rewrite H.
Qed.

Lemma mapM_item_seq {A : Type} (l : list A) (b : Z) (lo c s : nat) :
  b = Z.of_nat lo -> (lo + s + c <= length l)%nat ->
  mapM (item l) (map (fun i => b + Z.of_nat i * 1) (seq s c)) =
  Ok (firstn c (skipn (lo + s) l)).
Proof.
  intros ->. revert s. induction c as [|c IH]; intros s H; simpl.
  - reflexivity.
  - destruct (skipn_cons_nth l (lo + s)) as (x & Hx & Hs); [lia|].
    replace (Z.of_nat lo + Z.of_nat s * 1) with (Z.of_nat (lo + s)) by lia.
    rewrite (item_nat _ _ _ Hx). simpl.
    rewrite IH by lia. simpl. rewrite Hs.
    replace (lo + S s)%nat with (S (lo + s)) by lia. reflexivity.
Qed.

(** The bounds of a slice with the default step lie in the sequence. *)
Lemma slice_indices_unit (b e : option Z) (n : nat) :
  exists lo hi : Z,
    slice_indices (mk_slice b e None) n = Ok (lo, hi, 1) /\
    0 <= lo <= Z.of_nat n /\ 0 <= hi <= Z.of_nat n.
Proof.
  unfold slice_indices. simpl.
  eexists. eexists. split; [reflexivity|].
  destruct b as [b|], e as [e|]; simpl;
    repeat match goal with
           | |- context [?x <? ?y] => destruct (Z.ltb_spec x y)
           end; lia.
Qed.

Lemma slice_bounds_le (b e : option Z) (n lo hi : nat) :
  slice_bounds b e n = (lo, hi) -> (lo <= hi <= n)%nat.
Proof.
  unfold slice_bounds.
  destruct (slice_indices_unit b e n) as (l & h & E & Hl & Hh).
  rewrite E. intros H. injection H as <- <-. lia.
Qed.

Lemma pick_unit_slice {A : Type} (b e : option Z) (l : list A) :
  pick (RSlice (mk_slice b e None)) l =
  Ok (let '(lo, hi) := slice_bounds b e (length l) in
      firstn (hi - lo) (skipn lo l)).
Proof.
  unfold pick, slice_positions, slice_bounds.
  destruct (slice_indices_unit b e (length l)) as (lo & hi & E & Hl & Hh).
  rewrite E. simpl. unfold range. simpl.
  replace (Z.to_nat (if lo <? hi then (hi - lo - 1) / 1 + 1 else 0))
    with (Z.to_nat (Z.max lo hi) - Z.to_nat lo)%nat.
  2:{ destruct (Z.ltb_spec lo hi); [rewrite Z.div_1_r|]; lia. }
  rewrite (mapM_item_seq l lo (Z.to_nat lo)) by lia.
  now rewrite Nat.add_0_r.
Qed.

Lemma slice_bounds_from (k : Z) (n : nat) :
  0 <= k ->
  slice_bounds (Some k) None n = (Nat.min (Z.to_nat k) n, n).
Proof.
  intros H. unfold slice_bounds, slice_indices. simpl.
  destruct (Z.ltb_spec k 0); [lia|]. f_equal; lia.
Qed.

Lemma slice_bounds_to_last (k : Z) (n : nat) :
  0 <= k -> (1 <= n)%nat ->
  slice_bounds (Some k) (Some (-1)) n =
  (Nat.min (Z.to_nat k) n, Nat.max (Nat.min (Z.to_nat k) n) (n - 1)).
Proof.
  intros H Hn. unfold slice_bounds, slice_indices.
  cbn [step start stop].
  change (1 =? 0) with false. change (1 <? 0) with false. cbv iota.
  destruct (Z.ltb_spec k 0); [lia|].
  destruct (Z.ltb_spec (-1) 0); [|lia].
  f_equal; lia.
Qed.

End Slices.

(** ** Statements that leave part of the table alone *)

Section Preservation.

Context {V : Type} (view : list (list cell) -> V).

Lemma agree_refl (a : ndarray) : agree view a a.
Proof. unfold agree. tauto. Qed.

Lemma agree_trans (a b c : ndarray) :
  agree view a b -> agree view b c -> agree view a c.
Proof.
  unfold agree.
  intros (O1 & D1 & W1 & L1 & V1 & F1) (O2 & D2 & W2 & L2 & V2 & F2).
  split; [now rewrite O2|]. split; [now rewrite D2|].
  split; [now rewrite W2|]. split; [now rewrite L2|].
  split; [now rewrite V2|]. auto.
Qed.

Lemma agree_tables_refl (t : Table) : agree_tables view t t.
Proof.
  unfold agree_tables. split; [reflexivity|].
  do 3 (split; [apply agree_refl|]). apply agree_refl.
Qed.

Lemma agree_tables_trans (t u v : Table) :
  agree_tables view t u -> agree_tables view u v -> agree_tables view t v.
Proof.
  unfold agree_tables.
  intros (D1 & X1 & Y1 & M1 & W1) (D2 & X2 & Y2 & M2 & W2).
  split; [congruence|].
  split; [eapply agree_trans; eassumption|].
  split; [eapply agree_trans; eassumption|].
  split; eapply agree_trans; eassumption.
Qed.

Lemma preserves_ret {A : Type} (a : A) : preserves view (ret a).
Proof. intros t r t' H. injection H as _ <-. apply agree_tables_refl. Qed.

Lemma preserves_raise {A : Type} (e : exn) : preserves view (@raise A e).
Proof. intros t r t' H. injection H as _ <-. apply agree_tables_refl. Qed.

Lemma preserves_lift {A : Type} (x : result A) : preserves view (lift x).
Proof. intros t r t' H. injection H as _ <-. apply agree_tables_refl. Qed.

Lemma preserves_bind {A B : Type} (m : M A) (k : A -> M B) :
  preserves view m -> (forall a, preserves view (k a)) ->
  preserves view (bindM m k).
Proof.
  intros Hm Hk t r t' H. unfold bindM in H.
  destruct (m t) as [[a|e] s] eqn:E.
  - eapply agree_tables_trans; [eapply Hm; eassumption|].
    eapply Hk; eassumption.
  - injection H as _ <-. eapply Hm; eassumption.
Qed.

Lemma preserves_get {B : Type} (k : Table -> M B) :
  (forall s, preserves view (k s)) -> preserves view (bindM get k).
Proof. intros Hk t r t' H. rewrite bindM_get in H. eapply Hk; eassumption. Qed.

Lemma preserves_when (c : bool) (m : M unit) :
  preserves view m -> preserves view (when c m).
Proof. intros H. destruct c; simpl; [assumption|apply preserves_ret]. Qed.

Ltac agree_fields :=
  unfold agree_tables;
  cbn [domain _X _Y _metas _W set_X set_Y set_metas set_W];
  (split; [reflexivity|]);
  (split; [first [apply agree_refl | eauto]|]);
  (split; [first [apply agree_refl | eauto]|]);
  split; first [apply agree_refl | eauto].

Lemma preserves_on_X (f : ndarray -> result ndarray) :
  (forall a a', f a = Ok a' -> agree view a a') -> preserves view (on_X f).
Proof.
  intros Hf t r t' H. rewrite on_X_run in H.
  destruct (f (_X t)) eqn:E; injection H as _ <-.
  - agree_fields.
  - apply agree_tables_refl.
Qed.

Lemma preserves_on_Y (f : ndarray -> result ndarray) :
  (forall a a', f a = Ok a' -> agree view a a') -> preserves view (on_Y f).
Proof.
  intros Hf t r t' H. rewrite on_Y_run in H.
  destruct (f (_Y t)) eqn:E; injection H as _ <-.
  - agree_fields.
  - apply agree_tables_refl.
Qed.

Lemma preserves_on_metas (f : ndarray -> result ndarray) :
  (forall a a', f a = Ok a' -> agree view a a') -> preserves view (on_metas f).
Proof.
  intros Hf t r t' H. rewrite on_metas_run in H.
  destruct (f (_metas t)) eqn:E; injection H as _ <-.
  - agree_fields.
  - apply agree_tables_refl.
Qed.

Lemma preserves_on_W (f : ndarray -> result ndarray) :
  (forall a a', f a = Ok a' -> agree view a a') -> preserves view (on_W f).
Proof.
  intros Hf t r t' H. rewrite on_W_run in H.
  destruct (f (_W t)) eqn:E; injection H as _ <-.
  - agree_fields.
  - apply agree_tables_refl.
Qed.

(** *** Writing one row *)

Lemma broadcast_row_length (k : nat) (vals r : list cell) :
  broadcast_row k vals = Ok r -> length r = k.
Proof.
  unfold broadcast_row.
  destruct (Nat.eqb_spec (length vals) k).
  - intros E. injection E as <-. assumption.
  - destruct vals as [|x [|y vals]]; try discriminate.
    intros E. injection E as <-. apply repeat_length.
Qed.

Lemma update_length {A : Type} (l : list A) (i : nat) (a : A) :
  (i < length l)%nat -> length (update l i a) = length l.
Proof.
  intros H. unfold update.
  rewrite length_app, length_cons, length_firstn, length_skipn. lia.
Qed.

Lemma update_Forall {A : Type} (P : A -> Prop) (l : list A) (i : nat) (a : A) :
  Forall P l -> P a -> Forall P (update l i a).
Proof.
  intros Hl Ha. unfold update. apply Forall_app. split.
  - now apply Forall_firstn'.
  - constructor; [assumption|]. now apply Forall_skipn'.
Qed.

Lemma with_rows_agree (a : ndarray) (i : nat) (r : list cell) (key : Z) :
  untouched view key ->
  norm_index (length (rows a)) key = Ok i ->
  length r = width a ->
  agree view a (with_rows a (update (rows a) i r)).
Proof.
  intros Hu Hi Hr. unfold agree, wf_array. simpl.
  do 3 (split; [reflexivity|]).
  split; [apply update_length; eapply norm_index_bound; eassumption|].
  split; [now apply Hu|].
  intros [F D]. split; [|assumption]. now apply update_Forall.
Qed.

Lemma set_row_agree (key : Z) (vals : list cell) (a a' : ndarray) :
  untouched view key -> set_row a key vals = Ok a' -> agree view a a'.
Proof.
  intros Hu. unfold set_row.
  destruct (norm_index (length (rows a)) key) as [i|] eqn:Hi; [|discriminate].
  simpl. destruct (broadcast_row (width a) vals) as [r|] eqn:Hr; [|discriminate].
  simpl. intros E. injection E as <-.
  eapply with_rows_agree; eauto using broadcast_row_length.
Qed.

Lemma fill_row_agree (key : Z) (x : cell) (a a' : ndarray) :
  untouched view key -> fill_row a key x = Ok a' -> agree view a a'.
Proof.
  intros Hu. unfold fill_row.
  destruct (norm_index (length (rows a)) key) as [i|] eqn:Hi; [|discriminate].
  simpl. intros E. injection E as <-.
  eapply with_rows_agree; eauto using repeat_length.
Qed.

Lemma fill_row_all_agree (key : Z) (x : cell) (a a' : ndarray) :
  untouched view key -> fill_row_all a key x = Ok a' -> agree view a a'.
Proof.
  intros Hu. unfold fill_row_all. destruct (ndim a); [discriminate|].
  now apply fill_row_agree.
Qed.

End Preservation.

Section PreservationMethods.

Context {dom : DomainOps} {rt : Runtime}.
Context {V : Type} (view : list (list cell) -> V).

Lemma assign_X_preserves (key : Z) (vals : list cell) :
  untouched view key -> preserves view (assign_X key vals).
Proof. intros H. apply preserves_on_X. intros a a'. now apply set_row_agree. Qed.

Lemma assign_Y_preserves (key : Z) (vals : list cell) :
  untouched view key -> preserves view (assign_Y key vals).
Proof. intros H. apply preserves_on_Y. intros a a'. now apply set_row_agree. Qed.

Lemma assign_metas_preserves (key : Z) (vals : list cell) :
  untouched view key -> preserves view (assign_metas key vals).
Proof.
  intros H. apply preserves_on_metas. intros a a'. now apply set_row_agree.
Qed.

Lemma convert_to_row_preserves (example : pyobject) (key : Z) :
  untouched view key -> preserves view (convert_to_row example key).
Proof.
  intros Hu. unfold convert_to_row. apply preserves_get. intros s.
  assert (Hseq : preserves view
    match as_sequence example with
    | Some vals =>
        vx <~ lift (to_vals (Dom.attributes (domain s)) vals) ;;
        assign_X key vx ;;;
        vy <~ lift (to_vals (Dom.class_vars (domain s))
                      (from_ (length (Dom.attributes (domain s))) vals)) ;;
        assign_Y key vy ;;;
        on_metas (fun a => fill_row a key Unknown)
    | None => raise TypeError
    end).
  { destruct (as_sequence example) as [vals|]; [|apply preserves_raise].
    repeat (apply preserves_bind;
            [first [apply preserves_lift
                   |now apply assign_X_preserves
                   |now apply assign_Y_preserves]|intros ?]).
    apply preserves_on_metas. intros ? ?. now apply fill_row_agree. }
  destruct example as [i|vals|v]; try exact Hseq.
  destruct (domain_eq (Inst.domain i) (domain s)).
  - apply preserves_bind.
    + destruct (Inst.is_RowInstance i); apply preserves_bind;
        auto using assign_X_preserves, assign_Y_preserves.
    + intros _. now apply assign_metas_preserves.
  - repeat (apply preserves_bind;
            [first [apply preserves_lift
                   |now apply assign_X_preserves
                   |now apply assign_Y_preserves]|intros ?]).
    now apply assign_metas_preserves.
Qed.

Lemma setitem_row_preserves (key : Z) (value : pyobject) :
  untouched view key -> preserves view (setitem_row key value).
Proof.
  intros Hu. unfold setitem_row.
  destruct value as [i|vals|[x|s|]];
    try now apply convert_to_row_preserves.
  apply preserves_on_X. intros a a'. now apply fill_row_all_agree.
Qed.

Lemma insert_body_preserves (key : Z) (value : pyobject) :
  untouched view key -> preserves view (insert_body key value).
Proof.
  intros Hu. unfold insert_body. apply preserves_bind.
  - now apply convert_to_row_preserves.
  - intros _. apply preserves_get. intros s. apply preserves_when.
    apply preserves_on_W. intros a a'. now apply fill_row_agree.
Qed.

End PreservationMethods.

(** ** Extending a table *)

Section ExtendFacts.

Context {dom : DomainOps} {rt : Runtime}.

Local Open Scope nat_scope.

Lemma norm_index_of_nat (n k i : nat) :
  norm_index n (Z.of_nat k) = Ok i -> i = k /\ k < n.
Proof.
  intros H. pose proof (norm_index_bound _ _ _ H) as Hb.
  unfold norm_index in H.
  destruct ((Z.of_nat k <? - Z.of_nat n)%Z || (Z.of_nat n <=? Z.of_nat k)%Z);
    [discriminate|].
  injection H as <-.
  destruct (Z.ltb_spec (Z.of_nat k) 0); lia.
Qed.

Lemma head_untouched (n k : nat) :
  n <= k -> untouched (head_view n) (Z.of_nat k).
Proof.
  intros Hle rs i r Hi. apply norm_index_of_nat in Hi as [-> Hk].
  unfold head_view, update.
  rewrite firstn_app, length_firstn.
  replace (n - Nat.min k (length rs)) with 0 by lia.
  rewrite firstn_firstn. simpl. rewrite app_nil_r. f_equal. lia.
Qed.

Lemma but_untouched (k : nat) : untouched (but_view k) (Z.of_nat k).
Proof.
  intros rs i r Hi. apply norm_index_of_nat in Hi as [-> Hk].
  unfold but_view, update. f_equal.
  - rewrite firstn_app, length_firstn.
    replace (k - Nat.min k (length rs)) with 0 by lia.
    rewrite firstn_firstn. simpl. rewrite app_nil_r. f_equal. lia.
  - rewrite skipn_app, length_firstn.
    rewrite skipn_all2 by (rewrite length_firstn; lia).
    replace (S k - Nat.min k (length rs)) with 1 by lia.
    reflexivity.
Qed.

Lemma mapM_Forall {A B : Type} (f : A -> result B) (P : B -> Prop)
  (l : list A) (l' : list B) :
  (forall a b, f a = Ok b -> P b) -> mapM f l = Ok l' -> Forall P l'.
Proof.
  intros Hf. revert l'. induction l as [|a l IH]; simpl; intros l' H.
  - injection H as <-. constructor.
  - destruct (f a) as [b|] eqn:E; [|discriminate]. simpl in H.
    destruct (mapM f l) as [bs|]; [|discriminate]. simpl in H.
    injection H as <-. constructor; eauto.
Qed.

Lemma mapM_length {A B : Type} (f : A -> result B) (l : list A) (l' : list B) :
  mapM f l = Ok l' -> length l' = length l.
Proof.
  revert l'. induction l as [|a l IH]; simpl; intros l' H.
  - now injection H as <-.
  - destruct (f a) as [b|]; [|discriminate]. simpl in H.
    destruct (mapM f l) as [bs|]; [|discriminate]. simpl in H.
    injection H as <-. simpl. f_equal. now apply IH.
Qed.

Lemma Forall_repeat {A : Type} (P : A -> Prop) (a : A) (n : nat) :
  P a -> Forall P (repeat a n).
Proof. intros H. induction n; simpl; auto. Qed.

(** What is assigned to [m] rows has [m] rows of the right width. *)
Lemma broadcast_rows_shape (dst src : ndarray) (m : nat)
  (rs : list (list cell)) :
  broadcast_rows dst m src = Ok rs ->
  length rs = m /\
  ((ndim dst = Dim1 -> width dst = 1) ->
   Forall (fun r => length r = width dst) rs).
Proof.
  unfold broadcast_rows.
  assert (Stretch : forall rs0,
    Forall (fun r => length r = width dst) rs0 ->
    (if Nat.eqb (length rs0) m then Ok rs0
     else match rs0 with
          | [r] => Ok (repeat r m)
          | _ => Raise ValueError
          end) = Ok rs ->
    length rs = m /\
    ((ndim dst = Dim1 -> width dst = 1) ->
     Forall (fun r => length r = width dst) rs)).
  { intros rs0 F. destruct (Nat.eqb_spec (length rs0) m).
    - intros E. injection E as <-. auto.
    - destruct rs0 as [|r [|r2 rs0]]; try discriminate.
      intros E. injection E as <-. split; [apply repeat_length|].
      intros _. apply Forall_repeat. now inversion F. }
  assert (Same :
    (if Nat.eqb (width src) (width dst) || Nat.eqb (width src) 1
     then rs0 <- mapM (broadcast_row (width dst)) (rows src) ;;
          (if Nat.eqb (length rs0) m then Ok rs0
           else match rs0 with
                | [r] => Ok (repeat r m)
                | _ => Raise ValueError
                end)
     else Raise ValueError) = Ok rs ->
    length rs = m /\
    ((ndim dst = Dim1 -> width dst = 1) ->
     Forall (fun r => length r = width dst) rs)).
  { destruct (_ || _); [|discriminate].
    destruct (mapM _ _) as [rs0|] eqn:E; [|discriminate]. simpl.
    apply Stretch.
    eapply mapM_Forall; [|exact E].
    intros a b. apply broadcast_row_length. }
  destruct (ndim dst) eqn:Dd, (ndim src) eqn:Ds.
  - exact Same.
  - destruct (rows src) as [|r [|r2 l]]; try discriminate.
    destruct (broadcast_row m r) as [v|] eqn:E; [|discriminate]. simpl.
    intros E'. injection E' as <-. rewrite length_map.
    split; [eapply broadcast_row_length; eassumption|].
    intros Hd. rewrite (Hd eq_refl). apply Forall_forall. intros x Hx.
    apply in_map_iff in Hx as (c & <- & _). reflexivity.
  - destruct (broadcast_row _ _) as [r|] eqn:E; [|discriminate]. simpl.
    intros E'. injection E' as <-. split; [apply repeat_length|].
    intros _. apply Forall_repeat. eapply broadcast_row_length; eassumption.
  - exact Same.
Qed.

Lemma head_splice {A : Type} (n : nat) (l rs : list A) :
  length rs = length l - Nat.min n (length l) ->
  firstn n (firstn (Nat.min n (length l)) l ++ rs) = firstn n l.
Proof.
  intros Hlen. destruct (Nat.le_gt_cases n (length l)).
  - rewrite Nat.min_l by lia.
    rewrite firstn_app, length_firstn, firstn_firstn.
    rewrite !Nat.min_l by lia.
    rewrite Nat.sub_diag, firstn_O. apply app_nil_r.
  - assert (rs = []) by (apply length_zero_iff_nil; lia). subst rs.
    rewrite Nat.min_r by lia. now rewrite app_nil_r, firstn_all.
Qed.

Lemma set_slice_head (n : nat) (src a a' : ndarray) :
  set_slice a (from_row n) None src = Ok a' -> agree (head_view n) a a'.
Proof.
  unfold set_slice, from_row.
  rewrite slice_bounds_from by lia. rewrite Nat2Z.id.
  destruct (broadcast_rows _ _ _) as [rs|] eqn:E; [|discriminate]. simpl.
  intros E'. injection E' as <-.
  apply broadcast_rows_shape in E as [Hlen Hw].
  rewrite (@skipn_all2 _ (length (rows a)) (rows a)) by lia.
  rewrite app_nil_r.
  unfold agree, wf_array, head_view. simpl.
  do 3 (split; [reflexivity|]).
  split; [rewrite length_app, length_firstn; lia|].
  split; [now apply head_splice|].
  intros [F D]. split; [|assumption].
  apply Forall_app. split; [now apply Forall_firstn'|auto].
Qed.

Lemma fill_slice_head (n : nat) (x : cell) (a : ndarray) :
  agree (head_view n) a (fill_slice a (from_row n) None x).
Proof.
  unfold fill_slice, from_row.
  rewrite slice_bounds_from by lia. rewrite Nat2Z.id.
  rewrite (@skipn_all2 _ (length (rows a)) (rows a)) by lia.
  rewrite app_nil_r.
  unfold agree, wf_array, head_view. simpl.
  do 3 (split; [reflexivity|]).
  split; [rewrite length_app, length_firstn, repeat_length; lia|].
  split; [apply head_splice; now rewrite repeat_length|].
  intros [F D]. split; [|assumption].
  apply Forall_app. split; [now apply Forall_firstn'|].
  apply Forall_repeat, repeat_length.
Qed.

Lemma extend_rows_preserves (old i : nat) (examples : list pyobject) :
  preserves (head_view old) (extend_rows old i examples).
Proof.
  revert i. induction examples as [|example rest IH]; intros i; simpl.
  - apply preserves_ret.
  - apply preserves_bind; [|intros _; apply IH].
    apply setitem_row_preserves, head_untouched. lia.
Qed.

Lemma extend_body_preserves (old : nat) (examples : examples_t) :
  preserves (head_view old) (extend_body old examples).
Proof.
  unfold extend_body. apply preserves_get. intros s.
  destruct examples as [ex|l]; [|apply extend_rows_preserves].
  destruct (domain_eq (domain ex) (domain s));
    [|apply extend_rows_preserves].
  apply preserves_bind;
    [apply preserves_on_X; intros ? ?; apply set_slice_head|intros _].
  apply preserves_bind;
    [apply preserves_on_Y; intros ? ?; apply set_slice_head|intros _].
  apply preserves_bind;
    [apply preserves_on_metas; intros ? ?; apply set_slice_head|intros _].
  apply preserves_get. intros s'. apply preserves_when.
  destruct (negb (zero_width (_W ex))).
  - apply preserves_on_W. intros ? ?. apply set_slice_head.
  - apply preserves_on_W. intros a a' E. injection E as <-.
    apply fill_slice_head.
Qed.

End ExtendFacts.

Section ExtendRollback.

Context {dom : DomainOps} {rt : Runtime}.

Local Open Scope nat_scope.

Lemma ndarray_eq (a b : ndarray) :
  owndata b = owndata a -> ndim b = ndim a -> width b = width a ->
  rows b = rows a -> b = a.
Proof. destruct a, b. simpl. intros -> -> -> ->. reflexivity. Qed.

(** An array that agrees with [a] on all of [a]'s rows is [a]. *)
Lemma agree_head_all (n : nat) (a a' : ndarray) :
  agree (head_view n) a a' -> length (rows a) <= n -> a' = a.
Proof.
  intros (O & D & W & L & Hv & _) Hle. apply ndarray_eq; auto.
  unfold head_view in Hv.
  rewrite !firstn_all2 in Hv by lia. assumption.
Qed.

(** An array that agrees with a grown [a] before row [n] shrinks to [a]. *)
Lemma agree_head_resized (n m : nat) (a a' : ndarray) :
  owndata a = true -> shape0 a = n -> n <= m ->
  agree (head_view n) (resized m a) a' -> resized n a' = a.
Proof.
  intros Hown Hlen Hle (O & D & W & L & Hv & _).
  simpl in *. apply ndarray_eq; simpl; auto.
  rewrite W. apply resized_rows_prefix; [assumption|].
  unfold head_view in Hv. rewrite Hv.
  now apply firstn_resized_rows.
Qed.

Lemma agree_tables_wf {V : Type} (view : list (list cell) -> V)
  (t t' : Table) :
  wf_table t -> agree_tables view t t' -> wf_table t'.
Proof.
  intros (HX & HY & HM & HW & R1 & R2 & R3) (_ & AX & AY & AM & AW).
  destruct AX as (_ & DX & _ & LX & _ & FX).
  destruct AY as (_ & DY & _ & LY & _ & FY).
  destruct AM as (_ & DM & _ & LM & _ & FM).
  destruct AW as (_ & DW & WW & LW & _ & FW).
  unfold wf_table, same_rows, shape0 in *.
  rewrite DX, DY, DM, DW, WW, LX, LY, LM, LW. tauto.
Qed.

Lemma agree_tables_own {V : Type} (view : list (list cell) -> V)
  (t t' : Table) :
  agree_tables view t t' -> all_own t' = all_own t.
Proof.
  intros (_ & AX & AY & AM & AW). unfold all_own.
  destruct AX as (-> & _), AY as (-> & _), AM as (-> & _), AW as (-> & _).
  reflexivity.
Qed.

Lemma resize_table_wf (n : nat) (t : Table) :
  wf_table t -> wf_table (resize_table n t).
Proof.
  intros (HX & HY & HM & HW & R). unfold wf_table, resize_table, same_rows.
  simpl. rewrite !resized_shape0.
  destruct HX, HY, HM, HW. auto 10 using resized_wf.
Qed.

Lemma resize_table_own (n : nat) (t : Table) :
  all_own (resize_table n t) = true.
Proof. reflexivity. Qed.

Lemma resize_table_back (n m : nat) (t t' : Table) :
  wf_table t -> all_own t = true -> len t = n -> n <= m ->
  agree_tables (head_view n) (resize_table m t) t' ->
  resize_table n t' = t.
Proof.
  intros (_ & _ & _ & _ & R1 & R2 & R3) Hown Hlen Hle (D & AX & AY & AM & AW).
  apply wf_table_own_cases in Hown. destruct Hown as (OX & OY & OM & OW).
  unfold len in Hlen. simpl in *.
  unfold resize_table. rewrite D.
  rewrite (agree_head_resized n m (_X t)) by (auto; lia).
  rewrite (agree_head_resized n m (_Y t)) by (auto; lia).
  rewrite (agree_head_resized n m (_metas t)) by (auto; lia).
  rewrite (agree_head_resized n m (_W t)) by (auto; lia).
  now destruct t.
Qed.

Lemma agree_tables_head_all (n : nat) (t t' : Table) :
  wf_table t -> len t <= n -> agree_tables (head_view n) t t' -> t' = t.
Proof.
  intros (_ & _ & _ & _ & R1 & R2 & R3) Hlen (D & AX & AY & AM & AW).
  unfold len, shape0 in *.
  apply agree_head_all in AX; [|lia].
  apply agree_head_all in AY; [|lia].
  apply agree_head_all in AM; [|lia].
  apply agree_head_all in AW; [|lia].
  destruct t, t'. simpl in *. congruence.
Qed.

(** The outcome of [extend] in terms of its two phases. *)
Lemma extend_run (examples : examples_t) (t : Table) :
  wf_table t ->
  (exists e, extend examples t = (Raise e, t) /\
             resize_all (len t + len_examples examples) t = (Raise e, t)) \/
  (exists t1,
     resize_all (len t + len_examples examples) t = (Ok tt, t1) /\
     match extend_body (len t) examples t1 with
     | (Ok _, t2) => extend examples t = (Ok tt, t2)
     | (Raise e, _) => extend examples t = (Raise e, t)
     end).
Proof.
  intros Hwf. unfold extend. rewrite bindM_get.
  set (n := len_examples examples). set (old := len t).
  destruct (Nat.eq_dec n 0) as [Hn|Hn].
  - right. exists t.
    assert (Hres : resize_all (old + n) t = (Ok tt, t))
      by (apply resize_all_same; unfold old; lia).
    split; [assumption|].
    rewrite (bindM_ok _ _ _ _ _ Hres).
    destruct (extend_body old examples t) as [[[]|e] t2] eqn:Hbody.
    + erewrite try_ok; eauto.
    + erewrite try_raise by eassumption.
      assert (t2 = t).
      { eapply agree_tables_head_all; eauto.
        eapply extend_body_preserves; eassumption. }
      subst t2.
      rewrite (bindM_ok _ _ t t tt) by (now apply resize_all_same).
      reflexivity.
  - destruct (all_own t) eqn:Hown.
    + right. exists (resize_table (old + n) t).
      assert (Hres : resize_all (old + n) t = (Ok tt, resize_table (old + n) t))
        by (apply resize_all_own; auto; unfold old; lia).
      split; [assumption|].
      rewrite (bindM_ok _ _ _ _ _ Hres).
      destruct (extend_body old examples _) as [[[]|e] t2] eqn:Hbody.
      * erewrite try_ok; eauto.
      * erewrite try_raise by eassumption.
        pose proof (extend_body_preserves old examples _ _ _ Hbody) as Hag.
        assert (Hback : resize_all old t2 = (Ok tt, t)).
        { rewrite resize_all_own.
          - f_equal. apply (resize_table_back old (old + n)); auto.
            lia.
          - eapply agree_tables_wf; [|eassumption].
            now apply resize_table_wf.
          - now rewrite (agree_tables_own _ _ _ Hag).
          - destruct Hag as (_ & (_ & _ & _ & L & _) & _).
            unfold len, shape0 in *. rewrite L. simpl.
            rewrite resized_rows_length. lia. }
        rewrite (bindM_ok _ _ _ _ _ Hback). reflexivity.
    + left. exists ValueError.
      assert (Hres : resize_all (old + n) t = (Raise ValueError, t))
        by (apply resize_all_grow_fail; auto; unfold old; lia).
      split; [|assumption].
      now rewrite (bindM_raise _ _ _ _ _ Hres).
Qed.

End ExtendRollback.

(** ** Inserting a row *)

Section InsertFacts.

Context {dom : DomainOps} {rt : Runtime}.

Local Open Scope nat_scope.

Lemma mapM_broadcast_id (k : nat) (rs : list (list cell)) :
  Forall (fun r => length r = k) rs -> mapM (broadcast_row k) rs = Ok rs.
Proof.
  induction 1 as [|r rs Hr _ IH]; simpl; [reflexivity|].
  unfold broadcast_row at 1. rewrite Hr, Nat.eqb_refl. simpl.
  now rewrite IH.
Qed.

(** Assigning rows of the array's own shape keeps them as they are. *)
Lemma broadcast_rows_same (dst : ndarray) (rs : list (list cell)) (own : bool) :
  Forall (fun r => length r = width dst) rs ->
  broadcast_rows dst (length rs)
    (mk_ndarray own (ndim dst) (width dst) rs) = Ok rs.
Proof.
  intros F. unfold broadcast_rows. simpl.
  rewrite Nat.eqb_refl. simpl.
  rewrite mapM_broadcast_id by assumption. simpl.
  rewrite Nat.eqb_refl.
  now destruct (ndim dst).
Qed.

Lemma get_slice_run (a : ndarray) (b e : option Z) :
  get_slice a b e =
  Ok (mk_ndarray false (ndim a) (width a)
        (let '(lo, hi) := slice_bounds b e (length (rows a)) in
         firstn (hi - lo) (skipn lo (rows a)))).
Proof.
  unfold get_slice, getitem. now rewrite pick_unit_slice.
Qed.

Lemma move_down_run (k : nat) (a : ndarray) :
  wf_array a -> k < length (rows a) ->
  move_down (Z.of_nat k) a = Ok (moved_down k a).
Proof.
  intros [F _] Hk. unfold move_down, moved_down.
  rewrite get_slice_run. cbv beta iota delta [Py.bind].
  rewrite slice_bounds_to_last by lia. rewrite Nat2Z.id.
  unfold set_slice.
  replace (Z.of_nat k + 1)%Z with (Z.of_nat (S k)) by lia.
  rewrite slice_bounds_from by lia. rewrite Nat2Z.id.
  rewrite !Nat.min_l by lia. rewrite Nat.max_r by lia.
  set (v := firstn (length (rows a) - 1 - k) (skipn k (rows a))).
  assert (Hv : length v = length (rows a) - S k).
  { unfold v. rewrite length_firstn, length_skipn. lia. }
  cbn [rows]. fold v. rewrite <- Hv. rewrite broadcast_rows_same.
  - cbv beta iota delta [Py.bind].
    rewrite (@skipn_all2 _ (length (rows a)) (rows a)) by lia.
    now rewrite app_nil_r.
  - unfold v. now apply Forall_firstn', Forall_skipn'.
Qed.

Lemma move_up_run (k : nat) (a : ndarray) :
  wf_array a -> k < length (rows a) ->
  move_up (Z.of_nat k) a = Ok (moved_up k a).
Proof.
  intros [F _] Hk. unfold move_up, moved_up.
  rewrite get_slice_run. cbv beta iota delta [Py.bind].
  replace (Z.of_nat k + 1)%Z with (Z.of_nat (S k)) by lia.
  rewrite slice_bounds_from by lia. rewrite Nat2Z.id.
  unfold set_slice.
  rewrite slice_bounds_to_last by lia. rewrite Nat2Z.id.
  rewrite !Nat.min_l by lia. rewrite Nat.max_r by lia.
  rewrite firstn_all2 by (rewrite length_skipn; lia).
  set (v := skipn (S k) (rows a)).
  assert (Hv : length v = length (rows a) - 1 - k).
  { unfold v. rewrite length_skipn. lia. }
  cbn [rows]. fold v. rewrite <- Hv. rewrite broadcast_rows_same.
  - reflexivity.
  - unfold v. now apply Forall_skipn'.
Qed.

Lemma moved_down_wf (k : nat) (a : ndarray) :
  wf_array a -> wf_array (moved_down k a).
Proof.
  intros [F D]. split; [|assumption].
  cbn [rows width moved_down moved_up with_rows].
  apply Forall_app. split.
  - now apply Forall_firstn'.
  - now apply Forall_firstn', Forall_skipn'.
Qed.

Lemma moved_up_wf (k : nat) (a : ndarray) :
  wf_array a -> wf_array (moved_up k a).
Proof.
  intros [F D]. split; [|assumption].
  cbn [rows width moved_down moved_up with_rows].
  apply Forall_app. split; [now apply Forall_firstn'|].
  apply Forall_app. split; now apply Forall_skipn'.
Qed.

Lemma moved_down_length (k : nat) (a : ndarray) :
  k < length (rows a) -> length (rows (moved_down k a)) = length (rows a).
Proof.
  intros H. cbn [rows width moved_down moved_up with_rows].
  rewrite length_app, !length_firstn, length_skipn. lia.
Qed.

Lemma moved_up_length (k : nat) (a : ndarray) :
  k < length (rows a) -> length (rows (moved_up k a)) = length (rows a).
Proof.
  intros H. cbn [rows width moved_down moved_up with_rows].
  rewrite !length_app, length_firstn, !length_skipn. lia.
Qed.

Lemma firstn_app_exact {A : Type} (k : nat) (p q : list A) :
  length p = k -> firstn k (p ++ q) = p.
Proof.
  intros <-. rewrite firstn_app, Nat.sub_diag, firstn_O, app_nil_r.
  apply firstn_all.
Qed.

Lemma skipn_app_exact {A : Type} (k : nat) (p q : list A) :
  length p = k -> skipn k (p ++ q) = q.
Proof.
  intros <-. rewrite skipn_app, Nat.sub_diag, skipn_all. reflexivity.
Qed.

(** The rows around a gap at [k]: opening the gap in [rs ++ [z]] keeps what
    is before [k] and moves what is from [k] on one row down. *)
Lemma gap_rows {A : Type} (k n : nat) (rs : list A) (z : A) :
  length rs = n -> k <= n ->
  let rows2 := firstn (S k) (rs ++ [z]) ++
               firstn (length (rs ++ [z]) - 1 - k) (skipn k (rs ++ [z])) in
  firstn k rows2 = firstn k rs /\ skipn (S k) rows2 = skipn k rs.
Proof.
  intros Hlen Hk.
  set (p := firstn k rs). set (s := skipn k rs).
  assert (Hrs : rs = p ++ s) by (symmetry; apply firstn_skipn).
  assert (Hp : length p = k) by (unfold p; rewrite length_firstn; lia).
  assert (Hs : length s = n - k) by (unfold s; rewrite length_skipn; lia).
  rewrite length_app, Hlen. cbn [length].
  rewrite Hrs, <- app_assoc.
  assert (H1 : firstn (S k) (p ++ s ++ [z]) = p ++ firstn 1 (s ++ [z])).
  { rewrite firstn_app, firstn_all2 by lia.
    now replace (S k - length p) with 1 by lia. }
  assert (H2 : skipn k (p ++ s ++ [z]) = s ++ [z])
    by now apply skipn_app_exact.
  assert (H3 : firstn (n + 1 - 1 - k) (s ++ [z]) = s)
    by (apply firstn_app_exact; lia).
  assert (H4 : length (firstn 1 (s ++ [z])) = 1).
  { rewrite length_firstn, length_app. cbn [length]. lia. }
  cbv zeta. rewrite H1, H2, H3. split.
  - rewrite <- app_assoc. now apply firstn_app_exact.
  - apply skipn_app_exact. rewrite length_app. lia.
Qed.

(** Opening the gap at [k] in a grown array, writing anything into the
    gap, closing the gap and cutting the last row gives the array back. *)
Lemma gap_closed (k n : nat) (a a3 : ndarray) :
  owndata a = true -> length (rows a) = n -> k <= n ->
  agree (but_view k) (moved_down k (resized (S n) a)) a3 ->
  resized n (moved_up k a3) = a.
Proof.
  intros Hown Hlen Hk (O & D & W & L & Hv & _).
  assert (Hrows1 : resized_rows (width a) (S n) (rows a) =
                   rows a ++ [repeat zero (width a)]).
  { unfold resized_rows. rewrite firstn_all2 by lia.
    now replace (S n - length (rows a)) with 1 by lia. }
  cbn [owndata ndim width rows moved_down resized with_rows] in O, D, W, L, Hv.
  rewrite Hrows1 in L, Hv.
  destruct (gap_rows k n (rows a) (repeat zero (width a)) Hlen Hk)
    as [Hpre Hsuf].
  unfold but_view in Hv.
  pose proof (f_equal fst Hv) as Hv1. pose proof (f_equal snd Hv) as Hv2.
  cbv beta iota delta [fst snd] in Hv1, Hv2.
  rewrite Hpre in Hv1. rewrite Hsuf in Hv2.
  assert (L3 : length (rows a3) = S n).
  { rewrite L, length_app, length_firstn, length_firstn, length_skipn,
      !length_app. cbn [length]. lia. }
  apply ndarray_eq; cbn [owndata ndim width rows moved_up resized with_rows];
    auto.
  rewrite W. apply resized_rows_prefix; [assumption|].
  rewrite Hv1, Hv2, app_assoc, firstn_skipn.
  now apply firstn_app_exact.
Qed.

End InsertFacts.

Section InsertRollback.

Context {dom : DomainOps} {rt : Runtime}.

Local Open Scope nat_scope.

Lemma shift_down_run (k : nat) (t : Table) :
  rows_beyond k t ->
  shift_down (Z.of_nat k) t = (Ok tt, map_arrays (moved_down k) t).
Proof.
  intros ([WX KX] & [WY KY] & [WM KM] & [WW KW]).
  unfold shift_down, bindM.
  rewrite on_X_run, move_down_run by assumption.
  rewrite on_Y_run. tsimpl. rewrite move_down_run by assumption.
  rewrite on_metas_run. tsimpl. rewrite move_down_run by assumption.
  rewrite on_W_run. tsimpl. rewrite move_down_run by assumption.
  reflexivity.
Qed.

Lemma shift_up_run (k : nat) (t : Table) :
  rows_beyond k t ->
  shift_up (Z.of_nat k) t = (Ok tt, map_arrays (moved_up k) t).
Proof.
  intros ([WX KX] & [WY KY] & [WM KM] & [WW KW]).
  unfold shift_up, bindM.
  rewrite on_X_run, move_up_run by assumption.
  rewrite on_Y_run. tsimpl. rewrite move_up_run by assumption.
  rewrite on_metas_run. tsimpl. rewrite move_up_run by assumption.
  rewrite on_W_run. tsimpl. rewrite move_up_run by assumption.
  reflexivity.
Qed.

Lemma wf_table_rows_beyond (k : nat) (t : Table) :
  wf_table t -> k < len t -> rows_beyond k t.
Proof.
  intros ((_ & WX) & (_ & WY) & (_ & WM) & (WW & _) & R1 & R2 & R3) Hk.
  unfold rows_beyond, len, shape0 in *.
  repeat split; try apply WX; try apply WY; try apply WM; try apply WW; lia.
Qed.

Lemma map_moved_down_wf (k : nat) (t : Table) :
  wf_table t -> k < len t -> wf_table (map_arrays (moved_down k) t).
Proof.
  intros Hwf Hk.
  pose proof (wf_table_rows_beyond k t Hwf Hk)
    as ([_ KX] & [_ KY] & [_ KM] & [_ KW]).
  destruct Hwf as ((DX & WX) & (DY & WY) & (DM & WM) & (WW & DW) & R1 & R2 & R3).
  unfold wf_table, same_rows, shape0, map_arrays.
  cbn [_X _Y _metas _W].
  rewrite !moved_down_length by assumption.
  unfold shape0 in *.
  repeat split; auto using moved_down_wf;
    try (apply moved_down_wf; assumption).
Qed.

Lemma map_moved_up_wf (k : nat) (t : Table) :
  wf_table t -> k < len t -> wf_table (map_arrays (moved_up k) t).
Proof.
  intros Hwf Hk.
  pose proof (wf_table_rows_beyond k t Hwf Hk)
    as ([_ KX] & [_ KY] & [_ KM] & [_ KW]).
  destruct Hwf as ((DX & WX) & (DY & WY) & (DM & WM) & (WW & DW) & R1 & R2 & R3).
  unfold wf_table, same_rows, shape0, map_arrays.
  cbn [_X _Y _metas _W].
  rewrite !moved_up_length by assumption.
  unfold shape0 in *.
  repeat split; auto using moved_up_wf;
    try (apply moved_up_wf; assumption).
Qed.

(** The table after a failed body of [insert] goes back to the table
    before the call. *)
Lemma insert_rollback (k : nat) (t t3 : Table) :
  wf_table t -> all_own t = true -> k <= len t ->
  agree_tables (but_view k)
    (map_arrays (moved_down k) (resize_table (S (len t)) t)) t3 ->
  (shift_up (Z.of_nat k) ;;;
   self <~ get ;; resize_all (len self - 1)) t3 = (Ok tt, t).
Proof.
  intros Hwf Hown Hk Hag.
  set (n := len t) in *.
  assert (Hwf1 : wf_table (resize_table (S n) t)) by now apply resize_table_wf.
  assert (Hlen1 : len (resize_table (S n) t) = S n)
    by (unfold len; simpl; apply resized_shape0).
  assert (Hwf2 : wf_table (map_arrays (moved_down k) (resize_table (S n) t)))
    by (apply map_moved_down_wf; auto; lia).
  assert (Hwf3 : wf_table t3) by (eapply agree_tables_wf; eassumption).
  assert (Hlen3 : len t3 = S n).
  { destruct Hag as (_ & (_ & _ & _ & L & _) & _).
    unfold len, shape0. rewrite L. cbn [_X map_arrays].
    rewrite moved_down_length; [apply resized_shape0|].
    cbn [_X resize_table]. fold (shape0 (resized (S n) (_X t))).
    rewrite resized_shape0. lia. }
  assert (Hown3 : all_own t3 = true).
  { rewrite (agree_tables_own _ _ _ Hag). reflexivity. }
  assert (Hup : shift_up (Z.of_nat k) t3 = (Ok tt, map_arrays (moved_up k) t3)).
  { apply shift_up_run, wf_table_rows_beyond; auto. lia. }
  rewrite (bindM_ok _ _ _ _ _ Hup). rewrite bindM_get.
  assert (Hlen4 : len (map_arrays (moved_up k) t3) = S n).
  { unfold len, shape0. cbn [_X map_arrays].
    rewrite moved_up_length; [exact Hlen3|].
    unfold len, shape0 in Hlen3. lia. }
  rewrite Hlen4. replace (S n - 1) with n by lia.
  rewrite resize_all_own.
  - f_equal.
    destruct Hwf as (_ & _ & _ & _ & R1 & R2 & R3).
    apply wf_table_own_cases in Hown. destruct Hown as (OX & OY & OM & OW).
    destruct Hag as (D & AX & AY & AM & AW).
    unfold n, len, shape0 in *.
    unfold resize_table, map_arrays. cbn [_X _Y _metas _W domain].
    cbn [_X _Y _metas _W domain map_arrays resize_table] in AX, AY, AM, AW, D.
    rewrite D.
    rewrite (gap_closed k (length (rows (_X t))) (_X t)) by auto.
    rewrite (gap_closed k (length (rows (_X t))) (_Y t))
      by (auto; try lia; now rewrite <- R1).
    rewrite (gap_closed k (length (rows (_X t))) (_metas t))
      by (auto; try lia; now rewrite <- R2, <- R1).
    rewrite (gap_closed k (length (rows (_X t))) (_W t))
      by (auto; try lia; now rewrite <- R3, <- R2, <- R1).
    now destruct t.
  - apply map_moved_up_wf; auto. lia.
  - unfold all_own, map_arrays. cbn [_X _Y _metas _W moved_up with_rows owndata].
    exact Hown3.
  - lia.
Qed.

Lemma insert_key_range (t : Table) (key : Z) :
  let k := insert_key t key in
  ((k <? 0)%Z || (Z.of_nat (len t) <? k)%Z = false) ->
  (Z.to_nat k <= len t)%nat /\ Z.of_nat (Z.to_nat k) = k.
Proof.
  intros k H. apply orb_false_iff in H as [H1 H2].
  apply Z.ltb_ge in H1, H2. lia.
Qed.

(** The outcome of [insert], phase by phase. *)
Lemma insert_run (key : Z) (value : pyobject) (t : Table) :
  wf_table t ->
  let k := insert_key t key in
  if (k <? 0)%Z || (Z.of_nat (len t) <? k)%Z then
    insert key value t = (Raise IndexError, t)
  else if all_own t then
    resize_all (len t + 1) t = (Ok tt, resize_table (S (len t)) t) /\
    shift_down k (resize_table (S (len t)) t) =
      (Ok tt, map_arrays (moved_down (Z.to_nat k)) (resize_table (S (len t)) t)) /\
    match insert_body k value
            (map_arrays (moved_down (Z.to_nat k)) (resize_table (S (len t)) t))
    with
    | (Ok _, t3) => insert key value t = (Ok tt, t3)
    | (Raise e, _) => insert key value t = (Raise e, t)
    end
  else insert key value t = (Raise ValueError, t).
Proof.
  intros Hwf k. unfold insert. rewrite bindM_get. fold k.
  destruct ((k <? 0)%Z || (Z.of_nat (len t) <? k)%Z) eqn:Hrange;
    [reflexivity|].
  destruct (insert_key_range t key Hrange) as [Hk Hkz]. fold k in Hk, Hkz.
  set (k' := Z.to_nat k) in *.
  destruct (all_own t) eqn:Hown.
  - assert (Hres : resize_all (len t + 1) t = (Ok tt, resize_table (S (len t)) t)).
    { replace (len t + 1) with (S (len t)) by lia.
      apply resize_all_own; auto. }
    set (t1 := resize_table (S (len t)) t) in *.
    assert (Hlen1 : len t1 = S (len t))
      by (unfold len, t1; simpl; apply resized_shape0).
    assert (Hdown : shift_down k t1 = (Ok tt, map_arrays (moved_down k') t1)).
    { rewrite <- Hkz. apply shift_down_run, wf_table_rows_beyond.
      - now apply resize_table_wf.
      - lia. }
    split; [assumption|]. split; [assumption|].
    rewrite (bindM_ok _ _ _ _ _ Hres). rewrite bindM_get.
    assert (Hlt : (k <? Z.of_nat (len t1))%Z = true)
      by (apply Z.ltb_lt; lia).
    rewrite Hlt. unfold when.
    rewrite (bindM_ok _ _ _ _ _ Hdown).
    destruct (insert_body k value _) as [[[]|e] t3] eqn:Hbody.
    + erewrite try_ok; eauto.
    + erewrite try_raise by eassumption.
      assert (Hag : agree_tables (but_view k') (map_arrays (moved_down k') t1) t3).
      { eapply insert_body_preserves; [|eassumption].
        rewrite <- Hkz. apply but_untouched. }
      pose proof (insert_rollback k' t t3 Hwf Hown Hk Hag) as Hback.
      rewrite Hkz in Hback.
      destruct (shift_up k t3) as [[[]|e1] t4] eqn:Hup.
      * rewrite (bindM_ok _ _ _ _ _ Hup) in Hback.
        rewrite (bindM_ok _ _ _ _ _ Hup).
        rewrite bindM_get in Hback. rewrite bindM_get.
        now rewrite (bindM_ok _ _ _ _ _ Hback).
      * rewrite (bindM_raise _ _ _ _ _ Hup) in Hback. discriminate.
  - assert (Hres : resize_all (len t + 1) t = (Raise ValueError, t))
      by (apply resize_all_grow_fail; auto; lia).
    now rewrite (bindM_raise _ _ _ _ _ Hres).
Qed.

End InsertRollback.

(** ** Rollback of [extend] and [insert] *)

Section Rollback.

Context {dom : DomainOps} {rt : Runtime}.


(** C8, as the code has it.  [insert] raises IndexError, and leaves the
    table alone, for every index that lies outside [0, N] once a negative
    index has been shifted by N; the index N itself is accepted. *)
Theorem insert_out_of_range (t : Table) (key : Z) (value : pyobject) :
  insert_key t key < 0 \/ Z.of_nat (len t) < insert_key t key ->
  insert key value t = (Raise IndexError, t).
Proof.
  intros H. unfold insert. rewrite bindM_get.
  assert (E : (insert_key t key <? 0) || (Z.of_nat (len t) <? insert_key t key)
              = true).
  { apply orb_true_iff. destruct H; [left|right]; now apply Z.ltb_lt. }
  now rewrite E.
Qed.

End Rollback.

Section SetItem.

Local Open Scope nat_scope.

Lemma nth_error_update_same {A : Type} (l : list A) (i : nat) (a : A) :
  i < length l -> nth_error (update l i a) i = Some a.
Proof.
  intros H. unfold update.
  rewrite nth_error_app2 by (rewrite length_firstn; lia).
  rewrite length_firstn. replace (i - Nat.min i (length l)) with 0 by lia.
  reflexivity.
Qed.



End SetItem.

(** Instances of the theorems above on the sample table. *)


Lemma insert_out_of_range_witness :
  insert 3 Sample.good_row Sample.two_rows = (Raise IndexError, Sample.two_rows)
  /\ insert (-3) Sample.good_row Sample.two_rows
     = (Raise IndexError, Sample.two_rows).
Proof.
  split.
  - apply insert_out_of_range. right. vm_compute. reflexivity.
  - apply insert_out_of_range. left. vm_compute. reflexivity.
Defined.

(** C8 as stated fails: row index N is outside [0, N), yet [insert]
    accepts it (it is how [append] adds a row). *)
Lemma insert_at_length_succeeds :
  ~ (0 <= insert_key Sample.two_rows 2 < Z.of_nat (len Sample.two_rows)) /\
  fst (insert 2 Sample.good_row Sample.two_rows) = Ok tt /\
  len (snd (insert 2 Sample.good_row Sample.two_rows)) = 3%nat.
Proof.
  split; [|split].
  - vm_compute. intros [_ H]. discriminate H.
  - vm_compute. reflexivity.
  - vm_compute. reflexivity.
Qed.


(** ** Filtering twice *)

Section Selection.

Local Open Scope nat_scope.

Lemma select_map {A B : Type} (f : A -> B) (m : list bool) (l : list A) :
  select m (map f l) = map f (select m l).
Proof.
  revert l. induction m as [|b m IH]; intros [|a l]; simpl; auto.
  destruct b; simpl; now rewrite IH.
Qed.

Lemma select_combine {A B : Type} (m : list bool) (l : list A) (l' : list B) :
  select m (combine l l') = combine (select m l) (select m l').
Proof.
  revert l l'. induction m as [|b m IH]; intros [|a l] [|a' l']; simpl; auto.
  - now destruct b; destruct (select m l).
  - destruct b; simpl; now rewrite IH.
Qed.

Lemma select_length_le {A : Type} (m : list bool) (l : list A) :
  length (select m l) <= length l.
Proof.
  revert l. induction m as [|b m IH]; intros [|a l]; simpl; auto with arith.
  destruct b; simpl; specialize (IH l); lia.
Qed.

(** Two lists as long as the mask keep the same number of entries. *)
Lemma select_length_eq {A B : Type} (m : list bool) (l : list A) (l' : list B) :
  length l = length m -> length l' = length m ->
  length (select m l) = length (select m l').
Proof.
  revert l l'. induction m as [|b m IH]; intros [|a l] [|a' l'] H H';
    simpl in *; try discriminate; auto.
  destruct b; simpl; auto.
Qed.

Lemma select_repeat {A : Type} (m : list bool) (a : A) :
  select m (repeat a (length m)) = repeat a (length (select m m)).
Proof.
  induction m as [|b m IH]; simpl; auto.
  destruct b; simpl; now rewrite IH.
Qed.

(** A mask selects its own true bits. *)
Lemma select_self (m : list bool) :
  select m m = repeat true (length (select m m)).
Proof.
  induction m as [|b m IH]; simpl; auto.
  destruct b; simpl; now rewrite <- IH.
Qed.

Lemma select_all {A : Type} (l : list A) :
  select (repeat true (length l)) l = l.
Proof. induction l; simpl; congruence. Qed.

Lemma mapM_select {A B : Type} (f : A -> result B) (m : list bool)
  (l : list A) (l' : list B) :
  mapM f l = Ok l' -> mapM f (select m l) = Ok (select m l').
Proof.
  revert l l'. induction m as [|b m IH]; intros l l' H.
  - reflexivity.
  - destruct l as [|a l].
    + simpl in H. injection H as <-. reflexivity.
    + simpl in H. destruct (f a) as [x|] eqn:E; [|discriminate].
      simpl in H. destruct (mapM f l) as [xs|] eqn:E2; [|discriminate].
      simpl in H. injection H as <-. simpl.
      destruct b; [|now apply IH].
      simpl. rewrite E. simpl. now rewrite (IH _ _ E2).
Qed.

End Selection.

(** ** Where the row counts stay equal *)

Section RowCounts.

Context {dom : DomainOps} {rt : Runtime}.

Local Open Scope nat_scope.

Lemma new_from_domain_wf (d : Domain) (n : nat) (weights : bool) :
  wf_table (new_from_domain d n weights).
Proof.
  unfold wf_table, new_from_domain, wf_array, same_rows, shape0. simpl.
  assert (F : forall (x : cell) k,
            Forall (fun r => length r = k) (repeat (repeat x k) n)).
  { intros x k. apply Forall_forall. intros r Hr.
    apply repeat_spec in Hr. subst. apply repeat_length. }
  destruct weights; simpl; rewrite !repeat_length;
    repeat split; auto; try discriminate;
    apply Forall_forall; intros r Hr; apply repeat_spec in Hr; now subst.
Qed.

Lemma new_from_numpy_rows (d : Domain) (X : ndarray)
  (Y metas W : option ndarray) (t : Table) :
  new_from_numpy d X Y metas W = Ok t -> same_rows t.
Proof.
  unfold new_from_numpy.
  destruct (match Y with Some Y0 => _ | None => _ end) as [[X' Y']|];
    [|discriminate].
  cbn [Py.bind].
  destruct (shape1 X'); [|discriminate]. cbn [Py.bind].
  destruct (negb _); [discriminate|].
  destruct (shape1 Y'); [|discriminate]. cbn [Py.bind].
  destruct (negb _); [discriminate|].
  destruct (shape1 _); [|discriminate]. cbn [Py.bind].
  destruct (negb _); [discriminate|].
  destruct (negb _) eqn:E; [discriminate|].
  intros H. injection H as <-.
  apply negb_false_iff in E. rewrite !andb_true_iff in E.
  destruct E as [[E1 E2] E3]. apply Nat.eqb_eq in E1, E2, E3.
  unfold same_rows. simpl. auto.
Qed.

(** What a row selector picks has a length that depends on the number of
    rows only. *)
Lemma pick_length {A B : Type} (sel : row_sel) (l : list A) (l' : list B)
  (r : list A) :
  length l = length l' -> pick sel l = Ok r ->
  exists r', pick sel l' = Ok r' /\ length r' = length r.
Proof.
  intros Hlen. unfold pick.
  assert (Items : forall idx (r0 : list A),
    mapM (item l) idx = Ok r0 ->
    exists r', mapM (item l') idx = Ok r' /\ length r' = length r0).
  { induction idx as [|i idx IH]; simpl; intros r0 H.
    - injection H as <-. eauto.
    - unfold item at 1 in H. unfold item at 1. rewrite <- Hlen.
      destruct (norm_index (length l) i) as [k|] eqn:Ek; [|discriminate].
      cbn [Py.bind] in *.
      pose proof (norm_index_bound _ _ _ Ek) as Hk.
      destruct (nth_error l k) as [x|] eqn:Ex; [|discriminate].
      destruct (nth_error l' k) as [y|] eqn:Ey.
      2:{ apply nth_error_None in Ey. lia. }
      cbn [Py.bind] in *.
      destruct (mapM (item l) idx) as [xs|]; [|discriminate].
      cbn [Py.bind] in H. injection H as <-.
      destruct (IH xs eq_refl) as (ys & -> & L). cbn [Py.bind].
      exists (y :: ys). simpl. auto. }
  destruct sel as [s| |idx|m].
  - rewrite <- Hlen. destruct (slice_positions s (length l)); [|discriminate].
    cbn [Py.bind]. apply Items.
  - intros H. injection H as <-. exists l'. auto.
  - apply Items.
  - rewrite <- Hlen.
    destruct (Nat.eqb_spec (length m) (length l)); [|discriminate].
    intros H. injection H as <-. eexists. split; [reflexivity|].
    apply select_length_eq; congruence.
Qed.

Lemma getitem_rows (sel : row_sel) (a b a' : ndarray) :
  shape0 a = shape0 b -> getitem a sel = Ok a' ->
  exists b', getitem b sel = Ok b' /\ shape0 b' = shape0 a'.
Proof.
  unfold getitem, shape0. intros Hlen.
  destruct (pick sel (rows a)) as [r|] eqn:E; [|discriminate].
  cbn [Py.bind]. intros H. injection H as <-.
  destruct (pick_length sel _ (rows b) r Hlen E) as (r' & -> & L).
  cbn [Py.bind]. eexists. split; [reflexivity|]. exact L.
Qed.

Lemma new_from_table_rows_rows (source : Table) (sel : row_sel) (t : Table) :
  same_rows source -> new_from_table_rows source sel = Ok t -> same_rows t.
Proof.
  intros (R1 & R2 & R3). unfold new_from_table_rows.
  destruct (getitem (_X source) sel) as [x|] eqn:EX; [|discriminate].
  destruct (getitem (_Y source) sel) as [y|] eqn:EY; [|discriminate].
  destruct (getitem (_metas source) sel) as [m|] eqn:EM; [|discriminate].
  destruct (getitem (_W source) sel) as [w|] eqn:EW; [|discriminate].
  cbn [Py.bind]. intros H. injection H as <-.
  destruct (getitem_rows sel _ (_Y source) _ R1 EX) as (y' & Ey & Ly).
  destruct (getitem_rows sel _ (_metas source) _ R2 EY) as (m' & Em & Lm).
  destruct (getitem_rows sel _ (_W source) _ R3 EM) as (w' & Ew & Lw).
  unfold same_rows. simpl. split; [|split]; congruence.
Qed.

Lemma wf_table_same_rows (t : Table) : wf_table t -> same_rows t.
Proof. unfold wf_table. tauto. Qed.

Lemma extend_keeps_shape (examples : examples_t) (t t' : Table)
  (r : result unit) :
  wf_table t -> extend examples t = (r, t') -> wf_table t'.
Proof.
  intros Hwf H.
  destruct (extend_run examples t Hwf) as [(e & E & _)|(t1 & E1 & E)].
  - congruence.
  - destruct (extend_body (len t) examples t1) as [[[]|e] t2] eqn:Hbody.
    + assert (t' = t2) by congruence. subst t'.
      pose proof (extend_body_preserves _ _ _ _ _ Hbody) as Hag.
      eapply agree_tables_wf; [|exact Hag].
      destruct (Nat.eq_dec (len t + len_examples examples) (len t)) as [En|En].
      * rewrite resize_all_same in E1 by auto. congruence.
      * destruct (all_own t) eqn:Hown.
        -- rewrite resize_all_own in E1 by auto.
           injection E1 as <-. now apply resize_table_wf.
        -- rewrite resize_all_grow_fail in E1; auto; [discriminate|lia].
    + congruence.
Qed.

Lemma insert_keeps_shape (key : Z) (value : pyobject) (t t' : Table)
  (r : result unit) :
  wf_table t -> insert key value t = (r, t') -> wf_table t'.
Proof.
  intros Hwf H.
  pose proof (insert_run key value t Hwf) as R. cbv zeta in R.
  destruct (_ || _) eqn:Hrange; [congruence|].
  destruct (insert_key_range t key Hrange) as [Hk Hkz].
  destruct (all_own t); [|congruence].
  destruct R as (_ & _ & R).
  destruct (insert_body _ _ _) as [[[]|e] t3] eqn:Hbody; [|congruence].
  assert (t' = t3) by congruence. subst t'.
  eapply agree_tables_wf;
    [|eapply (insert_body_preserves (but_view (Z.to_nat (insert_key t key))));
      [|exact Hbody]].
  - apply map_moved_down_wf; [now apply resize_table_wf|].
    change (len (resize_table (S (len t)) t))
      with (shape0 (resized (S (len t)) (_X t))).
    rewrite resized_shape0. lia.
  - rewrite <- Hkz at 2. apply but_untouched.
Qed.

Lemma np_delete_rows (key : del_key) (a b a' : ndarray) :
  shape0 a = shape0 b -> np_delete a key = Ok a' ->
  exists b', np_delete b key = Ok b' /\ shape0 b' = shape0 a'.
Proof.
  unfold np_delete, shape0. intros Hlen. rewrite <- Hlen.
  destruct (del_positions key (length (rows a))) as [ps|]; [|discriminate].
  cbn [Py.bind]. intros H. injection H as <-.
  eexists. split; [reflexivity|]. simpl.
  apply select_length_eq; rewrite length_map, length_seq; auto.
Qed.

Lemma delitem_keeps_rows (key : delitem_key) (t t' : Table) (r : result unit) :
  same_rows t -> delitem key t = (r, t') -> same_rows t'.
Proof.
  intros (R1 & R2 & R3). unfold delitem. rewrite bindM_get.
  set (k := match key with
            | DelEllipsis => DList (map Z.of_nat (seq 0 (len t)))
            | DelKey k0 => k0
            end).
  unfold bindM. rewrite on_X_run.
  destruct (np_delete (_X t) k) as [x|] eqn:EX.
  2:{ intros H. injection H as _ <-. unfold same_rows. auto. }
  destruct (np_delete_rows k _ (_Y t) _ R1 EX) as (y & EY & LY).
  destruct (np_delete_rows k _ (_metas t) _ R2 EY) as (m & EM & LM).
  destruct (np_delete_rows k _ (_W t) _ R3 EM) as (w & EW & LW).
  rewrite on_Y_run. tsimpl. rewrite EY.
  rewrite on_metas_run. tsimpl. rewrite EM.
  rewrite on_W_run. tsimpl. rewrite EW.
  intros H. injection H as _ <-. unfold same_rows. simpl.
  split; [|split]; congruence.
Qed.

Lemma shuffle_keeps_rows (t t' : Table) (r : result unit) :
  same_rows t -> shuffle t = (r, t') -> same_rows t'.
Proof.
  intros (R1 & R2 & R3). unfold shuffle. rewrite bindM_get.
  set (ind := RList (shuffled_arange (shape0 (_X t)))).
  unfold bindM. rewrite on_X_run.
  destruct (getitem (_X t) ind) as [x|] eqn:EX.
  2:{ intros H. injection H as _ <-. unfold same_rows. auto. }
  destruct (getitem_rows ind _ (_Y t) _ R1 EX) as (y & EY & LY).
  destruct (getitem_rows ind _ (_metas t) _ R2 EY) as (m & EM & LM).
  destruct (getitem_rows ind _ (_W t) _ R3 EM) as (w & EW & LW).
  rewrite on_Y_run. tsimpl. rewrite EY.
  rewrite on_metas_run. tsimpl. rewrite EM.
  rewrite on_W_run. tsimpl. rewrite EW.
  intros H. injection H as _ <-. unfold same_rows. simpl.
  split; [|split]; congruence.
Qed.

(** The constructors other than [new_from_table] build tables whose four
    arrays have the same number of rows, and [extend], [insert], [del] and
    [shuffle] keep it so, whether they succeed or fail. *)
Lemma row_counts_kept (t : Table) :
  (forall d n weights, same_rows (new_from_domain d n weights)) /\
  (forall d X Y metas W t', new_from_numpy d X Y metas W = Ok t' ->
                            same_rows t') /\
  (same_rows t ->
   (forall sel t', new_from_table_rows t sel = Ok t' -> same_rows t') /\
   (forall key r t', delitem key t = (r, t') -> same_rows t') /\
   (forall r t', shuffle t = (r, t') -> same_rows t')) /\
  (wf_table t ->
   (forall examples r t', extend examples t = (r, t') -> same_rows t') /\
   (forall key value r t', insert key value t = (r, t') -> same_rows t')).
Proof.
  split; [|split; [|split]].
  - intros d n w. apply wf_table_same_rows, new_from_domain_wf.
  - intros d X Y metas W t'. apply new_from_numpy_rows.
  - intros R. split; [|split].
    + intros sel t'. now apply new_from_table_rows_rows.
    + intros key r t'. now apply delitem_keeps_rows.
    + intros r t'. now apply shuffle_keeps_rows.
  - intros Hwf. split.
    + intros examples r t' H.
      eapply wf_table_same_rows, extend_keeps_shape; eassumption.
    + intros key value r t' H.
      eapply wf_table_same_rows, insert_keeps_shape; eassumption.
Qed.

End RowCounts.

(** ** Ownership *)

Section Ownership.

(** [is_copy] never fails: it is the conjunction its source spells out, in
    which the feature array alone is excused when it has no columns. *)
Lemma is_copy_total (t : Table) :
  is_copy t =
  Ok ((zero_width (_X t) || owndata (_X t)) && owndata (_Y t) &&
      owndata (_metas t) && owndata (_W t)).
Proof.
  unfold is_copy, py_and, base_is_None.
  destruct (zero_width (_X t) || owndata (_X t)); [|reflexivity].
  destruct (owndata (_Y t)); [|reflexivity].
  destruct (owndata (_metas t)); reflexivity.
Qed.

(** [is_view] reads [self._weights], which no table has: it can only
    answer when one of its first three tests already fails. *)
Lemma is_view_raises (t : Table) :
  aliases_unless_empty (_X t) && aliases_unless_empty (_Y t) &&
  aliases_unless_empty (_metas t) = true ->
  is_view t = Raise AttributeError.
Proof.
  unfold is_view, py_and, aliases_unless_empty, base_is_None.
  rewrite !andb_true_iff. intros [[-> ->] ->]. reflexivity.
Qed.

(** C3, as the code has it.  [is_copy] returns a boolean and never fails:
    true exactly when the feature array is zero-width or owns its storage
    and the target, meta and weight arrays each own theirs.  [is_view]
    returns false whenever a non-empty feature, target or meta array owns
    its storage. *)
Theorem ownership_tests (t : Table) :
  is_copy t =
    Ok ((zero_width (_X t) || owndata (_X t)) && owndata (_Y t) &&
        owndata (_metas t) && owndata (_W t)) /\
  (aliases_unless_empty (_X t) && aliases_unless_empty (_Y t) &&
   aliases_unless_empty (_metas t) = false ->
   is_view t = Ok false).
Proof.
  split; [apply is_copy_total|].
  unfold is_view, py_and, aliases_unless_empty, base_is_None.
  destruct (zero_width (_X t) || negb (owndata (_X t))); [|reflexivity].
  destruct (zero_width (_Y t) || negb (owndata (_Y t))); [|reflexivity].
  destruct (zero_width (_metas t) || negb (owndata (_metas t)));
    [discriminate|reflexivity].
Qed.

End Ownership.

Lemma ownership_tests_witness :
  is_copy Sample.two_rows = Ok true /\ is_view Sample.two_rows = Ok false.
Proof.
  split.
  - exact (proj1 (ownership_tests Sample.two_rows)).
  - apply (proj2 (ownership_tests Sample.two_rows)). reflexivity.
Defined.

(** C3 as stated fails: [new_from_numpy] accepts a zero-width feature array
    that is a view; [is_copy] answers true for the table although that
    array does not own its storage. *)
Lemma is_copy_ignores_empty_features :
  new_from_numpy Sample.no_features Sample.empty_view
    (Some (_Y Sample.featureless)) None None = Ok Sample.featureless /\
  is_copy Sample.featureless = Ok true /\
  all_own Sample.featureless = false.
Proof. repeat split. Qed.

(** ** Gathering columns *)

(** C4 at the failing input: rows given as the list [0, 1], source columns
    [0, 1], both features.  The bulk read pairs the two lists and returns
    the one-dimensional [X[0, 0], X[1, 1]]; the loop returns the 2 by 2
    block. *)
Theorem bulk_read_pairs_rows_with_columns :
  let src_cols := [Conv.Index 0; Conv.Index 1] in
  _get_columns Sample.abc_rows (RList [0; 1]) src_cols (PInt 2) =
    Ok (vector true [Reference.num 1; Reference.num 5]) /\
  get_columns_loop Sample.abc_rows (RList [0; 1]) src_cols (PInt 2) =
    Ok (Reference.matrix 2 [[Reference.num 1; Reference.num 2];
                            [Reference.num 4; Reference.num 5]]) /\
  _get_columns Sample.abc_rows (RList [0; 1]) src_cols (PInt 2) <>
  get_columns_loop Sample.abc_rows (RList [0; 1]) src_cols (PInt 2).
Proof.
  repeat split. discriminate.
Qed.

(** With rows given as a slice or as Ellipsis the bulk read does return
    one row per selected row and one column per source column. *)
Lemma bulk_read_slice_shape (x : ndarray) (sel : row_sel) (cols : list Z)
  (a : ndarray) :
  is_basic sel = true ->
  getitem_cols x sel cols = Ok a ->
  ndim a = Dim2 /\ width a = length cols /\
  exists rs, pick sel (rows x) = Ok rs /\ length (rows a) = length rs.
Proof.
  intros Hsel. unfold getitem_cols. destruct (ndim x); [discriminate|].
  assert (Outer :
    (rs <- pick sel (rows x) ;;
     rs' <- mapM (fun r => mapM (item r) cols) rs ;;
     Ok (mk_ndarray true Dim2 (length cols) rs')) = Ok a ->
    ndim a = Dim2 /\ width a = length cols /\
    exists rs, pick sel (rows x) = Ok rs /\ length (rows a) = length rs).
  { destruct (pick sel (rows x)) as [rs|] eqn:E; [|discriminate].
    cbn [Py.bind].
    destruct (mapM _ rs) as [rs'|] eqn:E'; [|discriminate].
    cbn [Py.bind]. intros H. injection H as <-. simpl.
    repeat split. exists rs. split; [reflexivity|].
    eapply mapM_length; eassumption. }
  destruct sel; try discriminate; exact Outer.
Qed.

(** ** The row-count invariant *)

(** C1 at the failing input: one row, given as the list [0], of a table
    with three features, under a domain that lists the features in reverse.
    The bulk read broadcasts the row list against the three columns, so the
    new table's [X] has three rows where [Y], [metas] and [W] have one. *)
Theorem new_from_table_breaks_row_count :
  exists t,
    new_from_table Sample.cba Sample.abc_rows (RList [0]) = Ok t /\
    shape0 (_X t) = 3%nat /\ shape0 (_Y t) = 1%nat /\
    shape0 (_metas t) = 1%nat /\ shape0 (_W t) = 1%nat /\
    ~ same_rows t.
Proof.
  eexists. split; [vm_compute; reflexivity|].
  repeat split. intros [H _]. discriminate H.
Qed.

(** ** The scenario *)


Section FilterNaturality.

Context {dom : DomainOps} {rt : Runtime}.

Local Open Scope nat_scope.

Lemma inplace2_select {A B : Type} (f : A -> B -> A) (m : list bool)
  (a : list A) (b : list B) (r : list A) :
  length a = length m -> length b = length m ->
  inplace2 f a b = Ok r ->
  inplace2 f (select m a) (select m b) = Ok (select m r) /\
  length r = length m.
Proof.
  intros Ha Hb. unfold inplace2.
  rewrite (select_length_eq m a b Ha Hb), Nat.eqb_refl.
  rewrite Ha, Hb, Nat.eqb_refl.
  intros H. injection H as <-. split.
  - now rewrite select_map, select_combine.
  - rewrite length_map, length_combine. lia.
Qed.

Lemma binop2_select {A B C : Type} (f : A -> B -> C) (m : list bool)
  (a : list A) (b : list B) (r : list C) :
  length a = length m -> length b = length m ->
  binop2 f a b = Ok r ->
  binop2 f (select m a) (select m b) = Ok (select m r) /\
  length r = length m.
Proof.
  intros Ha Hb. unfold binop2.
  rewrite (select_length_eq m a b Ha Hb), Nat.eqb_refl.
  rewrite Ha, Hb, Nat.eqb_refl.
  intros H. injection H as <-. split.
  - now rewrite select_map, select_combine.
  - rewrite length_map, length_combine. lia.
Qed.

Lemma pick_all_rows {A : Type} (l : list A) : pick all_rows l = Ok l.
Proof.
  unfold all_rows. rewrite pick_unit_slice. f_equal.
  unfold slice_bounds, slice_indices. cbn [step start stop].
  change (1 =? 0)%Z with false. change (1 <? 0)%Z with false. cbv iota.
  rewrite Z.max_r by lia. rewrite Nat2Z.id. change (Z.to_nat 0) with 0.
  rewrite Nat.sub_0_r. cbn [skipn]. apply firstn_all.
Qed.

Lemma concat_singletons {A : Type} (l : list A) :
  concat (map (fun x => [x]) l) = l.
Proof. induction l; simpl; congruence. Qed.

Lemma column_run (a : ndarray) (c : Z) :
  column a c = match ndim a with
               | Dim1 => Raise IndexError
               | Dim2 => mapM (fun r => item r c) (rows a)
               end.
Proof.
  unfold column, getitem_col. destruct (ndim a); [reflexivity|].
  rewrite pick_all_rows. cbn [Py.bind].
  destruct (mapM _ (rows a)) as [v|]; [|reflexivity].
  cbn [Py.bind vector rows]. now rewrite concat_singletons.
Qed.

Lemma column_select (m : list bool) (a : ndarray) (c : Z) (col : list cell) :
  length (rows a) = length m ->
  column a c = Ok col ->
  column (selected_array m a) c = Ok (select m col) /\
  length col = length m.
Proof.
  intros Hlen. rewrite !column_run. cbn [selected_array ndim rows].
  destruct (ndim a); [discriminate|].
  intros H. split; [now apply mapM_select|].
  apply mapM_length in H. congruence.
Qed.

Lemma get_column_view_select (m : list bool) (t : Table) (pos : colkey)
  (col : list cell) :
  fits m t ->
  get_column_view t pos = Ok col ->
  get_column_view (selected m t) pos = Ok (select m col) /\
  length col = length m.
Proof.
  intros (FX & FY & FM & FW). unfold get_column_view.
  cbn [selected map_arrays domain _X _Y _metas].
  destruct (match pos with KInt i => Ok i | _ => domain_index (domain t) pos end)
    as [index|]; [|discriminate].
  cbn [Py.bind].
  destruct (0 <=? index)%Z.
  - unfold shape1. cbn [selected_array ndim width].
    destruct (ndim (_X t)); [discriminate|]. cbn [Py.bind].
    destruct (index <? Z.of_nat (width (_X t)))%Z; now apply column_select.
  - now apply column_select.
Qed.

Lemma coerce_selected (m : list bool) (t : Table) (pos : colkey) (v : cell) :
  coerce (selected m t) pos v = coerce t pos v.
Proof. reflexivity. Qed.

Lemma count_equal_select (m : list bool) (t : Table) (pos : colkey)
  (col values : list cell) (s2 r : list nat) :
  length col = length m -> length s2 = length m ->
  count_equal t pos col values s2 = Ok r ->
  count_equal (selected m t) pos (select m col) values (select m s2) =
    Ok (select m r) /\
  length r = length m.
Proof.
  intros Hcol. revert s2. induction values as [|val rest IH]; intros s2 Hs2.
  - simpl. intros H. injection H as <-. auto.
  - simpl. rewrite coerce_selected.
    destruct (coerce t pos val) as [v|]; [|discriminate]. cbn [Py.bind].
    destruct (inplace2 _ s2 _) as [s2'|] eqn:E; [|discriminate].
    cbn [Py.bind]. intros H.
    apply (inplace2_select _ m) in E as [E L];
      [|assumption|now rewrite length_map].
    rewrite select_map in E. rewrite E. cbn [Py.bind].
    now apply IH.
Qed.

Lemma add_equal_select (m : list bool) (t : Table) (pos : colkey)
  (col values : list cell) (sel r : list bool) :
  length col = length m -> length sel = length m ->
  add_equal t pos col values sel = Ok r ->
  add_equal (selected m t) pos (select m col) values (select m sel) =
    Ok (select m r) /\
  length r = length m.
Proof.
  intros Hcol. revert sel. induction values as [|val rest IH]; intros sel Hs.
  - simpl. intros H. injection H as <-. auto.
  - simpl. rewrite coerce_selected.
    destruct (coerce t pos val) as [v|]; [|discriminate]. cbn [Py.bind].
    destruct (inplace2 _ sel _) as [sel'|] eqn:E; [|discriminate].
    cbn [Py.bind]. intros H.
    apply (inplace2_select _ m) in E as [E L];
      [|assumption|now rewrite length_map].
    rewrite select_map in E. rewrite E. cbn [Py.bind].
    now apply IH.
Qed.

Lemma reduce_equal_select (m : list bool) (col : list cell)
  (vals : list string) (acc r : list bool) :
  length col = length m -> length acc = length m ->
  reduce_equal col vals acc = Ok r ->
  reduce_equal (select m col) vals (select m acc) = Ok (select m r) /\
  length r = length m.
Proof.
  intros Hcol. revert acc. induction vals as [|val rest IH]; intros acc Ha.
  - simpl. intros H. injection H as <-. auto.
  - simpl.
    destruct (binop2 _ acc _) as [acc'|] eqn:E; [|discriminate].
    cbn [Py.bind]. intros H.
    apply (binop2_select _ m) in E as [E L];
      [|assumption|now rewrite length_map].
    rewrite select_map in E. rewrite E. cbn [Py.bind].
    now apply IH.
Qed.

Lemma mapM_select_length {A B : Type} (f : A -> result B) (m : list bool)
  (l : list A) (l' : list B) :
  length l = length m -> mapM f l = Ok l' ->
  mapM f (select m l) = Ok (select m l') /\ length l' = length m.
Proof.
  intros Hl H. split; [now apply mapM_select|].
  apply mapM_length in H. congruence.
Qed.

Lemma compare_column_select (m : list bool) (is_string : bool)
  (oper : Operator) (col : list cell) (fmin fmax : cell) (r : list bool) :
  length col = length m ->
  compare_column is_string oper col fmin fmax = Ok r ->
  compare_column is_string oper (select m col) fmin fmax = Ok (select m r) /\
  length r = length m.
Proof.
  intros Hcol. unfold compare_column.
  destruct oper;
    try (intros H; injection H as <-;
         split; [now rewrite select_map|now rewrite length_map]);
    try (now apply mapM_select_length);
    try (destruct is_string; [now apply mapM_select_length|discriminate]);
    try discriminate.
  - destruct (mapM (fun c => cell_le fmin c) col) as [lo|] eqn:E1;
      [|discriminate]. cbn [Py.bind].
    destruct (mapM (fun c => cell_le c fmax) col) as [hi|] eqn:E2;
      [|discriminate]. cbn [Py.bind].
    apply (mapM_select_length _ m) in E1 as [E1 L1]; [|assumption].
    apply (mapM_select_length _ m) in E2 as [E2 L2]; [|assumption].
    rewrite E1, E2. cbn [Py.bind]. now apply binop2_select.
  - destruct (mapM (fun c => cell_lt c fmin) col) as [lo|] eqn:E1;
      [|discriminate]. cbn [Py.bind].
    destruct (mapM (fun c => cell_lt fmax c) col) as [hi|] eqn:E2;
      [|discriminate]. cbn [Py.bind].
    apply (mapM_select_length _ m) in E1 as [E1 L1]; [|assumption].
    apply (mapM_select_length _ m) in E2 as [E2 L2]; [|assumption].
    rewrite E1, E2. cbn [Py.bind]. now apply binop2_select.
Qed.

Lemma len_selected (m : list bool) (t : Table) :
  fits m t -> len (selected m t) = length (select m m).
Proof.
  intros (FX & _). unfold len, shape0. cbn [selected map_arrays _X selected_array rows].
  now apply select_length_eq.
Qed.

Lemma apply_condition_select (m : list bool) (t : Table) (conjunction : bool)
  (f : condition) (sel r : list bool) :
  fits m t -> length sel = length m ->
  apply_condition t conjunction f sel = Ok r ->
  apply_condition (selected m t) conjunction f (select m sel) =
    Ok (select m r) /\
  length r = length m.
Proof.
  intros Hfit Hsel. unfold apply_condition.
  destruct f as [pos values|pos values cs|pos oper fmin fmax
                |pos oper fmin fmax cs|pos|]; try discriminate.
  - (* FilterDiscrete *)
    destruct (get_column_view t pos) as [col|] eqn:Ecol; [|discriminate].
    apply (get_column_view_select m) in Ecol as [Ecol Lcol]; [|assumption].
    rewrite Ecol. cbn [Py.bind].
    destruct conjunction; [|now apply add_equal_select].
    rewrite (len_selected m t Hfit).
    destruct (count_equal t pos col values _) as [s2|] eqn:E; [|discriminate].
    cbn [Py.bind].
    replace (len t) with (length m) in E
      by (destruct Hfit as (FX & _); unfold len, shape0; now rewrite FX).
    apply (count_equal_select m) in E as [E L];
      [|assumption|apply repeat_length].
    rewrite select_repeat in E. rewrite E. cbn [Py.bind].
    destruct unsafe_inplace_cast; [|discriminate].
    now apply inplace2_select.
  - (* FilterStringList *)
    destruct (get_column_view t pos) as [col|] eqn:Ecol; [|discriminate].
    apply (get_column_view_select m) in Ecol as [Ecol Lcol]; [|assumption].
    rewrite Ecol. cbn [Py.bind].
    assert (Hlow : (if negb cs then lower_column (select m col)
                    else select m col) =
                   select m (if negb cs then lower_column col else col)).
    { destruct (negb cs); [|reflexivity].
      unfold lower_column. now rewrite select_map. }
    rewrite Hlow.
    set (col' := if negb cs then lower_column col else col).
    assert (Lcol' : length col' = length m).
    { unfold col'. destruct (negb cs); [|assumption].
      unfold lower_column. now rewrite length_map. }
    destruct conjunction; [|now apply reduce_equal_select].
    destruct (if negb cs then map lower values else values) as [|val rest];
      [discriminate|].
    destruct (reduce_equal col' rest _) as [s|] eqn:E; [|discriminate].
    cbn [Py.bind].
    apply (reduce_equal_select m) in E as [E L];
      [|assumption|now rewrite length_map].
    rewrite select_map in E. rewrite E. cbn [Py.bind].
    now apply inplace2_select.
  - (* FilterContinuous *)
    destruct (get_column_view t pos) as [col|] eqn:Ecol; [|discriminate].
    apply (get_column_view_select m) in Ecol as [Ecol Lcol]; [|assumption].
    rewrite Ecol. cbn [Py.bind].
    destruct (compare_column false oper col fmin fmax) as [c|] eqn:E;
      [|discriminate]. cbn [Py.bind].
    apply (compare_column_select m) in E as [E L]; [|assumption].
    rewrite E. cbn [Py.bind].
    destruct conjunction; now apply inplace2_select.
  - (* FilterString *)
    destruct (get_column_view t pos) as [col|] eqn:Ecol; [|discriminate].
    apply (get_column_view_select m) in Ecol as [Ecol Lcol]; [|assumption].
    rewrite Ecol. cbn [Py.bind].
    destruct (negb cs).
    + destruct (lower_operand fmin) as [lo|]; [|discriminate]. cbn [Py.bind].
      destruct (match oper with
                | Between | Outside => lower_operand fmax
                | _ => Ok fmax
                end) as [hi|]; [|discriminate]. cbn [Py.bind].
      destruct (compare_column true oper (lower_column col) lo hi)
        as [c|] eqn:E; [|discriminate]. cbn [Py.bind].
      apply (compare_column_select m) in E as [E L];
        [|unfold lower_column; now rewrite length_map].
      unfold lower_column in E |- *. rewrite select_map in E.
      rewrite E. cbn [Py.bind].
      destruct conjunction; now apply inplace2_select.
    + cbn [Py.bind].
      destruct (compare_column true oper col fmin fmax) as [c|] eqn:E;
        [|discriminate]. cbn [Py.bind].
      apply (compare_column_select m) in E as [E L]; [|assumption].
      rewrite E. cbn [Py.bind].
      destruct conjunction; now apply inplace2_select.
  - (* OtherCondition *)
    destruct (get_column_view t pos); discriminate.
Qed.

Lemma apply_conditions_select (m : list bool) (t : Table) (conjunction : bool)
  (conditions : list condition) (sel r : list bool) :
  fits m t -> length sel = length m ->
  apply_conditions t conjunction conditions sel = Ok r ->
  apply_conditions (selected m t) conjunction conditions (select m sel) =
    Ok (select m r) /\
  length r = length m.
Proof.
  intros Hfit. revert sel.
  induction conditions as [|f rest IH]; intros sel Hsel; simpl.
  - intros H. injection H as <-. auto.
  - destruct (apply_condition t conjunction f sel) as [sel'|] eqn:E;
      [|discriminate]. cbn [Py.bind]. intros H.
    apply (apply_condition_select m) in E as [E L]; auto.
    rewrite E. cbn [Py.bind]. now apply IH.
Qed.

Lemma getitem_mask (m : list bool) (a a' : ndarray) :
  getitem a (RMask m) = Ok a' ->
  length (rows a) = length m /\ a' = selected_array m a.
Proof.
  unfold getitem, pick.
  destruct (Nat.eqb_spec (length m) (length (rows a))); [|discriminate].
  cbn [Py.bind is_basic negb]. intros H. injection H as <-. auto.
Qed.

Lemma getitem_mask_fits (m : list bool) (a : ndarray) :
  length (rows a) = length m ->
  getitem a (RMask m) = Ok (selected_array m a).
Proof.
  intros H. unfold getitem, pick. rewrite H, Nat.eqb_refl. reflexivity.
Qed.

Lemma new_from_table_rows_mask (m : list bool) (t t' : Table) :
  new_from_table_rows t (RMask m) = Ok t' ->
  fits m t /\ t' = selected m t.
Proof.
  unfold new_from_table_rows.
  destruct (getitem (_X t) _) as [x|] eqn:EX; [|discriminate].
  destruct (getitem (_Y t) _) as [y|] eqn:EY; [|discriminate].
  destruct (getitem (_metas t) _) as [ms|] eqn:EM; [|discriminate].
  destruct (getitem (_W t) _) as [w|] eqn:EW; [|discriminate].
  cbn [Py.bind]. intros H. injection H as <-.
  apply getitem_mask in EX as [LX ->], EY as [LY ->].
  apply getitem_mask in EM as [LM ->], EW as [LW ->].
  unfold fits. auto.
Qed.

Lemma new_from_table_rows_fits (m : list bool) (t : Table) :
  fits m t -> new_from_table_rows t (RMask m) = Ok (selected m t).
Proof.
  intros (FX & FY & FM & FW). unfold new_from_table_rows.
  now rewrite !getitem_mask_fits.
Qed.

(** Selecting every row of a table that a mask produced gives that table
    again. *)
Lemma selected_all (m : list bool) (t : Table) :
  fits m t ->
  selected (repeat true (length (select m m))) (selected m t) = selected m t.
Proof.
  intros (FX & FY & FM & FW).
  unfold selected, map_arrays, selected_array.
  cbn [_X _Y _metas _W domain ndim width rows].
  rewrite (select_length_eq m m (rows (_X t))) at 1 by auto.
  rewrite (select_length_eq m m (rows (_Y t))) at 1 by auto.
  rewrite (select_length_eq m m (rows (_metas t))) at 1 by auto.
  rewrite (select_length_eq m m (rows (_W t))) at 1 by auto.
  now rewrite !select_all.
Qed.

Lemma selected_fits (m : list bool) (t : Table) :
  fits m t -> fits (select m m) (selected m t).
Proof.
  intros (FX & FY & FM & FW). unfold fits, selected, map_arrays.
  cbn [_X _Y _metas _W selected_array rows].
  repeat split; now apply select_length_eq.
Qed.

(** C9.  Filtering the result of [filter_values] with the same filter
    selects every row of it: the second result is the first. *)
Theorem filter_values_idempotent (self : Table) (filt : filter_t)
  (once : Table) :
  filter_values self filt = Ok once ->
  filter_values once filt = Ok once.
Proof.
  unfold filter_values.
  destruct (filter_mask self filt) as [sel|] eqn:Emask; [|discriminate].
  cbn [Py.bind]. intros Hrows.
  apply new_from_table_rows_mask in Hrows as [Hfit ->].
  assert (Hlen : len self = length sel).
  { destruct Hfit as (FX & _). exact FX. }
  assert (Hmask : filter_mask (selected sel self) filt = Ok (select sel sel)).
  { unfold filter_mask in *.
    destruct (match filt with
              | Values conditions conjunction => (conditions, conjunction)
              | Single f => ([f], true)
              end) as [conditions conjunction].
    rewrite (len_selected sel self Hfit), <- select_repeat, <- Hlen.
    eapply apply_conditions_select; eauto.
    now rewrite repeat_length. }
  rewrite Hmask. cbn [Py.bind].
  rewrite new_from_table_rows_fits by now apply selected_fits.
  f_equal. rewrite select_self. now apply selected_all.
Qed.

End FilterNaturality.

Lemma filter_values_idempotent_witness :
  exists once,
    filter_values Sample.scenario Sample.f_above_1_5 = Ok once /\
    len once = 2%nat /\
    filter_values once Sample.f_above_1_5 = Ok once.
Proof.
  eexists. split; [vm_compute; reflexivity|]. split; [reflexivity|].
  apply (filter_values_idempotent Sample.scenario).
  vm_compute. reflexivity.
Defined.

(** ** Random selection *)

Section RandomSelection.

Context {dom : DomainOps} {rt : Runtime}.

Local Open Scope nat_scope.















End RandomSelection.



(** ** Inferring the domain *)

Section AnonymousDomain.

Local Open Scope Z_scope.

Lemma fle_Fin (a b : Q) : fle (Fin a) (Fin b) = true <-> (a <= b)%Q.
Proof.
  unfold fle, flt, feq. rewrite orb_true_iff, negb_true_iff.
  rewrite Qeq_bool_iff. split.
  - intros [H|H].
    + apply Qlt_le_weak, Qnot_le_lt. intros Hle.
      apply Qle_bool_iff in Hle. congruence.
    + rewrite H. apply Qle_refl.
  - intros H. destruct (Qle_bool b a) eqn:E; [|now left].
    right. apply Qle_bool_iff in E. now apply Qle_antisym.
Qed.

Lemma Qtrunc_whole (q : Q) (z : Z) : (q == inject_Z z)%Q -> Qtrunc q = z.
Proof.
  intros H. unfold Qtrunc.
  destruct (Qle_bool 0 q).
  - rewrite H. apply Qfloor_Z.
  - rewrite H. apply Qceiling_Z.
Qed.

(** The test the source makes on one value says that the value is a whole
    number between 0 and 19. *)
Lemma small_whole_test (x : pyfloat) :
  (exists i, int_of_float x = Ok i /\
             feq (of_Z i) x && (fle (of_Z 0) x && fle x (of_Z 19)) = true)
  <-> small_whole_float x.
Proof.
  split.
  - intros (i & Hi & Ht). destruct x as [q| |]; try discriminate.
    simpl in Hi. injection Hi as <-.
    apply andb_true_iff in Ht as [He Hr].
    apply andb_true_iff in Hr as [Hlo Hhi].
    unfold of_Z in *. apply fle_Fin in Hlo, Hhi.
    simpl in He. apply Qeq_bool_iff in He.
    exists q, (Qtrunc q). split; [reflexivity|]. split; [now symmetry|].
    rewrite <- He in Hlo, Hhi.
    rewrite <- Zle_Qle in Hlo, Hhi. lia.
  - intros (q & z & -> & Hq & Hz). exists z. simpl.
    rewrite (Qtrunc_whole q z Hq). split; [reflexivity|].
    unfold of_Z. rewrite !andb_true_iff. repeat split.
    + apply Qeq_bool_iff. now symmetry.
    + apply fle_Fin. rewrite Hq, <- Zle_Qle. lia.
    + apply fle_Fin. rewrite Hq, <- Zle_Qle. lia.
Qed.

Lemma all_small_whole_true (l : list pyfloat) :
  all_small_whole l = Ok true <-> Forall small_whole_float l.
Proof.
  induction l as [|x l IH]; cbn [all_small_whole].
  - split; auto.
  - split.
    + intros H.
      destruct (int_of_float x) as [i|] eqn:Hi; [|discriminate].
      cbn [Py.bind] in H.
      destruct (feq (of_Z i) x && _) eqn:Ht; [|discriminate].
      constructor; [|now apply IH].
      apply small_whole_test. eauto.
    + intros H. inversion H as [|? ? Hx Hl]; subst.
      apply small_whole_test in Hx as (i & Hi & Ht).
      rewrite Hi. cbn [Py.bind]. rewrite Ht. now apply IH.
Qed.

Lemma small_whole_feq (x y : pyfloat) :
  feq x y = true -> small_whole_float y -> small_whole_float x.
Proof.
  intros He (q & z & -> & Hq & Hz).
  destruct x as [p| |]; try discriminate.
  simpl in He. apply Qeq_bool_iff in He.
  exists p, z. repeat split; try lia. now rewrite He.
Qed.

Lemma insert_unique_in (x u : pyfloat) (l : list pyfloat) :
  In u (insert_unique x l) -> u = x \/ In u l.
Proof.
  induction l as [|y l IH]; simpl.
  - intros [H|[]]; auto.
  - destruct (feq x y); [simpl; tauto|].
    destruct (flt x y); simpl; [intuition|].
    intros [H|H]; [auto|]. apply IH in H. tauto.
Qed.

Lemma insert_unique_keeps (x u : pyfloat) (l : list pyfloat) :
  In u l -> In u (insert_unique x l).
Proof.
  induction l as [|y l IH]; simpl; [tauto|].
  destruct (feq x y); [auto|].
  destruct (flt x y); simpl; [auto|].
  intros [H|H]; auto.
Qed.

Lemma insert_unique_has (x : pyfloat) (l : list pyfloat) :
  exists u, In u (insert_unique x l) /\ (u = x \/ feq x u = true).
Proof.
  induction l as [|y l IH]; simpl.
  - exists x. auto.
  - destruct (feq x y) eqn:E; [exists y; simpl; auto|].
    destruct (flt x y); [exists x; simpl; auto|].
    destruct IH as (u & Hu & H). exists u. simpl. auto.
Qed.

Lemma np_unique_sub (u : pyfloat) (v : list pyfloat) :
  In u (np_unique v) -> In u v.
Proof.
  induction v as [|x v IH]; simpl; [tauto|].
  intros H. apply insert_unique_in in H. intuition.
Qed.

Lemma np_unique_covers (x : pyfloat) (v : list pyfloat) :
  In x v -> exists u, In u (np_unique v) /\ (u = x \/ feq x u = true).
Proof.
  induction v as [|y v IH]; simpl; [tauto|].
  intros [->|H].
  - apply insert_unique_has.
  - destruct (IH H) as (u & Hu & Hx). exists u.
    split; [now apply insert_unique_keeps|assumption].
Qed.

Lemma np_unique_small_whole (v : list pyfloat) :
  Forall small_whole_float (np_unique v) <-> Forall small_whole_float v.
Proof.
  rewrite !Forall_forall. split; intros H x Hx.
  - destruct (np_unique_covers x v Hx) as (u & Hu & [->|He]); auto.
    eapply small_whole_feq; eauto.
  - apply H. now apply np_unique_sub.
Qed.

Lemma fmin2_small (a b : pyfloat) :
  small_whole_float a -> small_whole_float b -> small_whole_float (fmin2 a b).
Proof.
  intros Ha Hb. unfold fmin2.
  destruct Ha as (q & z & -> & Hq & Hz), Hb as (q' & z' & -> & Hq' & Hz').
  simpl. destruct (negb (Qle_bool q q')); [exists q', z'|exists q, z]; auto.
Qed.

Lemma fmax2_small (a b : pyfloat) :
  small_whole_float a -> small_whole_float b -> small_whole_float (fmax2 a b).
Proof.
  intros Ha Hb. unfold fmax2.
  destruct Ha as (q & z & -> & Hq & Hz), Hb as (q' & z' & -> & Hq' & Hz').
  simpl. destruct (negb (Qle_bool q' q)); [exists q', z'|exists q, z]; auto.
Qed.

Lemma fold_small (f : pyfloat -> pyfloat -> pyfloat) (l : list pyfloat)
  (a : pyfloat) :
  (forall x y, small_whole_float x -> small_whole_float y ->
               small_whole_float (f x y)) ->
  small_whole_float a -> Forall small_whole_float l ->
  small_whole_float (fold_left f l a).
Proof.
  intros Hf Ha Hl. revert a Ha.
  induction Hl as [|x l Hx _ IH]; simpl; auto.
Qed.

Lemma small_whole_range (x : pyfloat) :
  small_whole_float x ->
  fle (of_Z 0) x = true /\ fle x (of_Z 20) = true.
Proof.
  intros (q & z & -> & Hq & Hz). unfold of_Z.
  split; apply fle_Fin; rewrite Hq, <- Zle_Qle; lia.
Qed.

Lemma mapM_as_float (col : list cell) (v : list pyfloat) :
  mapM as_float col = Ok v -> col = map CNum v.
Proof.
  revert v. induction col as [|c col IH]; simpl; intros v H.
  - now injection H as <-.
  - destruct c as [x| |]; try discriminate. cbn [as_float Py.bind] in H.
    destruct (mapM as_float col) as [v'|]; [|discriminate].
    cbn [Py.bind] in H. injection H as <-. simpl. f_equal. now apply IH.
Qed.

Lemma small_whole_cells (v : list pyfloat) :
  Forall small_whole (map CNum v) <-> Forall small_whole_float v.
Proof.
  rewrite Forall_map. split; apply Forall_impl; intros x.
  - intros (y & E & H). now injection E as ->.
  - intros H. exists x. auto.
Qed.

Lemma np_min_small (v : list pyfloat) (mn : pyfloat) :
  Forall small_whole_float v -> np_min v = Ok mn -> small_whole_float mn.
Proof.
  intros H. destruct v as [|x v]; [discriminate|]. simpl.
  intros E. injection E as <-. inversion H; subst.
  apply fold_small; auto using fmin2_small.
Qed.

Lemma np_max_small (v : list pyfloat) (mx : pyfloat) :
  Forall small_whole_float v -> np_max v = Ok mx -> small_whole_float mx.
Proof.
  intros H. destruct v as [|x v]; [discriminate|]. simpl.
  intros E. injection E as <-. inversion H; subst.
  apply fold_small; auto using fmax2_small.
Qed.

(** The variable inferred for a column is discrete exactly when every
    value of the column is a whole number between 0 and 19; it is named
    after the position of the column. *)
Lemma class_var_for_spec (i : nat) (class_ : list cell) (v : variable) :
  class_var_for i class_ = Ok v ->
  (is_discrete v <-> Forall small_whole class_) /\
  (is_discrete v ->
   exists values,
     v = DiscreteVariable ("Class " ++ fmt_i (i + 1))%string values) /\
  (~ is_discrete v ->
   v = ContinuousVariable ("Target " ++ fmt_i (i + 1))%string).
Proof.
  unfold class_var_for.
  destruct (mapM as_float class_) as [col|] eqn:Ecol; [|discriminate].
  apply mapM_as_float in Ecol. subst class_. cbn [Py.bind].
  rewrite small_whole_cells.
  destruct (np_min col) as [mn|] eqn:Emn; [|discriminate]. cbn [Py.bind].
  destruct (np_max col) as [mx|] eqn:Emx; [|discriminate]. cbn [Py.bind].
  assert (Cont : forall w,
    ~ Forall small_whole_float col ->
    Ok (ContinuousVariable ("Target " ++ fmt_i (i + 1))%string) = Ok w ->
    (is_discrete w <-> Forall small_whole_float col) /\
    (is_discrete w ->
     exists values,
       w = DiscreteVariable ("Class " ++ fmt_i (i + 1))%string values) /\
    (~ is_discrete w ->
     w = ContinuousVariable ("Target " ++ fmt_i (i + 1))%string)).
  { intros w Hn E. injection E as <-. simpl.
    split; [tauto|]. split; [intros []|reflexivity]. }
  destruct (fle (of_Z 0) mn && fle mx (of_Z 20)) eqn:Hguard.
  - destruct (all_small_whole (np_unique col)) as [[|]|] eqn:Esmall;
      try discriminate; cbn [Py.bind].
    + apply (proj1 (all_small_whole_true _)) in Esmall.
      apply (proj1 (np_unique_small_whole col)) in Esmall.
      destruct (int_of_float mx) as [m|]; [|discriminate]. cbn [Py.bind].
      intros E. injection E as <-. simpl. split; [tauto|].
      split; [eauto|intros H; now destruct H].
    + apply Cont. intros H.
      apply (proj2 (np_unique_small_whole col)) in H.
      apply (proj2 (all_small_whole_true _)) in H. congruence.
  - apply Cont. intros H.
    apply (np_min_small _ _ H) in Emn. apply (np_max_small _ _ H) in Emx.
    apply small_whole_range in Emn as [Hlo _], Emx as [_ Hhi].
    rewrite Hlo, Hhi in Hguard. discriminate.
Qed.

Lemma class_vars_for_spec (i : nat) (columns : list (list cell))
  (vs : list variable) :
  class_vars_for i columns = Ok vs ->
  length vs = length columns /\
  forall j class_ v,
    nth_error columns j = Some class_ -> nth_error vs j = Some v ->
    class_var_for (i + j) class_ = Ok v.
Proof.
  revert i vs. induction columns as [|c columns IH]; intros i vs; simpl.
  - intros E. injection E as <-. split; [reflexivity|].
    intros [|j]; discriminate.
  - destruct (class_var_for i c) as [v0|] eqn:E0; [|discriminate].
    cbn [Py.bind].
    destruct (class_vars_for (S i) columns) as [vs0|] eqn:E1; [|discriminate].
    cbn [Py.bind]. intros E. injection E as <-.
    destruct (IH _ _ E1) as [Hlen Hnth].
    split; [simpl; congruence|].
    intros [|j] class_ v; simpl.
    + intros H1 H2. injection H1 as <-. injection H2 as <-.
      now rewrite Nat.add_0_r.
    + intros H1 H2. replace (i + S j)%nat with (S i + j)%nat by lia.
      now apply Hnth.
Qed.

(** What an inferred domain looks like. *)
Lemma anonymous_domain_shape (X : ndarray) (Y metas : option ndarray)
  (d : Domain) :
  create_anonymous_domain X Y metas = Ok d ->
  Dom.attributes d =
    map (fun a => ContinuousVariable ("Feature " ++ fmt_i (a + 1))%string)
      (seq 0 (width X)) /\
  (Y = None -> Dom.class_vars d = []) /\
  (forall targets, Y = Some targets ->
     length (Dom.class_vars d) = length (transposed targets) /\
     forall j class_ v,
       nth_error (transposed targets) j = Some class_ ->
       nth_error (Dom.class_vars d) j = Some v ->
       (is_discrete v <-> Forall small_whole class_) /\
       (is_discrete v ->
        exists values,
          v = DiscreteVariable ("Class " ++ fmt_i (j + 1))%string values) /\
       (~ is_discrete v ->
        v = ContinuousVariable ("Target " ++ fmt_i (j + 1))%string)).
Proof.
  unfold create_anonymous_domain, shape1.
  destruct (ndim X); [discriminate|]. cbn [Py.bind].
  destruct (match Y with
            | Some Y0 => class_vars_for 0 (transposed Y0)
            | None => Ok []
            end) as [cvs|] eqn:Ecv; [|discriminate].
  cbn [Py.bind].
  destruct (match metas with Some _ => _ | None => _ end) as [mvs|];
    [|discriminate].
  cbn [Py.bind]. intros E. injection E as <-. simpl.
  split; [reflexivity|]. split.
  - intros ->. now injection Ecv as <-.
  - intros targets ->.
    destruct (class_vars_for_spec _ _ _ Ecv) as [Hlen Hnth].
    split; [assumption|].
    intros j class_ v H1 H2.
    apply (class_var_for_spec j). exact (Hnth j class_ v H1 H2).
Qed.


(** *** The inference succeeds on numeric arrays *)

Lemma fmin2_low_bad (a b : pyfloat) :
  low_bad a = true \/ low_bad b = true -> low_bad (fmin2 a b) = true.
Proof.
  destruct a as [p|[|]|], b as [q|[|]|]; simpl; intros [H|H];
    try discriminate; try reflexivity;
    destruct (negb (Qle_bool q p)); auto.
Qed.

Lemma fmax2_high_bad (a b : pyfloat) :
  high_bad a = true \/ high_bad b = true -> high_bad (fmax2 a b) = true.
Proof.
  destruct a as [p|[|]|], b as [q|[|]|]; simpl; intros [H|H];
    try discriminate; try reflexivity;
    destruct (negb (Qle_bool q p)); auto.
Qed.

(** A fold that is not dragged away saw nothing that drags. *)
Lemma fold_not_bad (f : pyfloat -> pyfloat -> pyfloat) (bad : pyfloat -> bool)
  (l : list pyfloat) (a : pyfloat) :
  (forall x y, bad x = true \/ bad y = true -> bad (f x y) = true) ->
  bad (fold_left f l a) = false ->
  bad a = false /\ Forall (fun x => bad x = false) l.
Proof.
  intros Hf. revert a. induction l as [|x l IH]; intros a; simpl.
  - auto.
  - intros H. destruct (IH _ H) as [H1 H2].
    destruct (bad a) eqn:Ea.
    { rewrite Hf in H1 by auto. discriminate. }
    destruct (bad x) eqn:Ex.
    { rewrite Hf in H1 by auto. discriminate. }
    auto.
Qed.

Lemma fold_max_nan (l : list pyfloat) : fold_left fmax2 l NaN = NaN.
Proof. induction l; simpl; auto. Qed.

Lemma fmax2_keeps_up (a b : pyfloat) :
  low_bad a = false -> fmax2 a b = NaN \/ low_bad (fmax2 a b) = false.
Proof.
  destruct a as [p|[|]|], b as [q|[|]|]; intros H; try discriminate;
    unfold fmax2; simpl; auto;
    destruct (negb (Qle_bool q p)); auto.
Qed.

Lemma fold_max_up (l : list pyfloat) (a : pyfloat) :
  low_bad a = false ->
  fold_left fmax2 l a = NaN \/ low_bad (fold_left fmax2 l a) = false.
Proof.
  revert a. induction l as [|x l IH]; intros a H; simpl; auto.
  destruct (fmax2_keeps_up a x H) as [E|E].
  - rewrite E. left. apply fold_max_nan.
  - now apply IH.
Qed.

Lemma finite_iff (x : pyfloat) :
  finite x = true <-> low_bad x = false /\ high_bad x = false.
Proof. destruct x as [q|[|]|]; simpl; intuition congruence. Qed.

Lemma all_small_whole_finite (l : list pyfloat) :
  Forall (fun x => finite x = true) l -> exists b, all_small_whole l = Ok b.
Proof.
  induction 1 as [|x l Hx _ [b IH]]; cbn [all_small_whole]; eauto.
  destruct x as [q| |]; try discriminate. cbn [int_of_float Py.bind].
  destruct (_ && _); eauto.
Qed.

Lemma mapM_as_float_total (col : list cell) :
  Forall (fun c => is_Real c = true) col ->
  exists v, mapM as_float col = Ok v /\ length v = length col.
Proof.
  induction 1 as [|c col Hc _ (v & E & L)]; simpl; eauto.
  destruct c; try discriminate. cbn [as_float Py.bind]. rewrite E.
  cbn [Py.bind]. exists (x :: v). simpl. auto.
Qed.

Lemma class_var_for_total (i : nat) (class_ : list cell) :
  numeric_column class_ -> exists v, class_var_for i class_ = Ok v.
Proof.
  intros [Hne Hnum]. unfold class_var_for.
  destruct (mapM_as_float_total _ Hnum) as (col & -> & Hlen).
  cbn [Py.bind].
  destruct col as [|x col].
  { destruct class_; [congruence|discriminate]. }
  cbn [np_min np_max Py.bind].
  set (mn := fold_left fmin2 col x). set (mx := fold_left fmax2 col x).
  destruct (fle (of_Z 0) mn && fle mx (of_Z 20)) eqn:Hguard; [|eauto].
  apply andb_true_iff in Hguard as [Hlo Hhi].
  assert (Lmn : low_bad mn = false).
  { destruct mn as [q|[|]|]; try reflexivity; discriminate. }
  assert (Hmx : high_bad mx = false).
  { destruct mx as [q|[|]|]; try reflexivity; discriminate. }
  destruct (fold_not_bad _ _ _ _ fmin2_low_bad Lmn) as [Lx Lcol].
  destruct (fold_not_bad _ _ _ _ fmax2_high_bad Hmx) as [Hx Hcol].
  assert (Hfin : Forall (fun y => finite y = true) (x :: col)).
  { constructor; [now apply finite_iff|].
    rewrite Forall_forall in *. intros y Hy. apply finite_iff. auto. }
  assert (Hun : Forall (fun y => finite y = true) (np_unique (x :: col))).
  { rewrite Forall_forall in *. intros y Hy.
    apply Hfin. now apply np_unique_sub. }
  destruct (all_small_whole_finite _ Hun) as [[|] ->]; cbn [Py.bind]; [|eauto].
  assert (Fmx : finite mx = true).
  { apply finite_iff. split; [|assumption].
    destruct (fold_max_up col x Lx) as [E|E]; [|exact E].
    fold mx in E. rewrite E in Hmx. discriminate. }
  destruct mx; try discriminate. cbn [int_of_float Py.bind]. eauto.
Qed.

Lemma class_vars_for_total (i : nat) (columns : list (list cell)) :
  Forall numeric_column columns -> exists vs, class_vars_for i columns = Ok vs.
Proof.
  intros H. revert i. induction H as [|c columns Hc _ IH]; intros i; simpl.
  - eauto.
  - destruct (class_var_for_total i c Hc) as [v ->]. cbn [Py.bind].
    destruct (IH (S i)) as [vs ->]. cbn [Py.bind]. eauto.
Qed.

Lemma anonymous_domain_exists (X : ndarray) (Y metas : option ndarray) :
  inferable X Y metas -> exists d, create_anonymous_domain X Y metas = Ok d.
Proof.
  intros (HX & HY & HM). unfold create_anonymous_domain, shape1.
  rewrite HX. cbn [Py.bind].
  assert (Hcv : exists cvs,
    match Y with
    | Some Y0 => class_vars_for 0 (transposed Y0)
    | None => Ok []
    end = Ok cvs).
  { destruct Y as [targets|]; [|eauto].
    apply class_vars_for_total. now apply HY. }
  destruct Hcv as [cvs ->]. cbn [Py.bind].
  destruct metas as [m|]; [rewrite (HM m eq_refl)|]; cbn [Py.bind]; eauto.
Qed.



End AnonymousDomain.


(** ** Resizing and copying *)

Section ResizeOutcome.

Local Open Scope nat_scope.







End ResizeOutcome.

Ltac sample_wf :=
  unfold wf_table, wf_array, same_rows; simpl;
  repeat split; try reflexivity; try discriminate; repeat constructor.


Section EnsureCopy.

Lemma np_copy_own (a : ndarray) : owndata a = true -> np_copy a = a.
Proof. destruct a. simpl. intros ->. reflexivity. Qed.

Lemma ensure_copy_run (t : Table) :
  ensure_copy t = (Ok tt, map_arrays np_copy t).
Proof.
  destruct t as [d x y m w]. unfold map_arrays. tsimpl.
  unfold ensure_copy, bindM, get, when, modify, ret, base_is_None.
  tsimpl.
  destruct (owndata x) eqn:OX; cbn [negb]; tsimpl;
    (destruct (owndata y) eqn:OY; cbn [negb]; tsimpl;
     (destruct (owndata m) eqn:OM; cbn [negb]; tsimpl;
      (destruct (owndata w) eqn:OW; cbn [negb]; tsimpl;
       rewrite ?(np_copy_own x), ?(np_copy_own y), ?(np_copy_own m),
         ?(np_copy_own w) by assumption;
       reflexivity))).
Qed.

(** [ensure_copy] always succeeds.  Afterwards every array owns its data
    and [is_copy] answers true; the domain, the shapes and all the values
    are as before, and a table that owned its arrays already is not
    changed at all. *)
Theorem ensure_copy_owns (t : Table) :
  exists t',
    ensure_copy t = (Ok tt, t') /\
    is_copy t' = Ok true /\ all_own t' = true /\
    domain t' = domain t /\
    rows (_X t') = rows (_X t) /\ rows (_Y t') = rows (_Y t) /\
    rows (_metas t') = rows (_metas t) /\ rows (_W t') = rows (_W t) /\
    (wf_table t -> wf_table t') /\
    (all_own t = true -> t' = t).
Proof.
  exists (map_arrays np_copy t). split; [apply ensure_copy_run|].
  unfold map_arrays, is_copy, all_own, base_is_None, py_and.
  cbn [_X _Y _metas _W domain np_copy owndata rows].
  rewrite orb_true_r.
  repeat (split; [reflexivity|]).
  split.
  - unfold wf_table, wf_array, same_rows, shape0.
    cbn [_X _Y _metas _W np_copy ndim width rows]. tauto.
  - intros H. apply wf_table_own_cases in H as (OX & OY & OM & OW).
    rewrite !np_copy_own by assumption. apply table_eta.
Qed.

End EnsureCopy.

Lemma ensure_copy_owns_witness :
  exists t',
    ensure_copy Sample.featureless = (Ok tt, t') /\
    is_copy t' = Ok true /\ all_own t' = true /\
    rows (_Y t') = rows (_Y Sample.featureless).
Proof.
  destruct (ensure_copy_owns Sample.featureless)
    as (t' & H1 & H2 & H3 & _ & _ & H4 & _).
  exists t'. auto.
Defined.

(** ** Deleting rows *)

Section Deleting.

Local Open Scope nat_scope.

Lemma select_kept {A : Type} (f : nat -> bool) (idx : list nat) (l : list A) :
  (forall i, In i idx -> f i = true) -> length idx = length l ->
  select (map f idx) l = l.
Proof.
  revert l. induction idx as [|i idx IH]; intros [|a l] Hf Hlen;
    try discriminate; [reflexivity|].
  cbn [map select]. rewrite (Hf i) by now left.
  f_equal. apply IH; [|now injection Hlen].
  intros j Hj. apply Hf. now right.
Qed.

Lemma select_dropped {A : Type} (f : nat -> bool) (idx : list nat) (l : list A) :
  (forall i, In i idx -> f i = false) -> select (map f idx) l = [].
Proof.
  revert l. induction idx as [|i idx IH]; intros [|a l] Hf; try reflexivity.
  cbn [map select]. rewrite (Hf i) by now left.
  apply IH. intros j Hj. apply Hf. now right.
Qed.

Lemma select_without {A : Type} (l : list A) (k s : nat) :
  select (map (fun i => negb (existsb (Nat.eqb i) [s + k])) (seq s (length l))) l
  = firstn k l ++ skipn (S k) l.
Proof.
  revert k s. induction l as [|a l IH]; intros k s.
  - now destruct k.
  - cbn [length seq map select existsb]. rewrite orb_false_r.
    destruct k as [|k].
    + rewrite Nat.add_0_r, Nat.eqb_refl. cbn [negb firstn skipn app].
      apply select_kept; [|apply length_seq].
      intros i Hi. apply in_seq in Hi. cbn [existsb].
      rewrite orb_false_r. apply negb_true_iff, Nat.eqb_neq. lia.
    + replace (s =? s + S k) with false by (symmetry; apply Nat.eqb_neq; lia).
      cbn [negb firstn skipn app]. f_equal.
      replace (s + S k) with (S s + k) by lia. apply IH.
Qed.

Lemma np_delete_int_run (a : ndarray) (key : Z) (k : nat) :
  norm_index (length (rows a)) key = Ok k ->
  np_delete a (DInt key) = Ok (without_row k a).
Proof.
  intros H. unfold np_delete, del_positions. rewrite H.
  cbv beta iota delta [Py.bind]. unfold without_row. do 2 f_equal.
  apply (select_without (rows a) k 0).
Qed.

Lemma norm_index_raises (n : nat) (key : Z) (e : exn) :
  norm_index n key = Raise e -> e = IndexError.
Proof.
  unfold norm_index. destruct (_ || _); [|discriminate]. congruence.
Qed.

Lemma delitem_int_run (t : Table) (key : Z) (k : nat) :
  same_rows t -> norm_index (len t) key = Ok k ->
  delitem (DelKey (DInt key)) t = (Ok tt, map_arrays (without_row k) t).
Proof.
  intros (R1 & R2 & R3) H. unfold len, shape0 in *.
  unfold delitem. rewrite bindM_get. unfold bindM.
  rewrite on_X_run, (np_delete_int_run _ _ k) by assumption.
  rewrite on_Y_run. tsimpl.
  rewrite (np_delete_int_run _ _ k) by (now rewrite <- R1).
  rewrite on_metas_run. tsimpl.
  rewrite (np_delete_int_run _ _ k) by (now rewrite <- R2, <- R1).
  rewrite on_W_run. tsimpl.
  rewrite (np_delete_int_run _ _ k) by (now rewrite <- R3, <- R2, <- R1).
  reflexivity.
Qed.

Lemma delitem_int_fail (t : Table) (key : Z) (e : exn) :
  norm_index (len t) key = Raise e ->
  delitem (DelKey (DInt key)) t = (Raise IndexError, t).
Proof.
  intros H. pose proof (norm_index_raises _ _ _ H) as ->.
  unfold delitem. rewrite bindM_get. unfold bindM.
  rewrite on_X_run. unfold np_delete, del_positions.
  unfold len, shape0 in H. rewrite H. reflexivity.
Qed.

Lemma without_row_length (k : nat) (a : ndarray) :
  k < length (rows a) -> length (rows (without_row k a)) = length (rows a) - 1.
Proof.
  intros H. cbn [without_row rows].
  rewrite length_app, length_firstn, length_skipn. lia.
Qed.

(** [del table[key]] for an integer [key]: a key that addresses row [k]
    removes that row from each of the four arrays, which then own their
    data, and the table is one row shorter; a key outside the table raises
    IndexError and changes nothing. *)
Theorem delitem_removes_row (t : Table) (key : Z) :
  same_rows t ->
  (forall k, norm_index (len t) key = Ok k ->
     delitem (DelKey (DInt key)) t = (Ok tt, map_arrays (without_row k) t) /\
     len (map_arrays (without_row k) t) = len t - 1 /\
     all_own (map_arrays (without_row k) t) = true) /\
  ((key < - Z.of_nat (len t) \/ Z.of_nat (len t) <= key)%Z ->
     delitem (DelKey (DInt key)) t = (Raise IndexError, t)).
Proof.
  intros Hrows. split.
  - intros k Hk. split; [now apply delitem_int_run|]. split; [|reflexivity].
    unfold len, shape0. cbn [map_arrays _X].
    apply without_row_length. now apply norm_index_bound in Hk.
  - intros Hout.
    destruct (norm_index (len t) key) as [k|e] eqn:E.
    + exfalso. unfold norm_index in E.
      destruct ((key <? - Z.of_nat (len t))%Z || (Z.of_nat (len t) <=? key)%Z)
        eqn:B; [discriminate|].
      apply orb_false_iff in B as [B1 B2].
      apply Z.ltb_ge in B1. apply Z.leb_gt in B2. lia.
    + now apply (delitem_int_fail t key e).
Qed.

Lemma clear_array (a : ndarray) (n : nat) :
  length (rows a) = n ->
  np_delete a (DList (map Z.of_nat (seq 0 n))) =
    Ok (mk_ndarray true (ndim a) (width a) []).
Proof.
  intros H. unfold np_delete, del_positions. rewrite H.
  assert (Hpos : mapM (norm_index n) (map Z.of_nat (seq 0 n)) = Ok (seq 0 n)).
  { assert (G : forall l, (forall i, In i l -> i < n) ->
                 mapM (norm_index n) (map Z.of_nat l) = Ok l).
    { induction l as [|i l IH]; intros Hl; [reflexivity|].
      cbn [map mapM]. rewrite norm_index_nat by (apply Hl; now left).
      cbv beta iota delta [Py.bind]. rewrite IH; [reflexivity|].
      intros j Hj. apply Hl. now right. }
    apply G. intros i Hi. apply in_seq in Hi. lia. }
  rewrite Hpos. cbv beta iota delta [Py.bind]. do 2 f_equal.
  apply select_dropped. intros i Hi.
  apply negb_false_iff, existsb_exists. exists i. split; [assumption|].
  apply Nat.eqb_refl.
Qed.

(** [clear] on a table whose arrays have the same number of rows removes
    every row and keeps the domain and the columns; the emptied arrays own
    their data. *)
Theorem clear_empties (t : Table) :
  same_rows t ->
  clear t =
    (Ok tt, map_arrays (fun a => mk_ndarray true (ndim a) (width a) []) t) /\
  len (snd (clear t)) = 0 /\
  all_own (snd (clear t)) = true /\
  (wf_table t -> wf_table (snd (clear t))).
Proof.
  intros (R1 & R2 & R3). unfold shape0 in *.
  assert (Hrun : clear t =
    (Ok tt, map_arrays (fun a => mk_ndarray true (ndim a) (width a) []) t)).
  { unfold clear, delitem. rewrite bindM_get. unfold bindM, len, shape0.
    rewrite on_X_run, clear_array by reflexivity.
    rewrite on_Y_run. tsimpl. rewrite clear_array by (now rewrite <- R1).
    rewrite on_metas_run. tsimpl.
    rewrite clear_array by (now rewrite <- R2, <- R1).
    rewrite on_W_run. tsimpl.
    rewrite clear_array by (now rewrite <- R3, <- R2, <- R1).
    reflexivity. }
  rewrite Hrun. split; [reflexivity|]. split; [reflexivity|].
  split; [reflexivity|].
  cbn [snd]. unfold wf_table, wf_array, same_rows, shape0, map_arrays.
  cbn [_X _Y _metas _W ndim width rows length]. intuition constructor.
Qed.

End Deleting.

Lemma delitem_removes_row_witness :
  delitem (DelKey (DInt (-1))) Sample.two_rows =
    (Ok tt, map_arrays (without_row 1) Sample.two_rows) /\
  delitem (DelKey (DInt 2)) Sample.two_rows =
    (Raise IndexError, Sample.two_rows).
Proof.
  assert (Hrows : same_rows Sample.two_rows) by (repeat split).
  split.
  - apply (proj1 (delitem_removes_row Sample.two_rows (-1) Hrows) 1%nat).
    reflexivity.
  - apply (proj2 (delitem_removes_row Sample.two_rows 2 Hrows)).
    right. vm_compute. discriminate.
Defined.

Lemma clear_empties_witness :
  len (snd (clear Sample.two_rows)) = 0%nat /\
  all_own (snd (clear Sample.two_rows)) = true.
Proof.
  assert (Hrows : same_rows Sample.two_rows) by (repeat split).
  destruct (clear_empties Sample.two_rows Hrows) as (_ & H1 & H2 & _).
  split; assumption.
Defined.

(** ** What [insert], [append] and [extend] store *)

Section Inserting.

Context {dom : DomainOps} {rt : Runtime}.

Local Open Scope nat_scope.

(** The rows of an array in which the gap at [k] was opened and filled. *)
Lemma gap_opened (k n : nat) (a a3 : ndarray) :
  length (rows a) = n -> k <= n ->
  agree (but_view k) (moved_down k (resized (S n) a)) a3 ->
  firstn k (rows a3) = firstn k (rows a) /\
  skipn (S k) (rows a3) = skipn k (rows a) /\
  length (rows a3) = S n /\
  owndata a3 = true /\ ndim a3 = ndim a /\ width a3 = width a.
Proof.
  intros Hlen Hk (O & D & W & L & Hv & _).
  assert (Hrows1 : resized_rows (width a) (S n) (rows a) =
                   rows a ++ [repeat zero (width a)]).
  { unfold resized_rows. rewrite firstn_all2 by lia.
    now replace (S n - length (rows a)) with 1 by lia. }
  cbn [owndata ndim width rows moved_down resized with_rows] in O, D, W, L, Hv.
  rewrite Hrows1 in L, Hv.
  destruct (gap_rows k n (rows a) (repeat zero (width a)) Hlen Hk)
    as [Hpre Hsuf].
  unfold but_view in Hv.
  pose proof (f_equal fst Hv) as Hv1. pose proof (f_equal snd Hv) as Hv2.
  cbv beta iota delta [fst snd] in Hv1, Hv2.
  rewrite Hpre in Hv1. rewrite Hsuf in Hv2.
  repeat split; auto.
  rewrite L, length_app, length_firstn, length_firstn, length_skipn,
    !length_app. cbn [length]. lia.
Qed.

(** A successful [insert], phase by phase. *)
Lemma insert_success (key : Z) (value : pyobject) (t t' : Table) :
  wf_table t -> insert key value t = (Ok tt, t') ->
  let k := Z.to_nat (insert_key t key) in
  k <= len t /\ Z.of_nat k = insert_key t key /\ all_own t = true /\
  insert_body (Z.of_nat k) value
    (map_arrays (moved_down k) (resize_table (S (len t)) t)) = (Ok tt, t') /\
  agree_tables (but_view k)
    (map_arrays (moved_down k) (resize_table (S (len t)) t)) t'.
Proof.
  intros Hwf Hins k.
  pose proof (insert_run key value t Hwf) as Hrun. cbv zeta in Hrun.
  destruct ((insert_key t key <? 0)%Z || (Z.of_nat (len t) <? insert_key t key)%Z)
    eqn:Hrange.
  { rewrite Hrun in Hins. discriminate. }
  destruct (insert_key_range t key Hrange) as [Hk Hkz]. fold k in Hk, Hkz.
  destruct (all_own t) eqn:Hown.
  2:{ rewrite Hrun in Hins. discriminate. }
  destruct Hrun as (_ & _ & Hbody). fold k in Hbody. rewrite <- Hkz in Hbody.
  destruct (insert_body (Z.of_nat k) value _) as [[[]|e] t3] eqn:Eb.
  - rewrite Hbody in Hins. injection Hins as <-.
    split; [assumption|]. split; [assumption|]. split; [reflexivity|].
    split; [reflexivity|].
    eapply insert_body_preserves; [|exact Eb]. apply but_untouched.
  - rewrite Hbody in Hins. discriminate.
Qed.

Lemma insert_success_arrays (key : Z) (value : pyobject) (t t' : Table) :
  wf_table t -> insert key value t = (Ok tt, t') ->
  let k := Z.to_nat (insert_key t key) in
  domain t' = domain t /\
  (forall (f : Table -> ndarray),
     f = _X \/ f = _Y \/ f = _metas \/ f = _W ->
     firstn k (rows (f t')) = firstn k (rows (f t)) /\
     skipn (S k) (rows (f t')) = skipn k (rows (f t)) /\
     length (rows (f t')) = S (len t) /\
     owndata (f t') = true /\ ndim (f t') = ndim (f t) /\
     width (f t') = width (f t)).
Proof.
  intros Hwf Hins k.
  destruct (insert_success key value t t' Hwf Hins)
    as (Hk & Hkz & Hown & _ & (D & AX & AY & AM & AW)).
  fold k in Hk, Hkz, AX, AY, AM, AW.
  cbn [map_arrays resize_table _X _Y _metas _W domain] in D, AX, AY, AM, AW.
  destruct Hwf as (_ & _ & _ & _ & R1 & R2 & R3).
  unfold len, shape0 in *.
  split; [assumption|].
  intros f [-> | [-> | [-> | ->]]].
  - apply gap_opened; auto.
  - apply gap_opened; auto; lia.
  - apply gap_opened; auto; lia.
  - apply gap_opened; auto; lia.
Qed.

(** A successful [insert] makes the table one row longer: in each of the
    four arrays the rows before the insertion point stay, and the rows
    from it on move down by one. *)
Theorem insert_shifts_rows (key : Z) (value : pyobject) (t t' : Table) :
  wf_table t -> insert key value t = (Ok tt, t') ->
  let k := Z.to_nat (insert_key t key) in
  k <= len t /\ len t' = S (len t) /\ wf_table t' /\
  but_view k (rows (_X t')) = (firstn k (rows (_X t)), skipn k (rows (_X t))) /\
  but_view k (rows (_Y t')) = (firstn k (rows (_Y t)), skipn k (rows (_Y t))) /\
  but_view k (rows (_metas t')) =
    (firstn k (rows (_metas t)), skipn k (rows (_metas t))) /\
  but_view k (rows (_W t')) = (firstn k (rows (_W t)), skipn k (rows (_W t))).
Proof.
  intros Hwf Hins k.
  destruct (insert_success key value t t' Hwf Hins)
    as (Hk & Hkz & Hown & _ & Hag). fold k in Hk, Hag.
  destruct (insert_success_arrays key value t t' Hwf Hins) as (_ & Har).
  fold k in Har.
  split; [assumption|].
  split; [unfold len, shape0; apply (Har _X); auto|].
  split.
  { eapply agree_tables_wf; [|exact Hag].
    apply map_moved_down_wf.
    - now apply resize_table_wf.
    - unfold len in *. cbn [resize_table _X]. rewrite resized_shape0. lia. }
  unfold but_view.
  destruct (Har _X) as (-> & -> & _); auto.
  destruct (Har _Y) as (-> & -> & _); auto.
  destruct (Har _metas) as (-> & -> & _); auto.
  destruct (Har _W) as (-> & -> & _); auto.
Qed.


End Inserting.

Lemma insert_shifts_rows_witness :
  exists t',
    insert 1 Sample.good_row Sample.two_rows = (Ok tt, t') /\
    len t' = 3%nat /\
    but_view 1 (rows (_X t')) =
      (firstn 1 (rows (_X Sample.two_rows)),
       skipn 1 (rows (_X Sample.two_rows))).
Proof.
  assert (Hwf : wf_table Sample.two_rows) by sample_wf.
  eexists. split; [vm_compute; reflexivity|].
  refine ((fun H => conj (proj1 (proj2 H)) (proj1 (proj2 (proj2 (proj2 H)))))
            (insert_shifts_rows 1 Sample.good_row Sample.two_rows _ Hwf _)).
  vm_compute. reflexivity.
Defined.


Section Appending.

Context {dom : DomainOps} {rt : Runtime}.

Local Open Scope nat_scope.

Lemma set_row_run (a : ndarray) (key : Z) (i : nat) (vals : list cell) :
  norm_index (length (rows a)) key = Ok i -> length vals = width a ->
  set_row a key vals = Ok (with_rows a (update (rows a) i vals)).
Proof.
  intros Hi Hlen. unfold set_row, broadcast_row. rewrite Hi.
  cbv beta iota delta [Py.bind]. now rewrite Hlen, Nat.eqb_refl.
Qed.

Lemma fill_row_run (a : ndarray) (key : Z) (i : nat) (x : cell) :
  norm_index (length (rows a)) key = Ok i ->
  fill_row a key x = Ok (with_rows a (update (rows a) i (repeat x (width a)))).
Proof. intros Hi. unfold fill_row. now rewrite Hi. Qed.

(** The row that the body of [insert] writes for a sequence of values. *)
Lemma insert_body_seq (key : Z) (i : nat) (vals vx vy : list cell)
  (tm : Table) :
  same_rows tm -> norm_index (len tm) key = Ok i ->
  to_vals (Dom.attributes (domain tm)) vals = Ok vx ->
  to_vals (Dom.class_vars (domain tm))
    (skipn (length (Dom.attributes (domain tm))) vals) = Ok vy ->
  length vx = width (_X tm) -> length vy = width (_Y tm) ->
  insert_body key (OSeq vals) tm =
    (Ok tt,
     mk_Table (domain tm)
       (with_rows (_X tm) (update (rows (_X tm)) i vx))
       (with_rows (_Y tm) (update (rows (_Y tm)) i vy))
       (with_rows (_metas tm)
          (update (rows (_metas tm)) i (repeat Unknown (width (_metas tm)))))
       (if zero_width (_W tm) then _W tm
        else with_rows (_W tm)
               (update (rows (_W tm)) i
                  (repeat (CNum (of_Z 1)) (width (_W tm)))))).
Proof.
  intros (R1 & R2 & R3) Hi Hvx Hvy Lx Ly. unfold len, shape0 in *.
  unfold insert_body, convert_to_row. unfold bindM at 1. unfold bindM at 1.
  unfold get at 1. cbn [as_sequence]. unfold from_.
  unfold bindM, lift, assign_X, assign_Y. rewrite Hvx.
  rewrite on_X_run, (set_row_run _ _ i) by assumption. tsimpl.
  rewrite Hvy.
  rewrite on_Y_run. tsimpl.
  rewrite (set_row_run _ _ i) by (auto; now rewrite <- R1). tsimpl.
  rewrite on_metas_run. tsimpl.
  rewrite (fill_row_run _ _ i) by (now rewrite <- R2, <- R1).
  unfold get, when. tsimpl.
  destruct (zero_width (_W tm)); cbn [negb].
  - reflexivity.
  - rewrite on_W_run. tsimpl.
    rewrite (fill_row_run _ _ i) by (now rewrite <- R3, <- R2, <- R1).
    reflexivity.
Qed.

Lemma item_head {A : Type} (k i : nat) (l l' : list A) :
  i < k -> k <= length l -> k <= length l' -> firstn k l' = firstn k l ->
  item l' (Z.of_nat i) = item l (Z.of_nat i).
Proof.
  intros Hi Hl Hl' Hf. unfold item.
  rewrite !norm_index_nat by lia. cbv beta iota delta [Py.bind].
  assert (E : nth_error l' i = nth_error l i).
  { assert (G : forall l0 : list A, nth_error l0 i = nth_error (firstn k l0) i).
    { intros l0. rewrite nth_error_firstn.
      destruct (Nat.ltb_spec i k); [reflexivity|lia]. }
    now rewrite (G l'), (G l), Hf. }
  now rewrite E.
Qed.

(** [append] of a sequence of values whose conversion succeeds, on a table
    that owns its arrays: the table gets one more row; read back as an
    instance, that row holds the converted features and targets and
    unknown meta values, and its weight is 1 where the table has weights;
    the rows that were there read as before. *)
Theorem append_stores_row (vals vx vy : list cell) (t : Table) :
  wf_table t -> all_own t = true ->
  to_vals (Dom.attributes (domain t)) vals = Ok vx ->
  to_vals (Dom.class_vars (domain t))
    (skipn (length (Dom.attributes (domain t))) vals) = Ok vy ->
  length vx = width (_X t) -> length vy = width (_Y t) ->
  exists t',
    append (OSeq vals) t = (Ok tt, t') /\
    len t' = S (len t) /\
    RowInstance t' (Z.of_nat (len t)) =
      Ok (Inst.mk_Instance (domain t) true vx vy (vx ++ vy)
            (repeat Unknown (width (_metas t)))) /\
    nth_error (rows (_W t')) (len t) =
      Some (repeat (CNum (of_Z 1)) (width (_W t))) /\
    (forall i, i < len t ->
       RowInstance t' (Z.of_nat i) = RowInstance t (Z.of_nat i)).
Proof.
  intros Hwf Hown Hvx Hvy Lx Ly.
  set (n := len t).
  assert (Hkey : insert_key t (Z.of_nat n) = Z.of_nat n).
  { unfold insert_key. destruct (Z.ltb_spec (Z.of_nat n) 0); lia. }
  pose proof (insert_run (Z.of_nat n) (OSeq vals) t Hwf) as Hrun.
  cbv zeta in Hrun. rewrite Hkey, Hown in Hrun. fold n in Hrun.
  replace ((Z.of_nat n <? 0)%Z || (Z.of_nat n <? Z.of_nat n)%Z) with false
    in Hrun
    by (symmetry; apply orb_false_iff; split; apply Z.ltb_ge; lia).
  destruct Hrun as (_ & _ & Hbody). rewrite Nat2Z.id in Hbody.
  set (tm := map_arrays (moved_down n) (resize_table (S n) t)) in *.
  assert (Hwfm : wf_table tm).
  { apply map_moved_down_wf; [now apply resize_table_wf|].
    unfold len. cbn [resize_table _X]. rewrite resized_shape0. lia. }
  assert (Hlenm : len tm = S n).
  { unfold len, shape0, tm. cbn [map_arrays _X].
    rewrite moved_down_length; cbn [resize_table _X];
      fold (shape0 (resized (S n) (_X t))); rewrite resized_shape0; lia. }
  assert (Hidx : norm_index (len tm) (Z.of_nat n) = Ok n)
    by (apply norm_index_nat; lia).
  rewrite (insert_body_seq (Z.of_nat n) n vals vx vy tm) in Hbody;
    auto using wf_table_same_rows.
  set (t' := mk_Table _ _ _ _ _) in Hbody.
  assert (Happ : append (OSeq vals) t = (Ok tt, t')).
  { unfold append. rewrite bindM_get. exact Hbody. }
  destruct (insert_success_arrays _ _ _ _ Hwf Hbody) as (D & Har).
  rewrite Hkey, Nat2Z.id in Har. fold n in Har.
  destruct (wf_table_same_rows _ Hwfm) as (R1 & R2 & R3).
  unfold len, shape0 in Hlenm, R1, R2, R3.
  exists t'. split; [exact Happ|].
  split; [unfold len, shape0; apply (Har _X); auto|].
  split; [|split].
  - unfold RowInstance.
    rewrite (item_nat _ n vx), (item_nat _ n vy),
      (item_nat _ n (repeat Unknown (width (_metas t)))).
    + reflexivity.
    + unfold t'. cbn [_metas with_rows rows].
      apply nth_error_update_same. lia.
    + unfold t'. cbn [_Y with_rows rows].
      apply nth_error_update_same. lia.
    + unfold t'. cbn [_X with_rows rows].
      apply nth_error_update_same. lia.
  - assert (LW : length (rows (_W tm)) = S n) by lia.
    assert (DWm : ndim (_W tm) = ndim (_W t)) by reflexivity.
    assert (WWm : width (_W tm) = width (_W t)) by reflexivity.
    unfold t'. cbn [_W].
    destruct (zero_width (_W tm)) eqn:Zw.
    + unfold zero_width, shape_last in Zw. rewrite DWm in Zw.
      destruct (ndim (_W t)) eqn:Dw.
      * rewrite LW in Zw. discriminate.
      * apply Nat.eqb_eq in Zw. rewrite WWm in Zw. rewrite Zw. cbn [repeat].
        destruct Hwfm as (_ & _ & _ & ((F & _) & _) & _).
        destruct (nth_error (rows (_W tm)) n) as [r|] eqn:En.
        -- rewrite Forall_forall in F.
           pose proof (F r (nth_error_In _ _ En)) as Hr.
           rewrite WWm, Zw in Hr. destruct r; [reflexivity|discriminate].
        -- apply nth_error_None in En. lia.
    + cbn [with_rows rows]. rewrite WWm. apply nth_error_update_same. lia.
  - intros i Hi. unfold RowInstance. rewrite D.
    destruct (wf_table_same_rows _ Hwf) as (Q1 & Q2 & Q3).
    unfold shape0 in Q1, Q2, Q3. fold n in Hi. unfold n, len, shape0 in *.
    destruct (Har _X) as (FX & _ & LX & _); auto.
    destruct (Har _Y) as (FY & _ & LY & _); auto.
    destruct (Har _metas) as (FM & _ & LM & _); auto.
    rewrite (item_head (length (rows (_X t))) i (rows (_X t)) (rows (_X t')))
      by first [lia|assumption].
    rewrite (item_head (length (rows (_X t))) i (rows (_Y t)) (rows (_Y t')))
      by first [lia|assumption].
    rewrite (item_head (length (rows (_X t))) i (rows (_metas t))
               (rows (_metas t')))
      by first [lia|assumption].
    reflexivity.
Qed.

End Appending.

Lemma append_stores_row_witness :
  exists t',
    append Sample.good_row Sample.two_rows = (Ok tt, t') /\
    RowInstance t' 2 =
      Ok (Inst.mk_Instance Sample.schema true
            [Reference.num 3; Reference.num 0] [Reference.num 1]
            [Reference.num 3; Reference.num 0; Reference.num 1]
            [Unknown]).
Proof.
  assert (Hwf : wf_table Sample.two_rows) by sample_wf.
  destruct (append_stores_row
              [Reference.num 3; CStr "a"; CStr "yes"]
              [Reference.num 3; Reference.num 0] [Reference.num 1]
              Sample.two_rows Hwf)
    as (t' & H1 & _ & H2 & _); try reflexivity.
  exists t'. split; [exact H1|exact H2].
Defined.

Section Extending.

Context {dom : DomainOps} {rt : Runtime}.

Local Open Scope nat_scope.




(** The first step of [extend]: [m] rows of zeros below the rows that
    were there. *)
Lemma resize_all_grows (m : nat) (t : Table) :
  wf_table t -> all_own t = true \/ m = 0 ->
  exists t1,
    resize_all (len t + m) t = (Ok tt, t1) /\ wf_table t1 /\
    domain t1 = domain t /\
    (forall f : Table -> ndarray,
       f = _X \/ f = _Y \/ f = _metas \/ f = _W ->
       ndim (f t1) = ndim (f t) /\ width (f t1) = width (f t) /\
       rows (f t1) = rows (f t) ++ repeat (repeat zero (width (f t))) m).
Proof.
  intros Hwf Hown. destruct (Nat.eq_dec m 0) as [->|Hm].
  - exists t. split; [apply resize_all_same; lia|].
    split; [assumption|]. split; [reflexivity|].
    intros f _. cbn [repeat]. now rewrite app_nil_r.
  - destruct Hown as [Hown|]; [|contradiction].
    exists (resize_table (len t + m) t).
    split; [apply resize_all_own; auto; lia|].
    split; [now apply resize_table_wf|]. split; [reflexivity|].
    destruct (wf_table_same_rows _ Hwf) as (R1 & R2 & R3).
    unfold len, shape0 in *.
    assert (G : forall a, length (rows a) = length (rows (_X t)) ->
              rows (resized (length (rows (_X t)) + m) a) =
              rows a ++ repeat (repeat zero (width a)) m).
    { intros a La. cbn [resized rows]. unfold resized_rows.
      rewrite firstn_all2 by lia. do 2 f_equal. lia. }
    intros f [-> | [-> | [-> | ->]]]; cbn [resize_table _X _Y _metas _W];
      (split; [reflexivity|]); (split; [reflexivity|]); apply G; lia.
Qed.



End Extending.


(** ** Shuffling *)

Section Shuffling.

Context {rt : Runtime}.

Local Open Scope nat_scope.

Lemma mapM_item_order {A : Type} (l : list A) (order : list nat) (d : A) :
  (forall i, In i order -> i < length l) ->
  mapM (item l) (map Z.of_nat order) = Ok (map (fun i => nth i l d) order).
Proof.
  induction order as [|i order IH]; intros Hin; [reflexivity|].
  cbn [map mapM].
  assert (Hi : i < length l) by (apply Hin; now left).
  rewrite (item_nat l i (nth i l d)) by now apply nth_error_nth'.
  cbv beta iota delta [Py.bind]. rewrite IH; [reflexivity|].
  intros j Hj. apply Hin. now right.
Qed.

Lemma map_nth_seq {A : Type} (l : list A) (d : A) :
  map (fun i => nth i l d) (seq 0 (length l)) = l.
Proof.
  apply (nth_ext _ _ d d).
  - now rewrite length_map, length_seq.
  - intros i Hi. rewrite length_map, length_seq in Hi.
    rewrite (nth_indep _ _ (nth 0 l d)) by now rewrite length_map, length_seq.
    rewrite (map_nth (fun i => nth i l d) (seq 0 (length l)) 0 i).
    now rewrite seq_nth.
Qed.

Lemma map_nth_seq' {A : Type} (l : list A) (d : A) (n : nat) :
  length l = n -> map (fun i => nth i l d) (seq 0 n) = l.
Proof. intros <-. apply map_nth_seq. Qed.

Lemma combine_maps {A B C : Type} (f : A -> B) (g : A -> C) (l : list A) :
  combine (map f l) (map g l) = map (fun x => (f x, g x)) l.
Proof. induction l as [|a l IH]; [reflexivity|]. cbn. now rewrite IH. Qed.

Lemma getitem_order (a : ndarray) (order : list nat) :
  (forall i, In i order -> i < length (rows a)) ->
  getitem a (RList (map Z.of_nat order)) =
    Ok (mk_ndarray true (ndim a) (width a)
          (map (fun i => nth i (rows a) []) order)).
Proof.
  intros H. unfold getitem, pick.
  now rewrite (mapM_item_order _ _ [] H).
Qed.

(** [shuffle] on a table whose arrays have the same number of rows always
    succeeds.  It puts the rows in the order the random generator chose,
    the same order in all four arrays: the rows of the table, each with
    its features, targets, meta values and weight, are the rows it had
    before, rearranged.  The arrays it leaves own their data. *)
Theorem shuffle_rearranges (t : Table) :
  same_rows t ->
  exists t',
    shuffle t = (Ok tt, t') /\
    domain t' = domain t /\ len t' = len t /\ same_rows t' /\
    all_own t' = true /\
    Permutation (records t') (records t).
Proof.
  intros (R1 & R2 & R3). unfold shape0 in *.
  set (n := length (rows (_X t))).
  pose proof (shuffle_order_perm n) as Hperm.
  assert (Hin : forall i, In i (shuffle_order n) -> i < n).
  { intros i Hi. apply (Permutation_in _ Hperm), in_seq in Hi. lia. }
  unfold shuffle. rewrite bindM_get. unfold bindM, shuffled_arange, shape0.
  fold n.
  rewrite on_X_run, getitem_order by exact Hin.
  rewrite on_Y_run. tsimpl.
  rewrite getitem_order by (rewrite <- R1; exact Hin).
  rewrite on_metas_run. tsimpl.
  rewrite getitem_order by (rewrite <- R2, <- R1; exact Hin).
  rewrite on_W_run. tsimpl.
  rewrite getitem_order by (rewrite <- R3, <- R2, <- R1; exact Hin).
  eexists. split; [reflexivity|].
  split; [reflexivity|].
  split; [unfold len, shape0; tsimpl; cbn [rows]; now rewrite length_map,
            (Permutation_length Hperm), length_seq|].
  split; [unfold same_rows, shape0; tsimpl; cbn [rows];
          rewrite !length_map; auto|].
  split; [reflexivity|].
  assert (E : records t =
    combine (map (fun i => nth i (rows (_X t)) []) (seq 0 n))
      (combine (map (fun i => nth i (rows (_Y t)) []) (seq 0 n))
         (combine (map (fun i => nth i (rows (_metas t)) []) (seq 0 n))
            (map (fun i => nth i (rows (_W t)) []) (seq 0 n))))).
  { rewrite !map_nth_seq' by (unfold n; lia). reflexivity. }
  rewrite E. unfold records. tsimpl. cbn [rows].
  rewrite !combine_maps.
  now apply Permutation_map.
Qed.

End Shuffling.

Lemma shuffle_rearranges_witness :
  exists t',
    shuffle Sample.two_rows = (Ok tt, t') /\
    Permutation (records t') (records Sample.two_rows).
Proof.
  assert (Hrows : same_rows Sample.two_rows) by (repeat split).
  destruct (shuffle_rearranges Sample.two_rows Hrows)
    as (t' & H1 & _ & _ & _ & _ & H2).
  exists t'. split; [exact H1|exact H2].
Defined.

(** ** Filters on missing values *)

Section MissingValues.

Context {dom : DomainOps} {rt : Runtime}.

Local Open Scope nat_scope.

Lemma records_selected (m : list bool) (t : Table) :
  records (selected m t) = select m (records t).
Proof.
  unfold records, selected, map_arrays, selected_array.
  cbn [_X _Y _metas _W rows]. now rewrite !select_combine.
Qed.

Lemma records_length (m : list bool) (t : Table) :
  fits m t -> length (records t) = length m.
Proof.
  intros (FX & FY & FM & FW). unfold records.
  rewrite !length_combine. lia.
Qed.

Lemma select_split {A : Type} (m : list bool) (l : list A) :
  length l = length m ->
  Permutation (select m l ++ select (map negb m) l) l.
Proof.
  revert l. induction m as [|b m IH]; intros [|a l] H; try discriminate;
    [constructor|].
  injection H as H. cbn [map select]. destruct b; cbn [negb app].
  - constructor. now apply IH.
  - apply Permutation_sym, Permutation_cons_app, Permutation_sym.
    now apply IH.
Qed.

(** The two halves a selection vector and its negation cut a table into. *)
Lemma mask_split (m : list bool) (t : Table) :
  fits m t ->
  Permutation (records (selected m t) ++ records (selected (map negb m) t))
    (records t).
Proof.
  intros Hfit. rewrite !records_selected.
  apply select_split. now apply records_length.
Qed.

Lemma fits_negb (m : list bool) (t : Table) :
  fits (map negb m) t <-> fits m t.
Proof. unfold fits. now rewrite length_map. Qed.

Lemma binop2_same_length {A B C : Type} (f : A -> B -> C) (a : list A)
  (b : list B) :
  length a = length b ->
  binop2 f a b = Ok (map (fun p => f (fst p) (snd p)) (combine a b)).
Proof. intros H. unfold binop2. now rewrite H, Nat.eqb_refl. Qed.

Lemma kept_rows_defined (xs ys : list (list cell)) :
  length xs = length ys ->
  let m := map negb (map (fun p => fst p || snd p)
                       (combine (map (existsb is_nan_cell) xs) (map (existsb is_nan_cell) ys))) in
  existsb (existsb is_nan_cell) (select m xs) = false /\
  existsb (existsb is_nan_cell) (select m ys) = false.
Proof.
  revert ys. induction xs as [|x xs IH]; intros [|y ys] H; try discriminate;
    [now split|].
  injection H as H. specialize (IH ys H). cbv zeta in *.
  cbn [map combine select fst snd].
  destruct ((existsb is_nan_cell) x) eqn:Ex, ((existsb is_nan_cell) y) eqn:Ey; cbn [orb negb]; auto.
  cbn [existsb]. now rewrite Ex, Ey.
Qed.

Lemma dropped_rows_missing (xs ys : list (list cell)) :
  length xs = length ys ->
  let m := map (fun p => fst p || snd p)
             (combine (map (existsb is_nan_cell) xs) (map (existsb is_nan_cell) ys)) in
  forallb (fun xy => (existsb is_nan_cell) (fst xy) || (existsb is_nan_cell) (snd xy))
    (combine (select m xs) (select m ys)) = true.
Proof.
  revert ys. induction xs as [|x xs IH]; intros [|y ys] H; try discriminate;
    [reflexivity|].
  injection H as H. specialize (IH ys H). cbv zeta in *.
  cbn [map combine select fst snd].
  destruct ((existsb is_nan_cell) x || (existsb is_nan_cell) y) eqn:E; [|assumption].
  cbn [combine forallb fst snd]. now rewrite E.
Qed.

(** The selection vector of [filter_is_defined] when the call succeeds. *)
Lemma filter_is_defined_mask (t keep : Table) (negate : bool) :
  filter_is_defined t negate = Ok keep ->
  let r := map (fun p => fst p || snd p)
             (combine (map (existsb is_nan_cell) (rows (_X t))) (map (existsb is_nan_cell) (rows (_Y t)))) in
  fits r t /\
  forall negate', filter_is_defined t negate' =
                  Ok (selected (if negb negate' then map negb r else r) t).
Proof.
  unfold filter_is_defined, anynan_rows.
  destruct (ndim (_X t)); [discriminate|].
  destruct (ndim (_Y t)); [discriminate|].
  cbv beta iota delta [Py.bind].
  destruct (binop2 orb _ _) as [r0|] eqn:Eb; [|discriminate].
  intros H. apply new_from_table_rows_mask in H as [Hfit _].
  assert (Hfit0 : fits r0 t)
    by (destruct negate; cbn [negb] in Hfit; [assumption|now apply fits_negb]).
  assert (Hlen : length (rows (_X t)) = length (rows (_Y t))).
  { destruct Hfit0 as (FX & FY & _). congruence. }
  rewrite binop2_same_length in Eb by (now rewrite !length_map).
  injection Eb as <-. cbv zeta. split; [exact Hfit0|].
  intros negate'. rewrite new_from_table_rows_fits; [reflexivity|].
  destruct negate'; cbn [negb]; [assumption|now apply fits_negb].
Qed.

(** [filter_is_defined]: when it returns a table, that table has no
    missing value among its features and targets; the call with [negate]
    returns the other rows, each of which has one, and the two results
    together hold the rows of the table, no row twice. *)
Theorem filter_is_defined_splits (t keep : Table) :
  filter_is_defined t false = Ok keep ->
  has_missing keep = false /\
  exists drop,
    filter_is_defined t true = Ok drop /\
    forallb (fun xy => existsb is_nan_cell (fst xy) ||
                       existsb is_nan_cell (snd xy))
      (combine (rows (_X drop)) (rows (_Y drop))) = true /\
    Permutation (records keep ++ records drop) (records t).
Proof.
  intros H.
  destruct (filter_is_defined_mask t keep false H) as (Hfit & Hall).
  cbv zeta in Hfit, Hall.
  rewrite (Hall false) in H. injection H as <-. cbn [negb].
  assert (Hlen : length (rows (_X t)) = length (rows (_Y t))).
  { destruct Hfit as (FX & FY & _). congruence. }
  split.
  - unfold has_missing, anynan. cbn [selected map_arrays _X _Y selected_array rows].
    destruct (kept_rows_defined _ _ Hlen) as [-> ->]. reflexivity.
  - eexists. split; [apply (Hall true)|]. cbn [negb]. split.
    + cbn [selected map_arrays _X _Y selected_array rows].
      now apply dropped_rows_missing.
    + eapply Permutation_trans; [apply Permutation_app_comm|].
      apply mask_split. exact Hfit.
Qed.


Lemma kept_rows_have_class (ys : list (list cell)) :
  existsb (existsb is_nan_cell)
    (select (map negb (map (existsb is_nan_cell) ys)) ys) = false.
Proof.
  induction ys as [|y ys IH]; [reflexivity|].
  cbn [map select]. destruct (existsb is_nan_cell y) eqn:E; cbn [negb]; auto.
  cbn [existsb]. now rewrite E.
Qed.

Lemma dropped_rows_lack_class (ys : list (list cell)) :
  forallb (existsb is_nan_cell)
    (select (map (existsb is_nan_cell) ys) ys) = true.
Proof.
  induction ys as [|y ys IH]; [reflexivity|].
  cbn [map select]. destruct (existsb is_nan_cell y) eqn:E; auto.
  cbn [forallb]. now rewrite E.
Qed.

(** [filter_has_class]: when it returns a table, no target value of that
    table is missing; the call with [negate] returns the other rows, each
    with a missing target, and the two results together hold the rows of
    the table, no row twice. *)
Theorem filter_has_class_splits (t keep : Table) :
  filter_has_class t false = Ok keep ->
  has_missing_class keep = false /\
  exists drop,
    filter_has_class t true = Ok drop /\
    forallb (existsb is_nan_cell) (rows (_Y drop)) = true /\
    Permutation (records keep ++ records drop) (records t).
Proof.
  unfold filter_has_class, anynan_rows.
  destruct (ndim (_Y t)); [discriminate|].
  cbv beta iota delta [Py.bind]. cbn [negb].
  intros H. apply new_from_table_rows_mask in H as [Hfit ->].
  apply (proj1 (fits_negb _ _)) in Hfit. split.
  - unfold has_missing_class, anynan.
    cbn [selected map_arrays _Y selected_array rows].
    apply kept_rows_have_class.
  - eexists. split; [now apply new_from_table_rows_fits|]. split.
    + cbn [selected map_arrays _Y selected_array rows].
      apply dropped_rows_lack_class.
    + eapply Permutation_trans; [apply Permutation_app_comm|].
      now apply mask_split.
Qed.

End MissingValues.

Lemma filter_is_defined_splits_witness :
  exists keep,
    filter_is_defined Sample.scenario false = Ok keep /\
    len keep = 3%nat /\ has_missing keep = false.
Proof.
  eexists. split; [vm_compute; reflexivity|]. split; [reflexivity|].
  refine (proj1 (filter_is_defined_splits Sample.scenario _ _)).
  vm_compute. reflexivity.
Defined.

Lemma filter_has_class_splits_witness :
  exists keep,
    filter_has_class Sample.scenario false = Ok keep /\
    len keep = 4%nat /\ has_missing_class keep = false.
Proof.
  eexists. split; [vm_compute; reflexivity|]. split; [reflexivity|].
  refine (proj1 (filter_has_class_splits Sample.scenario _ _)).
  vm_compute. reflexivity.
Defined.

(** ** Filtering by a value *)

Section SameValue.

Context {dom : DomainOps} {rt : Runtime}.

Local Open Scope nat_scope.

Lemma select_by_test {A : Type} (p : A -> bool) (l : list A) :
  select (map p l) l = filter p l.
Proof.
  induction l as [|a l IH]; [reflexivity|].
  cbn [map select filter]. destruct (p a); now rewrite IH.
Qed.

Lemma get_column_view_length (t : Table) (pos : colkey) (col : list cell) :
  same_rows t -> get_column_view t pos = Ok col -> length col = len t.
Proof.
  intros (R1 & R2 & R3). unfold get_column_view, len, shape0 in *.
  destruct (match pos with KInt i => Ok i | _ => domain_index (domain t) pos end)
    as [index|]; [|discriminate].
  cbv beta iota delta [Py.bind].
  assert (G : forall a c, column a c = Ok col ->
                          length col = length (rows a)).
  { intros a c. rewrite column_run. destruct (ndim a); [discriminate|].
    intros H. now apply mapM_length in H. }
  destruct (0 <=? index)%Z.
  - destruct (shape1 (_X t)); [|discriminate].
    cbv beta iota delta [Py.bind].
    destruct (index <? Z.of_nat a)%Z; intros H; apply G in H; lia.
  - intros H; apply G in H; lia.
Qed.

(** [filter_same_value]: in the table it returns, the column at
    [position] holds nothing but the value asked for (after its conversion
    by the variable, if it was not a number); with [negate] the column
    holds no such value. *)
Theorem filter_same_value_selects (t t' : Table) (position : colkey)
  (value : cell) (negate : bool) :
  filter_same_value t position value negate = Ok t' ->
  exists value' col',
    coerce t position value = Ok value' /\
    get_column_view t' position = Ok col' /\
    length col' = len t' /\
    Forall (fun c => cell_eq c value' = negb negate) col'.
Proof.
  unfold filter_same_value.
  destruct (coerce t position value) as [v'|] eqn:Ev; [|discriminate].
  destruct (get_column_view t position) as [col|] eqn:Ec; [|discriminate].
  cbv beta iota delta [Py.bind]. intros H.
  apply new_from_table_rows_mask in H as [Hfit ->].
  destruct (get_column_view_select _ t position col Hfit Ec) as [Hsel Hlen].
  exists v'. eexists. split; [reflexivity|]. split; [exact Hsel|].
  assert (Hlen' : forall m : list bool,
            fits m t -> length col = length m ->
            length (select m col) = len (selected m t)).
  { intros m (FX & _) Hl. unfold len, shape0.
    cbn [selected map_arrays _X selected_array rows].
    apply select_length_eq; auto. }
  split; [now apply Hlen'|].
  destruct negate; cbn [negb].
  - rewrite map_map.
    rewrite (select_by_test (fun c => negb (cell_eq c v')) col).
    apply Forall_forall. intros c Hc. apply filter_In in Hc as [_ Hc].
    now apply negb_true_iff.
  - rewrite (select_by_test (fun c => cell_eq c v') col).
    apply Forall_forall. intros c Hc. now apply filter_In in Hc as [_ Hc].
Qed.

Lemma inplace2_orb_false (n : nat) (b : list bool) :
  length b = n -> inplace2 orb (repeat false n) b = Ok b.
Proof.
  intros <-. unfold inplace2. rewrite repeat_length, Nat.eqb_refl. f_equal.
  induction b as [|x b IH]; [reflexivity|].
  cbn [length repeat combine map fst snd orb]. now rewrite IH.
Qed.

(** [filter_same_value] returns what [filter_values] returns for the
    disjunction of one discrete condition with that one value. *)
Theorem filter_same_value_as_condition (t t' : Table) (position : colkey)
  (value : cell) :
  same_rows t ->
  (filter_same_value t position value false = Ok t' <->
   filter_values t (Values [FilterDiscrete position [value]] false) = Ok t').
Proof.
  intros Hrows. unfold filter_same_value, filter_values, filter_mask.
  cbn [apply_conditions apply_condition add_equal].
  destruct (get_column_view t position) as [col|] eqn:Ec.
  - pose proof (get_column_view_length t position col Hrows Ec) as Hlen.
    destruct (coerce t position value) as [v'|]; cbv beta iota delta [Py.bind].
    + rewrite inplace2_orb_false by (now rewrite length_map).
      cbv beta iota delta [Py.bind]. reflexivity.
    + split; discriminate.
  - destruct (coerce t position value); cbv beta iota delta [Py.bind];
      split; discriminate.
Qed.

End SameValue.

Lemma filter_same_value_selects_witness :
  exists t' col',
    filter_same_value Sample.scenario (KName "c") (CStr "1") false = Ok t' /\
    get_column_view t' (KName "c") = Ok col' /\
    Forall (fun c => cell_eq c (Reference.num 1) = true) col'.
Proof.
  destruct (filter_same_value_selects Sample.scenario
              (selected [false; true; false; true] Sample.scenario)
              (KName "c") (CStr "1") false)
    as (v' & col' & Hv & Hc & _ & Hall); [vm_compute; reflexivity|].
  eexists. exists col'. split; [vm_compute; reflexivity|].
  split; [exact Hc|].
  replace v' with (Reference.num 1) in Hall; [exact Hall|].
  vm_compute in Hv. now injection Hv.
Defined.

Lemma filter_same_value_as_condition_witness :
  exists t',
    filter_same_value Sample.scenario (KName "c") (CStr "1") false = Ok t' /\
    filter_values Sample.scenario
      (Values [FilterDiscrete (KName "c") [CStr "1"]] false) = Ok t'.
Proof.
  eexists. split; [vm_compute; reflexivity|].
  apply (proj1 (filter_same_value_as_condition Sample.scenario _ (KName "c")
                  (CStr "1") ltac:(repeat split))).
  vm_compute. reflexivity.
Defined.

(** ** Conjunctions of conditions *)

Section Conjunctions.

Context {dom : DomainOps} {rt : Runtime}.

Local Open Scope nat_scope.











Lemma select_none {A : Type} (n : nat) (l : list A) :
  select (repeat false n) l = [].
Proof.
  revert l. induction n as [|n IH]; intros [|a l]; cbn [repeat select]; auto.
Qed.

(** [filter_values] with no condition at all: the conjunction keeps every
    row of the table and the disjunction keeps none. *)
Theorem filter_values_no_condition (t : Table) :
  same_rows t ->
  exists every none,
    filter_values t (Values [] true) = Ok every /\
    records every = records t /\ all_own every = true /\
    filter_values t (Values [] false) = Ok none /\
    len none = 0 /\ domain none = domain t.
Proof.
  intros (R1 & R2 & R3). unfold shape0 in *.
  assert (Hfit : forall b, fits (repeat b (len t)) t).
  { intros b. unfold fits, len, shape0. rewrite repeat_length.
    repeat split; lia. }
  unfold filter_values, filter_mask. cbn [apply_conditions Py.bind].
  rewrite !new_from_table_rows_fits by apply Hfit.
  do 2 eexists. split; [reflexivity|].
  split.
  { rewrite records_selected. unfold len, shape0.
    assert (L : length (records t) = length (rows (_X t))).
    { unfold records. rewrite !length_combine. lia. }
    rewrite <- L. apply select_all. }
  split; [reflexivity|]. split; [reflexivity|]. split; [|reflexivity].
  unfold len, shape0. cbn [selected map_arrays _X selected_array rows].
  apply length_zero_iff_nil, select_none.
Qed.

End Conjunctions.


Lemma filter_values_no_condition_witness :
  exists every,
    filter_values Sample.scenario (Values [] true) = Ok every /\
    records every = records Sample.scenario.
Proof.
  destruct (filter_values_no_condition Sample.scenario ltac:(repeat split))
    as (every & _ & H1 & H2 & _).
  exists every. split; [exact H1|exact H2].
Defined.

(** ** Weights *)

Section Weights.

Context {dom : DomainOps} {rt : Runtime}.

Local Open Scope nat_scope.

Lemma slice_bounds_whole (n : nat) : slice_bounds None None n = (0, n).
Proof.
  unfold slice_bounds, slice_indices. cbn [step start stop].
  change (1 =? 0)%Z with false. change (1 <? 0)%Z with false. cbv iota.
  rewrite Z.max_r by lia. now rewrite Nat2Z.id.
Qed.

Lemma fill_slice_whole (a : ndarray) (x : cell) :
  fill_slice a None None x =
    with_rows a (repeat (repeat x (width a)) (length (rows a))).
Proof.
  unfold fill_slice. rewrite slice_bounds_whole. cbn [firstn app].
  rewrite Nat.sub_0_r, skipn_all. now rewrite app_nil_r.
Qed.

(** The shape of the weights of a table of the documented shape. *)
Lemma weights_cases (t : Table) :
  wf_table t ->
  (has_weights t = true /\ ndim (_W t) = Dim1 /\ width (_W t) = 1 /\
   0 < len t) \/
  (has_weights t = false /\
   Forall (fun r => r = []) (rows (_W t)) /\
   (ndim (_W t) = Dim1 -> len t = 0)).
Proof.
  intros (_ & _ & _ & ((F & W1) & W2) & R1 & R2 & R3).
  unfold has_weights, zero_width, shape_last, len, shape0 in *.
  destruct (ndim (_W t)) eqn:D.
  - destruct (length (rows (_W t))) as [|n] eqn:E.
    + right. split; [reflexivity|]. split; [|intros _; lia].
      apply length_zero_iff_nil in E. rewrite E. constructor.
    + left. cbn [Nat.eqb negb]. repeat split; auto. lia.
  - right. rewrite (W2 eq_refl). split; [reflexivity|].
    split; [|discriminate].
    rewrite (W2 eq_refl) in F. eapply Forall_impl; [|exact F].
    intros r Hr. now apply length_zero_iff_nil.
Qed.

(** [set_weights] on a table of the documented shape always succeeds and
    leaves a vector with the given weight for every row; nothing else
    changes.  The table then has weights, unless it has no rows. *)
Theorem set_weights_sets_all (t : Table) (weight : pyfloat) :
  wf_table t ->
  exists w',
    set_weights weight t = (Ok tt, set_W w' t) /\
    ndim w' = Dim1 /\ rows w' = repeat [CNum weight] (len t) /\
    wf_table (set_W w' t) /\
    has_weights (set_W w' t) = negb (Nat.eqb (len t) 0).
Proof.
  intros Hwf.
  assert (Hgoal : forall w', ndim w' = Dim1 -> width w' = 1 ->
            rows w' = repeat [CNum weight] (len t) ->
            wf_table (set_W w' t) /\
            has_weights (set_W w' t) = negb (Nat.eqb (len t) 0)).
  { intros w' D W R.
    destruct Hwf as (HX & HY & HM & _ & R1 & R2 & R3). split.
    - unfold wf_table, wf_array, same_rows, shape0 in *.
      cbn [set_W _X _Y _metas _W]. rewrite D, W, R, repeat_length.
      unfold len, shape0.
      repeat split; try tauto; try discriminate; try lia.
      apply Forall_forall. intros r Hr. apply repeat_spec in Hr. now subst.
    - unfold has_weights, zero_width, shape_last. cbn [set_W _W].
      now rewrite D, R, repeat_length. }
  unfold set_weights. rewrite bindM_get.
  destruct (weights_cases t Hwf) as [(Hw & D & W & Hn)|(Hw & _ & _)];
    unfold has_weights in Hw.
  - apply negb_true_iff in Hw. rewrite Hw. cbn [negb].
    rewrite on_W_run, fill_slice_whole.
    eexists. split; [reflexivity|].
    assert (R : length (rows (_W t)) = len t).
    { destruct Hwf as (_ & _ & _ & _ & R1 & R2 & R3).
      unfold len, shape0 in *. lia. }
    cbn [with_rows ndim rows]. rewrite W, R.
    split; [assumption|]. split; [reflexivity|].
    apply Hgoal; cbn [with_rows ndim width rows]; auto;
      try (now rewrite W, R).
  - apply negb_false_iff in Hw. rewrite Hw. cbn [negb].
    unfold modify. eexists. split; [reflexivity|].
    cbn [vector ndim rows]. rewrite map_repeat.
    split; [reflexivity|]. split; [reflexivity|].
    apply Hgoal; cbn [vector ndim width rows]; auto;
      try (rewrite map_repeat; reflexivity).
Qed.



(** [RowInstance.get_weight] raises ValueError whenever the table has no
    weights, and also whenever the table has two rows or more: it takes
    the truth value of the whole array of weights. *)
Theorem row_get_weight_fails (t : Table) (self : Row.handle) :
  wf_table t -> has_weights t = false \/ 2 <= len t ->
  RowInstance_get_weight self t = Raise ValueError.
Proof.
  intros Hwf Hcase. unfold RowInstance_get_weight, array_truth, flat.
  destruct (weights_cases t Hwf) as [(Hw & D & W & Hn)|(Hw & F & _)].
  - destruct Hcase as [Hc|Hc]; [congruence|].
    assert (R : length (rows (_W t)) = len t).
    { destruct Hwf as (_ & _ & _ & _ & R1 & R2 & R3).
      unfold len, shape0 in *. lia. }
    destruct Hwf as (_ & _ & _ & ((FW & _) & _) & _). rewrite W in FW.
    destruct (rows (_W t)) as [|r1 [|r2 rest]]; cbn [length] in R;
      try lia.
    inversion FW as [|? ? H1 FW']; subst. inversion FW' as [|? ? H2 _]; subst.
    destruct r1 as [|x1 [|]]; try discriminate.
    destruct r2 as [|x2 [|]]; try discriminate.
    cbn [concat app]. destruct (concat rest); reflexivity.
  - assert (E : concat (rows (_W t)) = []).
    { induction F as [|r rs Hr _ IH]; [reflexivity|].
      cbn [concat]. now rewrite Hr, IH. }
    now rewrite E.
Qed.

End Weights.

Lemma set_weights_sets_all_witness :
  exists w',
    set_weights (of_Z 2) Sample.two_rows = (Ok tt, set_W w' Sample.two_rows) /\
    rows w' = [[CNum (of_Z 2)]; [CNum (of_Z 2)]].
Proof.
  assert (Hwf : wf_table Sample.two_rows) by sample_wf.
  destruct (set_weights_sets_all Sample.two_rows (of_Z 2) Hwf)
    as (w' & H1 & _ & H2 & _).
  exists w'. split; [exact H1|exact H2].
Defined.


Lemma row_get_weight_fails_witness :
  RowInstance_get_weight (Row.mk_handle 0 [])
    (new_from_domain Sample.schema 2 true) = Raise ValueError.
Proof.
  apply row_get_weight_fails.
  - apply new_from_domain_wf.
  - right. vm_compute. lia.
Defined.

(** ** Single cells *)

Section SingleCells.

Context {dom : DomainOps} {rt : Runtime}.

Local Open Scope nat_scope.

Lemma item_inv {A : Type} (l : list A) (i : Z) (a : A) :
  item l i = Ok a ->
  exists k, norm_index (length l) i = Ok k /\ nth_error l k = Some a.
Proof.
  unfold item. destruct (norm_index (length l) i) as [k|]; [|discriminate].
  cbv beta iota delta [Py.bind].
  destruct (nth_error l k) as [x|] eqn:E; [|discriminate].
  intros H. injection H as <-. eauto.
Qed.

Lemma item_at {A : Type} (l : list A) (i : Z) (k : nat) (a : A) :
  norm_index (length l) i = Ok k -> nth_error l k = Some a ->
  item l i = Ok a.
Proof. intros H1 H2. unfold item. rewrite H1. cbn. now rewrite H2. Qed.

Lemma item_map {A B : Type} (f : A -> B) (l : list A) (i : Z) (a : A) :
  item l i = Ok a -> item (map f l) i = Ok (f a).
Proof.
  intros H. apply item_inv in H as (k & Hk & Hn).
  apply (item_at _ _ k); [now rewrite length_map|].
  now rewrite nth_error_map, Hn.
Qed.

(** A column of a two-dimensional array, by the position of the column. *)
Lemma column_nth (a : ndarray) (c : Z) (k : nat) :
  ndim a = Dim2 -> wf_array a -> norm_index (width a) c = Ok k ->
  column a c = Ok (map (fun row => nth k row zero) (rows a)).
Proof.
  intros D [F _] Hk. rewrite column_run, D.
  induction F as [|row rs Hrow _ IH]; [reflexivity|].
  cbn [mapM map].
  assert (Hlt : k < length row)
    by (rewrite Hrow; now apply norm_index_bound in Hk).
  rewrite (item_at row c k (nth k row zero));
    [|now rewrite Hrow|now apply nth_error_nth'].
  cbv beta iota delta [Py.bind]. now rewrite IH.
Qed.

(** The entry of a column in the row of a cell that [a[r, c]] reads. *)
Lemma column_of_cell (a : ndarray) (r c : Z) (x : cell) :
  wf_array a -> item2 a r c = Ok x ->
  exists col, column a c = Ok col /\ item col r = Ok x.
Proof.
  intros Hwf. unfold item2. destruct (ndim a) eqn:D; [discriminate|].
  destruct (item (rows a) r) as [row|] eqn:Er; [|discriminate].
  cbv beta iota delta [Py.bind]. intros Hx.
  pose proof Er as Er'. apply item_inv in Er' as (i & Hi & Hrow).
  apply item_inv in Hx as (k & Hk & Hx).
  assert (Hlen : length row = width a).
  { destruct Hwf as [F _]. rewrite Forall_forall in F. apply F.
    eapply nth_error_In; eassumption. }
  rewrite Hlen in Hk.
  eexists. split; [now apply (column_nth a c k)|].
  rewrite (item_map (fun row => nth k row zero) _ _ row Er). f_equal.
  now apply nth_error_nth.
Qed.

(** [table[r, c]] for an integer row and a column key: the value comes
    with the variable the domain has at that key, and it is the entry for
    row [r] of the column that [get_column_view] returns for the key's
    index. *)
Theorem getitem_cell_reads_column (t : Table) (row_idx : Z)
  (col_idx : colkey) (v : Value) :
  wf_table t -> domain_fits t ->
  getitem_cell t row_idx col_idx = Ok v ->
  exists index col,
    domain_index (domain t) col_idx = Ok index /\
    domain_getitem (domain t) (KInt index) = Ok (value_variable v) /\
    get_column_view t (KInt index) = Ok col /\
    item col row_idx = Ok (value_cell v).
Proof.
  intros ((DX & WX) & (DY & WY) & (DM & WM) & _) (FX & _) Hv.
  unfold getitem_cell in Hv.
  destruct (domain_index (domain t) col_idx) as [index|]; [|discriminate].
  cbv beta iota delta [Py.bind] in Hv.
  destruct (domain_getitem (domain t) (KInt index)) as [var|] eqn:Evar;
    [|discriminate].
  cbv beta iota delta [Py.bind] in Hv. rewrite <- FX in Hv.
  exists index.
  unfold get_column_view, shape1. rewrite DX.
  cbv beta iota delta [Py.bind].
  destruct (Z.leb_spec 0 index) as [Hge|Hlt]; cbn [andb] in Hv.
  - destruct (Z.ltb_spec index (Z.of_nat (width (_X t)))) as [Hx|Hx].
    + destruct (item2 (_X t) row_idx index) as [x|] eqn:E; [|discriminate].
      injection Hv as <-.
      destruct (column_of_cell _ _ _ _ WX E) as (col & Hc & Hi).
      exists col. auto.
    + destruct (Z.leb_spec (Z.of_nat (width (_X t))) index); [|lia].
      destruct (item2 (_Y t) row_idx _) as [x|] eqn:E; [|discriminate].
      injection Hv as <-.
      destruct (column_of_cell _ _ _ _ WY E) as (col & Hc & Hi).
      exists col. auto.
  - destruct (Z.leb_spec (Z.of_nat (width (_X t))) index); [lia|].
    destruct (item2 (_metas t) row_idx _) as [x|] eqn:E; [|discriminate].
    injection Hv as <-.
    destruct (column_of_cell _ _ _ _ WM E) as (col & Hc & Hi).
    exists col. auto.
Qed.


Lemma set_cell_facts (a a' : ndarray) (r c : Z) (x : cell) (i : nat) :
  wf_array a -> ndim a = Dim2 ->
  norm_index (length (rows a)) r = Ok i ->
  set_cell a r c x = Ok a' ->
  agree (but_view i) a a' /\ item2 a' r c = Ok x.
Proof.
  intros [F Dw] D Hi. unfold set_cell, set_item. rewrite Hi.
  cbv beta iota delta [Py.bind].
  destruct (item (rows a) r) as [row|] eqn:Er; [|discriminate].
  cbv beta iota delta [Py.bind].
  destruct (norm_index (length row) c) as [j|] eqn:Hj; [|discriminate].
  cbv beta iota delta [Py.bind]. intros H. injection H as <-.
  assert (Hlt : i < length (rows a)) by now apply norm_index_bound in Hi.
  assert (Hjlt : j < length row) by now apply norm_index_bound in Hj.
  split.
  - unfold agree. cbn [with_rows owndata ndim width rows].
    do 3 (split; [reflexivity|]).
    split; [now apply update_length|].
    split; [apply (but_untouched i); now apply norm_index_nat|].
    intros _. split; [|exact Dw]. cbn [with_rows width rows].
    apply update_Forall; [assumption|].
    rewrite update_length by assumption.
    apply item_inv in Er as (i' & _ & Hin).
    rewrite Forall_forall in F. apply F. eapply nth_error_In; eassumption.
  - unfold item2. cbn [with_rows ndim rows]. rewrite D.
    rewrite (item_at _ r i (update row j x)).
    + cbv beta iota delta [Py.bind].
      apply (item_at _ c j); [now rewrite update_length|].
      now apply nth_error_update_same.
    + now rewrite update_length.
    + now apply nth_error_update_same.
Qed.

(** Writing a value through a row instance: [instance[key] = value] for
    the instance of row [r] puts the value (converted by the variable if it
    is a string) into the table, where [get_column_view] then shows it in
    row [r] of the column of [key]; no other row of the table changes, and
    for a feature or a target the instance's own copy of the values gets it
    as well. *)
Theorem row_setitem_writes_through (t t' : Table) (self self' : Row.handle)
  (key : colkey) (value : cell) (i : nat) :
  wf_table t -> norm_index (len t) (Row.row_index self) = Ok i ->
  RowInstance_setitem self key value t = (Ok self', t') ->
  exists index value',
    match key with
    | KInt k => Ok k
    | _ => domain_index (domain t) key
    end = Ok index /\
    match value with
    | CStr _ =>
        var <- domain_getitem (domain t) (KInt index) ;; to_val var value
    | _ => Ok value
    end = Ok value' /\
    (exists col, get_column_view t' (KInt index) = Ok col /\
                 item col (Row.row_index self) = Ok value') /\
    agree_tables (but_view i) t t' /\ _W t' = _W t /\
    ((0 <= index)%Z ->
     is_Real value' = true /\ item (Row._values self') index = Ok value').
Proof.
  intros Hwf Hi. pose proof Hwf as Hwf0.
  destruct Hwf as ((DX & WX) & (DY & WY) & (DM & WM) & _ & R1 & R2 & R3).
  unfold len, shape0 in *.
  unfold RowInstance_setitem. rewrite bindM_get. unfold bindM at 1, lift at 1.
  destruct (match key with KInt k => Ok k | _ => _ end) as [index|] eqn:Ek;
    [|discriminate].
  unfold bindM at 1, lift at 1.
  destruct (match value with CStr _ => _ | _ => _ end) as [v'|] eqn:Ev0;
    [|discriminate].
  intros Hrun. exists index, v'. split; [reflexivity|]. split; [exact Ev0|].
  assert (Col : forall (a a' : ndarray) c,
            wf_array a -> ndim a = Dim2 ->
            length (rows a) = length (rows (_X t)) ->
            set_cell a (Row.row_index self) c v' = Ok a' ->
            agree (but_view i) a a' /\
            exists col, column a' c = Ok col /\
                        item col (Row.row_index self) = Ok v').
  { intros a a' c Wa Da La Hs.
    destruct (set_cell_facts a a' (Row.row_index self) c v' i Wa Da)
      as [Hag Hit]; auto; [now rewrite La|].
    split; [assumption|]. apply column_of_cell; [|assumption].
    destruct Hag as (_ & _ & _ & _ & _ & Hw). auto. }
  destruct (Z.leb_spec 0 index) as [Hge|Hlt].
  - destruct (is_Real v') eqn:Hreal; cbn [negb] in Hrun; [|discriminate].
    unfold bindM at 1, lift at 1 in Hrun.
    destruct (item (rows (_X t)) (Row.row_index self)) as [row|] eqn:Er;
      [|discriminate].
    unfold bindM at 1, lift at 1 in Hrun.
    destruct (set_item (Row._values self) index v') as [vals|] eqn:Ev;
      [|discriminate].
    assert (Hrow : length row = width (_X t)).
    { apply item_inv in Er as (i' & _ & Hin). destruct WX as [F _].
      rewrite Forall_forall in F. apply F. eapply nth_error_In; eassumption. }
    assert (Hvals : item vals index = Ok v').
    { unfold set_item in Ev.
      destruct (norm_index (length (Row._values self)) index) as [k|] eqn:Hk;
        [|discriminate].
      injection Ev as <-.
      assert (k < length (Row._values self)) by now apply norm_index_bound in Hk.
      apply (item_at _ _ k); [now rewrite update_length|].
      now apply nth_error_update_same. }
    rewrite Hrow in Hrun. unfold bindM, ret in Hrun.
    unfold get_column_view, shape1. cbv beta iota delta [Py.bind].
    destruct (Z.ltb_spec index (Z.of_nat (width (_X t)))) as [Hx|Hx].
    + rewrite on_X_run in Hrun.
      destruct (set_cell (_X t) _ index v') as [x'|] eqn:Es; [|discriminate].
      injection Hrun as <- <-.
      destruct (Col _ _ _ WX DX eq_refl Es) as (Hag & col & Hc & Hit).
      pose proof Hag as (_ & Dx' & Wx' & _).
      cbn [set_X _X _W]. rewrite Dx', Wx', DX. cbv beta iota.
      destruct (Z.leb_spec 0 index); [|lia].
      destruct (Z.ltb_spec index (Z.of_nat (width (_X t)))); [|lia].
      split; [exists col; split; assumption|]. split; [|auto].
      unfold agree_tables. cbn [domain _X _Y _metas _W].
      auto using agree_refl.
    + rewrite on_Y_run in Hrun.
      destruct (set_cell (_Y t) _ _ v') as [y'|] eqn:Es; [|discriminate].
      injection Hrun as <- <-.
      destruct (Col _ _ _ WY DY (eq_sym R1) Es) as (Hag & col & Hc & Hit).
      cbn [set_Y _X _Y _W]. rewrite DX. cbv beta iota.
      destruct (Z.leb_spec 0 index); [|lia].
      destruct (Z.ltb_spec index (Z.of_nat (width (_X t)))); [lia|].
      split; [exists col; split; assumption|]. split; [|auto].
      unfold agree_tables. cbn [domain _X _Y _metas _W].
      auto using agree_refl.
  - unfold bindM, ret in Hrun. rewrite on_metas_run in Hrun.
    destruct (set_cell (_metas t) _ _ v') as [m'|] eqn:Es; [|discriminate].
    injection Hrun as <- <-.
    destruct (Col _ _ _ WM DM ltac:(lia) Es) as (Hag & col & Hc & Hit).
    unfold get_column_view. cbv beta iota delta [Py.bind].
    destruct (Z.leb_spec 0 index); [lia|].
    cbn [set_metas _metas _W].
    split; [exists col; split; assumption|]. split; [|split; [reflexivity|lia]].
    unfold agree_tables. cbn [domain _X _Y _metas _W].
    auto using agree_refl.
Qed.

End SingleCells.

Lemma getitem_cell_reads_column_witness :
  exists v col,
    getitem_cell Sample.two_rows 1 (KName "c") = Ok v /\
    value_cell v = Reference.num 1 /\
    get_column_view Sample.two_rows (KInt 2) = Ok col /\
    item col 1 = Ok (value_cell v).
Proof.
  assert (Hwf : wf_table Sample.two_rows) by sample_wf.
  assert (Hfit : domain_fits Sample.two_rows) by (repeat split).
  destruct (getitem_cell Sample.two_rows 1 (KName "c")) as [v|] eqn:Ev;
    [|vm_compute in Ev; discriminate].
  destruct (getitem_cell_reads_column Sample.two_rows 1 (KName "c") v
              Hwf Hfit Ev)
    as (index & col & Hi & _ & Hc & Hx).
  assert (index = 2%Z) as -> by (vm_compute in Hi; now injection Hi).
  exists v, col. split; [reflexivity|].
  split; [vm_compute in Ev; injection Ev as <-; reflexivity|].
  split; [exact Hc|exact Hx].
Defined.

Lemma row_setitem_writes_through_witness :
  exists self' t' col,
    RowInstance_setitem (Row.mk_handle 1 [Reference.num 2; Reference.num 1;
                                           Reference.num 1])
      (KName "f2") (CStr "a") Sample.two_rows = (Ok self', t') /\
    get_column_view t' (KInt 1) = Ok col /\ item col 1 = Ok (Reference.num 0).
Proof.
  assert (Hwf : wf_table Sample.two_rows) by sample_wf.
  destruct (RowInstance_setitem
              (Row.mk_handle 1 [Reference.num 2; Reference.num 1;
                                Reference.num 1])
              (KName "f2") (CStr "a") Sample.two_rows)
    as [[self'|e] t'] eqn:Erun; [|vm_compute in Erun; discriminate].
  destruct (row_setitem_writes_through Sample.two_rows t'
              (Row.mk_handle 1 [Reference.num 2; Reference.num 1;
                                Reference.num 1]) self'
              (KName "f2") (CStr "a") 1 Hwf eq_refl Erun)
    as (index & v' & Hi & Hv & (col & Hc & Hx) & _).
  assert (index = 1%Z) as -> by (vm_compute in Hi; now injection Hi).
  assert (v' = Reference.num 0) as -> by (vm_compute in Hv; now injection Hv).
  exists self', t', col. auto.
Defined.

(** ** Tables from arrays *)

Section FromArrays.

Local Open Scope nat_scope.

Lemma new_from_numpy_inv (d : Domain) (X : ndarray)
  (Y metas W : option ndarray) (t : Table) :
  new_from_numpy d X Y metas W = Ok t ->
  exists X' Y',
    match Y with
    | Some Y0 => Ok (X, Y0)
    | None =>
        Y1 <- getitem_colslice X
                (Some (Z.of_nat (length (Dom.attributes d)))) None ;;
        X1 <- getitem_colslice X None
                (Some (Z.of_nat (length (Dom.attributes d)))) ;;
        Ok (X1, Y1)
    end = Ok (X', Y') /\
    t = mk_Table d X' Y'
          (match metas with Some m => m | None => empty_object (shape0 X') 0 end)
          (match W with Some w => w | None => zeros (shape0 X') 0 end) /\
    ndim (_X t) = Dim2 /\ ndim (_Y t) = Dim2 /\ ndim (_metas t) = Dim2 /\
    domain_fits t /\ same_rows t.
Proof.
  unfold new_from_numpy.
  destruct (match Y with Some Y0 => _ | None => _ end) as [[X' Y']|];
    [|discriminate].
  cbn [Py.bind]. unfold shape1.
  destruct (ndim X') eqn:DX; [discriminate|]. cbn [Py.bind].
  destruct (Nat.eqb_spec (width X') (length (Dom.attributes d))) as [EX|];
    [|discriminate]. cbn [negb].
  destruct (ndim Y') eqn:DY; [discriminate|]. cbn [Py.bind].
  destruct (Nat.eqb_spec (width Y') (length (Dom.class_vars d))) as [EY|];
    [|discriminate]. cbn [negb].
  set (M := match metas with Some m => m | None => _ end).
  set (Wt := match W with Some w => w | None => _ end).
  destruct (ndim M) eqn:DM; [discriminate|]. cbn [Py.bind].
  destruct (Nat.eqb_spec (width M) (length (Dom.metas d))) as [EM|];
    [|discriminate]. cbn [negb].
  destruct (Nat.eqb_spec (shape0 X') (shape0 Y')) as [R1|]; [|discriminate].
  destruct (Nat.eqb_spec (shape0 Y') (shape0 M)) as [R2|]; [|discriminate].
  destruct (Nat.eqb_spec (shape0 M) (shape0 Wt)) as [R3|]; [|discriminate].
  cbn [andb negb]. intros H. injection H as <-.
  exists X', Y'. unfold domain_fits, same_rows.
  cbn [domain _X _Y _metas _W]. auto 10.
Qed.

(** A table that [new_from_numpy] returns has the domain it was given,
    two-dimensional [X], [Y] and [metas] with one column for each variable
    of their group, and the same number of rows in all four arrays; when
    [Y] was given, [X] and [Y] are the arrays passed in. *)
Theorem new_from_numpy_invariant (d : Domain) (X : ndarray)
  (Y metas W : option ndarray) (t : Table) :
  new_from_numpy d X Y metas W = Ok t ->
  domain t = d /\ domain_fits t /\ same_rows t /\
  ndim (_X t) = Dim2 /\ ndim (_Y t) = Dim2 /\ ndim (_metas t) = Dim2 /\
  (forall Y0, Y = Some Y0 -> _X t = X /\ _Y t = Y0) /\
  (forall m, metas = Some m -> _metas t = m) /\
  (forall w, W = Some w -> _W t = w).
Proof.
  intros H.
  destruct (new_from_numpy_inv d X Y metas W t H)
    as (X' & Y' & HXY & -> & DX & DY & DM & Hfit & Hrows).
  cbn [domain _X _Y _metas _W] in *.
  repeat (split; [assumption || reflexivity|]).
  split; [|split].
  - intros Y0 ->. now injection HXY as <- <-.
  - now intros m ->.
  - now intros w ->.
Qed.

Lemma slice_bounds_upto_nat (n k : nat) :
  slice_bounds None (Some (Z.of_nat n)) k = (0, Nat.min n k).
Proof.
  unfold slice_bounds, slice_indices. cbn [step start stop].
  change (1 =? 0)%Z with false. change (1 <? 0)%Z with false. cbv iota.
  destruct (Z.ltb_spec (Z.of_nat n) 0); [lia|]. f_equal. lia.
Qed.

(** [new_from_numpy] without [Y]: the columns of the one array are split
    after the features.  The call succeeds only if the array has one column
    for each feature and each target, and then each row of the array is the
    row of [X] followed by the row of [Y]; both are views of the array. *)
Theorem new_from_numpy_splits (d : Domain) (X : ndarray)
  (metas W : option ndarray) (t : Table) :
  wf_array X ->
  new_from_numpy d X None metas W = Ok t ->
  width X = length (Dom.attributes d) + length (Dom.class_vars d) /\
  rows X = map (fun xy => fst xy ++ snd xy)
             (combine (rows (_X t)) (rows (_Y t))) /\
  shape0 (_X t) = shape0 X /\ shape0 (_Y t) = shape0 X /\
  owndata (_X t) = false /\ owndata (_Y t) = false.
Proof.
  intros [F _] H.
  destruct (new_from_numpy_inv d X None metas W t H)
    as (X' & Y' & HXY & -> & _ & _ & _ & (FX & FY & _) & _).
  cbn [domain _X _Y _metas _W] in *.
  unfold getitem_colslice in HXY.
  destruct (ndim X) eqn:D; [discriminate|].
  rewrite slice_bounds_from, slice_bounds_upto_nat in HXY by lia.
  rewrite Nat2Z.id in HXY. cbn [Py.bind] in HXY.
  injection HXY as <- <-. cbn [width rows owndata shape0] in *.
  set (n := length (Dom.attributes d)) in *.
  rewrite Nat.sub_0_r in FX.
  assert (Hn : n <= width X) by lia.
  rewrite Nat.min_l in * by assumption.
  split; [lia|].
  unfold shape0. cbn [rows]. rewrite !length_map.
  repeat split; auto.
  rewrite combine_maps, map_map. cbn [fst snd].
  rewrite <- (map_id (rows X)) at 1. apply map_ext_in.
  intros r Hr. rewrite Forall_forall in F. specialize (F r Hr).
  rewrite Nat.sub_0_r.
  rewrite (firstn_all2 (n:=width X - n)) by (rewrite length_skipn; lia).
  symmetry. apply firstn_skipn.
Qed.

Variable read_data : string -> result Table.

Lemma anonymous_domain_sizes (X Y metas : ndarray) (d : Domain) :
  ndim Y = Dim2 ->
  create_anonymous_domain X (Some Y) (Some metas) = Ok d ->
  length (Dom.attributes d) = width X /\
  length (Dom.class_vars d) = width Y /\
  length (Dom.metas d) = width metas.
Proof.
  intros DY H.
  destruct (anonymous_domain_shape _ _ _ _ H) as (HA & _ & HY).
  destruct (HY Y eq_refl) as [HC _].
  split; [rewrite HA; now rewrite length_map, length_seq|].
  split.
  - rewrite HC. unfold transposed. rewrite DY.
    now rewrite length_map, length_seq.
  - unfold create_anonymous_domain, shape1 in H.
    destruct (ndim X); [discriminate|]. cbn [Py.bind] in H.
    destruct (class_vars_for 0 (transposed Y)); [|discriminate].
    cbn [Py.bind] in H.
    destruct (ndim metas); [discriminate|]. cbn [Py.bind] in H.
    injection H as <-. cbn [Dom.metas].
    now rewrite length_map, length_seq.
Qed.

(** [Table(X, Y, metas, W)] with four arrays: the domain is inferred from
    the first three, and it has one variable for each of their columns.
    So the call returns a table made of these very arrays when the four
    have the same number of rows, and raises ValueError when they have
    not. *)
Theorem table_of_arrays (X Y metas W : ndarray) :
  inferable X (Some Y) (Some metas) -> ndim Y = Dim2 ->
  exists d,
    create_anonymous_domain X (Some Y) (Some metas) = Ok d /\
    Table_new read_data (AArray X) [AArray Y; AArray metas; AArray W] =
      if Nat.eqb (shape0 X) (shape0 Y) && Nat.eqb (shape0 Y) (shape0 metas) &&
         Nat.eqb (shape0 metas) (shape0 W)
      then Ok (mk_Table d X Y metas W)
      else Raise ValueError.
Proof.
  intros Hinf DY.
  destruct (anonymous_domain_exists _ _ _ Hinf) as [d Hd].
  exists d. split; [assumption|].
  destruct (anonymous_domain_sizes X Y metas d DY Hd) as (LA & LC & LM).
  destruct Hinf as (DX & _ & HM). specialize (HM metas eq_refl).
  unfold Table_new. cbn [forallb is_array andb arrays_of].
  cbn [create_anonymous_domain_args firstn]. rewrite Hd.
  cbn [Py.bind new_from_numpy_args]. unfold new_from_numpy, shape1.
  cbn [Py.bind]. rewrite DX, DY, HM. cbn [Py.bind].
  rewrite LA, LC, LM, !Nat.eqb_refl. cbn [negb].
  now destruct (_ && _ && _).
Qed.

End FromArrays.

Lemma new_from_numpy_invariant_witness :
  exists t,
    new_from_numpy Sample.abc (_X Sample.abc_rows) (Some (_Y Sample.abc_rows))
      None None = Ok t /\
    domain_fits t /\ same_rows t.
Proof.
  eexists. split; [vm_compute; reflexivity|].
  refine ((fun H => conj (proj1 (proj2 H)) (proj1 (proj2 (proj2 H))))
            (new_from_numpy_invariant Sample.abc (_X Sample.abc_rows)
               (Some (_Y Sample.abc_rows)) None None _ _)).
  vm_compute. reflexivity.
Defined.

Lemma new_from_numpy_splits_witness :
  exists t,
    new_from_numpy Sample.abc
      (Reference.matrix 4 [[Reference.num 1; Reference.num 2; Reference.num 3;
                            Reference.num 7]]) None None None = Ok t /\
    rows (_X t) = [[Reference.num 1; Reference.num 2; Reference.num 3]] /\
    rows (_Y t) = [[Reference.num 7]] /\
    owndata (_X t) = false.
Proof.
  eexists. split; [vm_compute; reflexivity|].
  split; [reflexivity|]. split; [reflexivity|].
  refine (proj1 (proj2 (proj2 (proj2 (proj2
            (new_from_numpy_splits Sample.abc
               (Reference.matrix 4 [[Reference.num 1; Reference.num 2;
                                     Reference.num 3; Reference.num 7]])
               None None _ _ _)))))).
  - split; [repeat constructor|discriminate].
  - vm_compute. reflexivity.
Defined.

Lemma table_of_arrays_witness :
  exists d,
    create_anonymous_domain Bare.X (Some Bare.Y) (Some (empty_object 2 0)) =
      Ok d /\
    Table_new (fun _ => Raise ValueError) (AArray Bare.X)
      [AArray Bare.Y; AArray (empty_object 2 0); AArray (zeros 2 0)] =
      Ok (mk_Table d Bare.X Bare.Y (empty_object 2 0) (zeros 2 0)).
Proof.
  destruct (table_of_arrays (fun _ => Raise ValueError)
              Bare.X Bare.Y (empty_object 2 0) (zeros 2 0))
    as (d & H1 & H2).
  - split; [reflexivity|]. split.
    + intros targets E. injection E as <-.
      repeat constructor; discriminate.
    + intros m E. now injection E as <-.
  - reflexivity.
  - exists d. split; [exact H1|exact H2].
Defined.

(** ** Converting a whole table to another domain *)

Section Gathering.

Context {dom : DomainOps} {rt : Runtime}.

Local Open Scope nat_scope.












Lemma source_row_one (self : Table) (c : Z) (i : nat) :
  source_row self [c] i = [hd zero (source_row self [c] i)].
Proof. reflexivity. Qed.








End Gathering.


(** ** A random row *)

Section RandomRow.

Context {rnd : Random}.

Local Open Scope nat_scope.

Lemma RowInstance_at (t : Table) (i : nat) :
  same_rows t -> i < len t ->
  exists inst, RowInstance t (Z.of_nat i) = Ok inst.
Proof.
  intros (R1 & R2 & R3) Hi. unfold len, shape0 in *. unfold RowInstance.
  assert (G : forall l : list (list cell), length l = length (rows (_X t)) ->
            exists r, item l (Z.of_nat i) = Ok r).
  { intros l Hl. destruct (nth_error l i) as [r|] eqn:E.
    - exists r. now apply item_nat.
    - apply nth_error_None in E. lia. }
  destruct (G (rows (_X t)) eq_refl) as [x ->].
  destruct (G (rows (_Y t)) ltac:(lia)) as [y ->].
  destruct (G (rows (_metas t)) ltac:(lia)) as [m ->].
  cbv beta iota delta [Py.bind]. eauto.
Qed.

Lemma iter_rows_In (t : Table) (idx : list nat) (i : nat)
  (inst : Inst.Instance) :
  (forall j, In j idx -> exists r, RowInstance t (Z.of_nat j) = Ok r) ->
  In i idx -> RowInstance t (Z.of_nat i) = Ok inst ->
  In inst (iter_rows t idx).
Proof.
  induction idx as [|j idx IH]; intros Hall Hin Hi; [contradiction|].
  cbn [iter_rows]. destruct (Hall j (or_introl eq_refl)) as [r Hr].
  rewrite Hr. destruct Hin as [->|Hin].
  - left. congruence.
  - right. apply IH; auto. intros k Hk. apply Hall. now right.
Qed.

(** [random_example] raises IndexError on a table without rows; on any
    other table whose arrays have the same number of rows it returns one
    of the rows of the table. *)
Theorem random_example_is_a_row (t : Table) :
  same_rows t ->
  (len t = 0 -> random_example t = Raise IndexError) /\
  (0 < len t ->
   exists i inst,
     i < len t /\ random_example t = Ok inst /\
     RowInstance t (Z.of_nat i) = Ok inst /\ In inst (iter_table t)).
Proof.
  intros Hrows. unfold random_example. split.
  - intros ->. reflexivity.
  - intros Hpos. destruct (Nat.eqb_spec (len t) 0) as [|_]; [lia|].
    pose proof (randint_range 0 (Z.of_nat (len t) - 1) ltac:(lia)) as Hr.
    set (z := randint 0 (Z.of_nat (len t) - 1)) in *.
    assert (Hi : Z.to_nat z < len t) by lia.
    destruct (RowInstance_at t (Z.to_nat z) Hrows Hi) as [inst Hinst].
    exists (Z.to_nat z), inst. split; [assumption|].
    split; [now rewrite Z2Nat.id in Hinst by lia|].
    split; [assumption|].
    unfold iter_table. apply (iter_rows_In t _ (Z.to_nat z)); auto.
    + intros j Hj. apply in_seq in Hj. apply RowInstance_at; auto. lia.
    + apply in_seq. lia.
Qed.

End RandomRow.

Lemma random_example_is_a_row_witness :
  exists inst,
    @random_example
      {| randint := fun a _ => a;
         randint_range := fun a b H => conj (Z.le_refl a) H |}
      Sample.two_rows = Ok inst /\
    In inst (iter_table Sample.two_rows).
Proof.
  destruct (proj2 (@random_example_is_a_row
                     {| randint := fun a _ => a;
                        randint_range := fun a b H => conj (Z.le_refl a) H |}
                     Sample.two_rows ltac:(repeat split)))
    as (i & inst & _ & H1 & _ & H2); [vm_compute; lia|].
  exists inst. split; [exact H1|exact H2].
Defined.

(** ** Selecting rows *)

Section SelectingRows.

Context {dom : DomainOps} {rt : Runtime}.

Local Open Scope nat_scope.

Lemma nth_error_combine_both {A B : Type} (l : list A) (l' : list B)
  (k : nat) (a : A) (b : B) :
  nth_error l k = Some a -> nth_error l' k = Some b ->
  nth_error (combine l l') k = Some (a, b).
Proof.
  revert l l'. induction k as [|k IH]; intros [|x l] [|y l'] H H';
    try discriminate; cbn in *.
  - congruence.
  - now apply IH.
Qed.

Lemma item_combine {A B : Type} (l : list A) (l' : list B) (i : Z)
  (a : A) (b : B) :
  length l = length l' -> item l i = Ok a -> item l' i = Ok b ->
  item (combine l l') i = Ok (a, b).
Proof.
  intros Hlen Ha Hb.
  apply item_inv in Ha as (k & Hk & Ha).
  apply item_inv in Hb as (k' & Hk' & Hb).
  rewrite <- Hlen, Hk in Hk'. injection Hk' as <-.
  apply (item_at _ _ k); [|now apply nth_error_combine_both].
  rewrite length_combine, <- Hlen, Nat.min_id. exact Hk.
Qed.

Lemma mapM_item_combine {A B : Type} (l : list A) (l' : list B)
  (idx : list Z) (r : list A) (r' : list B) :
  length l = length l' ->
  mapM (item l) idx = Ok r -> mapM (item l') idx = Ok r' ->
  mapM (item (combine l l')) idx = Ok (combine r r').
Proof.
  intros Hlen. revert r r'.
  induction idx as [|i idx IH]; cbn [mapM]; intros r r' H H'.
  - injection H as <-. injection H' as <-. reflexivity.
  - destruct (item l i) as [a|] eqn:Ea; [|discriminate].
    destruct (item l' i) as [b|] eqn:Eb; [|discriminate].
    cbn [Py.bind] in *.
    destruct (mapM (item l) idx) as [xs|]; [|discriminate].
    destruct (mapM (item l') idx) as [ys|]; [|discriminate].
    cbn [Py.bind] in *. injection H as <-. injection H' as <-.
    rewrite (item_combine l l' i a b Hlen Ea Eb). cbn [Py.bind].
    now rewrite (IH xs ys).
Qed.

(** A row selector picks the same positions from lists of one length. *)
Lemma pick_combine {A B : Type} (sel : row_sel) (l : list A) (l' : list B)
  (r : list A) (r' : list B) :
  length l = length l' -> pick sel l = Ok r -> pick sel l' = Ok r' ->
  pick sel (combine l l') = Ok (combine r r').
Proof.
  intros Hlen. unfold pick.
  assert (Lc : length (combine l l') = length l)
    by (rewrite length_combine; lia).
  rewrite Lc, <- Hlen.
  destruct sel as [s| |idx|m].
  - destruct (slice_positions s (length l)); [|discriminate].
    cbn [Py.bind]. now apply mapM_item_combine.
  - intros H H'. injection H as <-. injection H' as <-. reflexivity.
  - now apply mapM_item_combine.
  - destruct (Nat.eqb (length m) (length l)); [|discriminate].
    intros H H'. injection H as <-. injection H' as <-.
    now rewrite select_combine.
Qed.

Lemma pick_In {A : Type} (sel : row_sel) (l r : list A) (a : A) :
  pick sel l = Ok r -> In a r -> In a l.
Proof.
  unfold pick.
  assert (Items : forall idx r0, mapM (item l) idx = Ok r0 ->
                                 In a r0 -> In a l).
  { induction idx as [|i idx IH]; cbn [mapM]; intros r0 H Hin.
    - injection H as <-. contradiction.
    - destruct (item l i) as [x|] eqn:Ex; [|discriminate].
      cbn [Py.bind] in H.
      destruct (mapM (item l) idx) as [xs|]; [|discriminate].
      cbn [Py.bind] in H. injection H as <-.
      destruct Hin as [<-|Hin]; [|now apply (IH xs)].
      apply item_inv in Ex as (k & _ & Hk). eapply nth_error_In; eassumption. }
  destruct sel as [s| |idx|m].
  - destruct (slice_positions s (length l)); [|discriminate]. apply Items.
  - intros H. now injection H as <-.
  - apply Items.
  - destruct (Nat.eqb (length m) (length l)); [|discriminate].
    intros H. injection H as <-. clear. revert l.
    induction m as [|b m IH]; intros [|x l] Hin; cbn [select] in Hin;
      try contradiction.
    destruct b; [destruct Hin as [<-|Hin]; [now left|]|]; right; now apply IH.
Qed.

Lemma getitem_wf (sel : row_sel) (a a' : ndarray) :
  wf_array a -> getitem a sel = Ok a' ->
  wf_array a' /\ ndim a' = ndim a /\ width a' = width a /\
  owndata a' = negb (is_basic sel) /\ pick sel (rows a) = Ok (rows a').
Proof.
  intros [F D]. unfold getitem.
  destruct (pick sel (rows a)) as [r|] eqn:E; [|discriminate].
  cbn [Py.bind]. intros H. injection H as <-.
  cbn [ndim width owndata rows]. repeat split; auto.
  cbn [rows width]. apply Forall_forall. intros x Hx.
  rewrite Forall_forall in F. apply F. eapply pick_In; eassumption.
Qed.

Lemma new_from_table_rows_arrays (source t : Table) (sel : row_sel) :
  wf_table source -> new_from_table_rows source sel = Ok t ->
  domain t = domain source /\ wf_table t /\
  forall f : Table -> ndarray,
    f = _X \/ f = _Y \/ f = _metas \/ f = _W ->
    owndata (f t) = negb (is_basic sel) /\
    pick sel (rows (f source)) = Ok (rows (f t)).
Proof.
  intros Hwf H. pose proof (wf_table_same_rows _ Hwf) as Hrows.
  pose proof (new_from_table_rows_rows _ _ _ Hrows H) as Hrows'.
  destruct Hwf as ((DX & WX) & (DY & WY) & (DM & WM) & (WW & DW) & _).
  unfold new_from_table_rows in H.
  destruct (getitem (_X source) sel) as [x|] eqn:EX; [|discriminate].
  destruct (getitem (_Y source) sel) as [y|] eqn:EY; [|discriminate].
  destruct (getitem (_metas source) sel) as [m|] eqn:EM; [|discriminate].
  destruct (getitem (_W source) sel) as [w|] eqn:EW; [|discriminate].
  cbn [Py.bind] in H. injection H as <-.
  destruct (getitem_wf _ _ _ WX EX) as (Wx & Dx & Kx & Ox & Px).
  destruct (getitem_wf _ _ _ WY EY) as (Wy & Dy & Ky & Oy & Py).
  destruct (getitem_wf _ _ _ WM EM) as (Wm & Dm & Km & Om & Pm).
  destruct (getitem_wf _ _ _ WW EW) as (Ww & Dw & Kw & Ow & Pw).
  cbn [domain _X _Y _metas _W]. split; [reflexivity|]. split.
  - unfold wf_table. cbn [_X _Y _metas _W].
    rewrite Dx, Dy, Dm, Dw, Kw. tauto.
  - intros f [-> | [-> | [-> | ->]]]; cbn [_X _Y _metas _W]; auto.
Qed.

(** [new_from_table_rows] (so also [table[key]] for a slice, a list of
    indices or a mask) on a table of the documented shape: the selector
    picks whole rows, so each row of the result is a row of the source
    with its own features, targets, meta values and weight.  The result
    has the documented shape again; its arrays are views for a slice or
    Ellipsis and copies for an index list or a mask. *)
Theorem new_from_table_rows_aligned (source t : Table) (sel : row_sel) :
  wf_table source -> new_from_table_rows source sel = Ok t ->
  domain t = domain source /\
  pick sel (records source) = Ok (records t) /\
  wf_table t /\
  owndata (_X t) = negb (is_basic sel) /\
  owndata (_Y t) = negb (is_basic sel) /\
  owndata (_metas t) = negb (is_basic sel) /\
  owndata (_W t) = negb (is_basic sel).
Proof.
  intros Hwf H.
  destruct (new_from_table_rows_arrays source t sel Hwf H) as (D & Hwf' & Har).
  destruct (wf_table_same_rows _ Hwf) as (R1 & R2 & R3). unfold shape0 in *.
  destruct (Har _X) as (OX & PX); auto.
  destruct (Har _Y) as (OY & PY); auto.
  destruct (Har _metas) as (OM & PM); auto.
  destruct (Har _W) as (OW & PW); auto.
  split; [assumption|]. split; [|auto 10].
  unfold records.
  apply pick_combine; auto; [rewrite !length_combine; lia|].
  apply pick_combine; auto; [rewrite !length_combine; lia|].
  apply pick_combine; auto; lia.
Qed.


End SelectingRows.

Lemma new_from_table_rows_aligned_witness :
  exists t,
    new_from_table_rows Sample.scenario (RList [3; 0]%Z) = Ok t /\
    pick (RList [3; 0]%Z) (records Sample.scenario) = Ok (records t) /\
    owndata (_X t) = true.
Proof.
  assert (Hwf : wf_table Sample.scenario) by sample_wf.
  eexists. split; [vm_compute; reflexivity|].
  refine ((fun H => conj (proj1 (proj2 H)) (proj1 (proj2 (proj2 (proj2 H)))))
            (new_from_table_rows_aligned Sample.scenario _ (RList [3; 0]%Z)
               Hwf _)).
  vm_compute. reflexivity.
Defined.


Section ExtendingKeeps.

Context {dom : DomainOps} {rt : Runtime}.

Local Open Scope nat_scope.

(** A successful [extend], with a table or with a sequence of examples,
    adds one row for each example below the rows that were there: the
    table is longer by the number of examples, and in each of the four
    arrays the old rows are unchanged. *)
Theorem extend_keeps_old_rows (examples : examples_t) (t t' : Table) :
  wf_table t -> extend examples t = (Ok tt, t') ->
  len t' = len t + len_examples examples /\
  wf_table t' /\ domain t' = domain t /\
  firstn (len t) (rows (_X t')) = rows (_X t) /\
  firstn (len t) (rows (_Y t')) = rows (_Y t) /\
  firstn (len t) (rows (_metas t')) = rows (_metas t) /\
  firstn (len t) (rows (_W t')) = rows (_W t).
Proof.
  intros Hwf Hext.
  pose proof (extend_keeps_shape examples t t' _ Hwf Hext) as Hwf'.
  destruct (extend_run examples t Hwf) as [(e & E & _)|(t1 & E1 & E)];
    [congruence|].
  destruct (extend_body (len t) examples t1) as [[[]|e] t2] eqn:Hbody;
    [|congruence].
  assert (t2 = t') by congruence. subst t2.
  pose proof (extend_body_preserves _ _ _ _ _ Hbody)
    as (D & AX & AY & AM & AW).
  assert (Hgrow : all_own t = true \/ len_examples examples = 0).
  { destruct (Nat.eq_dec (len_examples examples) 0) as [|Hne]; [now right|].
    left. destruct (all_own t) eqn:Hown; [reflexivity|].
    rewrite resize_all_grow_fail in E1; auto; [discriminate|lia]. }
  destruct (resize_all_grows (len_examples examples) t Hwf Hgrow)
    as (t1' & E1' & _ & D1 & Hg).
  assert (t1' = t1) by congruence. subst t1'.
  destruct (wf_table_same_rows _ Hwf) as (R1 & R2 & R3).
  unfold len, shape0 in *.
  assert (Old : forall f : Table -> ndarray,
            f = _X \/ f = _Y \/ f = _metas \/ f = _W ->
            length (rows (f t)) = length (rows (_X t)) ->
            agree (head_view (length (rows (_X t)))) (f t1) (f t') ->
            firstn (length (rows (_X t))) (rows (f t')) = rows (f t) /\
            length (rows (f t')) =
              length (rows (_X t)) + len_examples examples).
  { intros f Hf Lf (_ & _ & _ & L & Hv & _).
    destruct (Hg f Hf) as (_ & _ & Hr). unfold head_view in Hv.
    rewrite Hr in Hv, L. split.
    - rewrite Hv. now apply firstn_app_exact.
    - rewrite L, length_app, repeat_length. lia. }
  destruct (Old _X) as (HX & LX); auto.
  destruct (Old _Y) as (HY & _); auto.
  destruct (Old _metas) as (HM & _); auto; [lia|].
  destruct (Old _W) as (HW & _); auto; [lia|].
  split; [exact LX|]. split; [exact Hwf'|].
  split; [now rewrite D|]. auto.
Qed.

End ExtendingKeeps.

Lemma extend_keeps_old_rows_witness :
  exists t',
    extend (ExList [Sample.good_row; Sample.good_row]) Sample.two_rows =
      (Ok tt, t') /\
    len t' = 4%nat /\
    firstn 2 (rows (_X t')) = rows (_X Sample.two_rows).
Proof.
  assert (Hwf : wf_table Sample.two_rows) by sample_wf.
  eexists. split; [vm_compute; reflexivity|].
  refine ((fun H => conj (proj1 H) (proj1 (proj2 (proj2 (proj2 H)))))
            (extend_keeps_old_rows
               (ExList [Sample.good_row; Sample.good_row]) Sample.two_rows _
               Hwf _)).
  vm_compute. reflexivity.
Defined.

(** ** What every filter returns *)

Section FilterResults.

Context {dom : DomainOps} {rt : Runtime}.

Local Open Scope nat_scope.

(** The selection of rows by a mask, as the filters end. *)
Lemma mask_selects (t t' : Table) (m : list bool) :
  new_from_table_rows t (RMask m) = Ok t' ->
  length m = len t /\ domain t' = domain t /\ all_own t' = true /\
  records t' = select m (records t).
Proof.
  intros H. apply new_from_table_rows_mask in H as [Hfit ->].
  split; [destruct Hfit as (FX & _); now rewrite <- FX|].
  split; [reflexivity|]. split; [reflexivity|]. apply records_selected.
Qed.

(** Each of the filters returns a table of the same domain that owns its
    arrays and holds some of the rows of the table, whole and in their
    order: the rows that a vector of marks, one for each row, selects. *)
Theorem filters_select_rows (t t' : Table) :
  (forall negate, filter_is_defined t negate = Ok t' \/
                  filter_has_class t negate = Ok t' ->
     exists m, length m = len t /\ domain t' = domain t /\
               all_own t' = true /\ records t' = select m (records t)) /\
  (forall prob negate, filter_random t prob negate = Ok t' ->
     exists m, length m = len t /\ domain t' = domain t /\
               all_own t' = true /\ records t' = select m (records t)) /\
  (forall position value negate,
     filter_same_value t position value negate = Ok t' ->
     exists m, length m = len t /\ domain t' = domain t /\
               all_own t' = true /\ records t' = select m (records t)) /\
  (forall filt, filter_values t filt = Ok t' ->
     exists m, length m = len t /\ domain t' = domain t /\
               all_own t' = true /\ records t' = select m (records t)).
Proof.
  split; [|split; [|split]].
  - intros negate [H|H].
    + unfold filter_is_defined in H.
      destruct (anynan_rows (_X t)); [|discriminate].
      destruct (anynan_rows (_Y t)); [|discriminate].
      cbn [Py.bind] in H.
      destruct (binop2 orb _ _); [|discriminate]. cbn [Py.bind] in H.
      eexists. eapply mask_selects. exact H.
    + unfold filter_has_class in H.
      destruct (anynan_rows (_Y t)); [|discriminate]. cbn [Py.bind] in H.
      eexists. eapply mask_selects. exact H.
  - intros prob negate H. unfold filter_random in H.
    destruct (retain_mask _ _ _); [|discriminate]. cbn [Py.bind] in H.
    eexists. eapply mask_selects. exact H.
  - intros position value negate H. unfold filter_same_value in H.
    destruct (coerce _ _ _); [|discriminate].
    destruct (get_column_view _ _); [|discriminate]. cbn [Py.bind] in H.
    eexists. eapply mask_selects. exact H.
  - intros filt H. unfold filter_values in H.
    destruct (filter_mask _ _); [|discriminate]. cbn [Py.bind] in H.
    eexists. eapply mask_selects. exact H.
Qed.

End FilterResults.

Lemma filters_select_rows_witness :
  exists t' m,
    filter_values Sample.scenario Sample.f_above_1_5 = Ok t' /\
    length m = 4%nat /\
    records t' = select m (records Sample.scenario).
Proof.
  destruct (filter_values Sample.scenario Sample.f_above_1_5) as [t'|] eqn:E;
    [|vm_compute in E; discriminate].
  destruct (proj2 (proj2 (proj2 (filters_select_rows Sample.scenario t')))
              Sample.f_above_1_5 E)
    as (m & H1 & _ & _ & H2).
  exists t', m. split; [reflexivity|]. split; [exact H1|exact H2].
Defined.

(** ** An interval as two bounds *)

Section Intervals.

Context {dom : DomainOps} {rt : Runtime}.

Local Open Scope nat_scope.

Lemma inplace2_same_length {A B : Type} (f : A -> B -> A) (a : list A)
  (b : list B) :
  length a = length b ->
  inplace2 f a b = Ok (map (fun p => f (fst p) (snd p)) (combine a b)).
Proof. intros H. unfold inplace2. now rewrite H, Nat.eqb_refl. Qed.

Lemma andb_all_true (l : list bool) :
  map (fun p => fst p && snd p) (combine (repeat true (length l)) l) = l.
Proof.
  induction l as [|b l IH]; [reflexivity|].
  cbn [length repeat combine map fst snd andb]. now rewrite IH.
Qed.

(** [filter_values] with the condition "between [a] and [b]" on a column
    does what it does with the conjunction of the two conditions "at least
    [a]" and "at most [b]" on that column: the same table, or the same
    exception. *)
Theorem filter_between_is_two_bounds (t : Table) (position : colkey)
  (a b unused1 unused2 : cell) :
  same_rows t ->
  filter_values t (Single (FilterContinuous position Between a b)) =
  filter_values t
    (Values [FilterContinuous position GreaterEqual a unused1;
             FilterContinuous position LessEqual b unused2] true).
Proof.
  intros Hrows. unfold filter_values, filter_mask.
  cbn [apply_conditions apply_condition compare_column].
  destruct (get_column_view t position) as [col|] eqn:Ec; [|reflexivity].
  pose proof (get_column_view_length t position col Hrows Ec) as Hlen.
  cbn [Py.bind].
  destruct (mapM (fun c => cell_le a c) col) as [lo|] eqn:Elo;
    [|reflexivity].
  pose proof (mapM_length _ _ _ Elo) as Llo.
  cbn [Py.bind].
  rewrite (inplace2_same_length andb (repeat true (len t)) lo)
    by (rewrite repeat_length; congruence).
  replace (len t) with (length lo) by congruence.
  rewrite andb_all_true. cbn [Py.bind].
  destruct (mapM (fun c => cell_le c b) col) as [hi|] eqn:Ehi;
    [|reflexivity].
  pose proof (mapM_length _ _ _ Ehi) as Lhi.
  cbn [Py.bind].
  rewrite binop2_same_length by congruence. cbn [Py.bind].
  rewrite (inplace2_same_length andb lo hi) by congruence.
  rewrite (inplace2_same_length andb (repeat true (length lo)))
    by (rewrite repeat_length, length_map, length_combine; lia).
  replace (length lo)
    with (length (map (fun p => fst p && snd p) (combine lo hi)))
    by (rewrite length_map, length_combine; lia).
  rewrite andb_all_true. reflexivity.
Qed.

End Intervals.

Lemma filter_between_is_two_bounds_witness :
  exists t',
    filter_values Sample.scenario
      (Single (FilterContinuous (KName "f") Between
                 (Reference.num 2) (Reference.num 3))) = Ok t' /\
    len t' = 2%nat /\
    filter_values Sample.scenario
      (Values [FilterContinuous (KName "f") GreaterEqual (Reference.num 2)
                 CNone;
               FilterContinuous (KName "f") LessEqual (Reference.num 3) CNone]
         true) = Ok t'.
Proof.
  eexists. split; [vm_compute; reflexivity|]. split; [reflexivity|].
  rewrite <- (filter_between_is_two_bounds Sample.scenario (KName "f")
                (Reference.num 2) (Reference.num 3) CNone CNone
                ltac:(repeat split)).
  vm_compute. reflexivity.
Defined.
